(** * badgers: outlier generators for tabular data and time series

    A shallow embedding of
      - [badgers/generators/time_series/outliers.py]
      - [badgers/generators/tabular_data/outliers.py]

    Numbers.  numpy works on IEEE doubles.  The development idealises a
    finite double as a real number (no rounding, no overflow) and keeps
    the one non-finite value the time-series code can produce, NaN, as a
    separate constructor.  Counts, indices, shapes and percentages are
    integers.

    Randomness.  A [numpy.random.Generator] is a stateful object held by
    reference; it is modelled by explicit state passing over an abstract
    state type with the documented contract of each draw.

    Objects.  Where a property depends on which object a call reads and
    writes (two generators with a source each, an array written in
    place), the sources and arrays live in a heap and are named by
    reference ([objects]).

    Errors.  A Python exception is a [Raise] result. *)

From Stdlib Require Import String DecimalString.
From Stdlib Require Import List ZArith Reals Lra Lia Bool Arith PeanoNat.
Import ListNotations.

(* ------------------------------------------------------------------ *)
(** ** Exceptions and results *)

Inductive exn : Type :=
| ValueError (msg : string)
| NotImplementedError (msg : string)
| AssertionError (msg : string)
| IndexError (msg : string)
| AttributeError (msg : string).

Inductive result (A : Type) : Type :=
| Ok (a : A)
| Raise (e : exn).

Arguments Ok {A} a.
Arguments Raise {A} e.

Definition is_ok {A} (r : result A) : bool :=
  match r with Ok _ => true | Raise _ => false end.

(** The state threaded through a call: the state of the generator's random
    source and the warnings emitted so far ([warnings.warn]). *)
Record world (G : Type) : Type := World {
  rng : G;
  warned : list string
}.

Arguments World {G} rng warned.
Arguments rng {G} w.
Arguments warned {G} w.

Definition M (G A : Type) : Type := world G -> result (A * world G).

Definition ret {G A} (a : A) : M G A := fun w => Ok (a, w).

Definition bind {G A B} (m : M G A) (k : A -> M G B) : M G B :=
  fun w => match m w with
           | Ok (a, w') => k a w'
           | Raise e => Raise e
           end.

Definition raise {G A} (e : exn) : M G A := fun _ => Raise e.

(** One draw from the random source: the source advances, nothing else
    changes. *)
Definition draw {G A} (f : G -> A * G) : M G A :=
  fun w => let (a, g') := f (rng w) in Ok (a, World g' (warned w)).

(** [warnings.warn(msg)] *)
Definition warn {G} (msg : string) : M G unit :=
  fun w => Ok (tt, World (rng w) (warned w ++ [msg])).

Declare Scope monad_scope.
Delimit Scope monad_scope with monad.
Notation "x <- m ;; k" := (bind m (fun x => k))
  (at level 61, m at next level, right associativity) : monad_scope.
Notation "' pat <- m ;; k" := (bind m (fun x => match x with pat => k end))
  (at level 61, pat pattern, m at next level, right associativity) : monad_scope.

(** [for _ in range(n)] collecting one value per round. *)
Fixpoint replicateM {G A} (n : nat) (m : M G A) : M G (list A) :=
  match n with
  | O => ret []
  | S n' => (x <- m ;; xs <- replicateM n' m ;; ret (x :: xs))%monad
  end.

(** [for x in xs] collecting one value per element. *)
Fixpoint mapM {G A B} (f : A -> M G B) (xs : list A) : M G (list B) :=
  match xs with
  | [] => ret []
  | x :: xs' => (y <- f x ;; ys <- mapM f xs' ;; ret (y :: ys))%monad
  end.

(** [for x in xs] updating an accumulator. *)
Fixpoint foldM {G A S} (f : S -> A -> M G S) (s : S) (xs : list A) : M G S :=
  match xs with
  | [] => ret s
  | x :: xs' => (s' <- f s x ;; foldM f s' xs')%monad
  end.

(* ------------------------------------------------------------------ *)
(** ** The random source

    The methods of [numpy.random.Generator] the two files call, each with
    the contract numpy documents for it.  [rng_bits] and [rng_direction]
    are the draws behind the two helpers of [badgers.core.utils]. *)

Class Generator (G : Type) : Type := {
  (** [default_rng(seed)] *)
  default_rng : Z -> G;
  (** [exponential(size=n)]: n draws from Exp(1), each non-negative *)
  rng_exponential : nat -> G -> list R * G;
  rng_exponential_length :
    forall n g, length (fst (rng_exponential n g)) = n;
  rng_exponential_nonneg :
    forall n g, Forall (fun e => (0 <= e)%R) (fst (rng_exponential n g));
  (** n fair coin flips *)
  rng_bits : nat -> G -> list bool * G;
  rng_bits_length : forall n g, length (fst (rng_bits n g)) = n;
  (** a direction: a point of the unit sphere of R^n *)
  rng_direction : nat -> G -> list R * G;
  rng_direction_length : forall n g, length (fst (rng_direction n g)) = n;
  rng_direction_unit :
    forall n g, (0 < n)%nat ->
      fold_right (fun x acc => (x * x + acc)%R) 0%R (fst (rng_direction n g)) = 1%R;
  (** k indices below [pop], drawn with replacement *)
  rng_integers : nat -> nat -> G -> list nat * G;
  rng_integers_length : forall pop k g, length (fst (rng_integers pop k g)) = k;
  rng_integers_range :
    forall pop k g, (0 < pop)%nat ->
      Forall (fun i => (i < pop)%nat) (fst (rng_integers pop k g));
  (** k distinct indices below [pop] *)
  rng_sample : nat -> nat -> G -> list nat * G;
  rng_sample_length :
    forall pop k g, (k <= pop)%nat -> length (fst (rng_sample pop k g)) = k;
  rng_sample_range :
    forall pop k g, (k <= pop)%nat ->
      Forall (fun i => (i < pop)%nat) (fst (rng_sample pop k g));
  rng_sample_NoDup :
    forall pop k g, (k <= pop)%nat -> NoDup (fst (rng_sample pop k g));
  (** [uniform(low, high)]: one draw from the interval *)
  rng_uniform : R -> R -> G -> R * G;
  rng_uniform_range :
    forall low high g, (low <= high)%R ->
      (low <= fst (rng_uniform low high g) <= high)%R
}.

Section RandomHelpers.
Context {G : Type} `{Generator G}.

(** [Generator.exponential(size=n)] *)
Definition exponential (n : nat) : M G (list R) :=
  draw (rng_exponential n).

(** [Generator.exponential()]: a single draw *)
Definition exponential1 : M G R :=
  draw (fun g => let (l, g') := rng_exponential 1 g in (hd 0%R l, g')).

(** [Generator.uniform(low=.., high=..)] *)
Definition uniform (low high : R) : M G R :=
  draw (rng_uniform low high).

(** [Generator.choice(pop, size=k, replace=False)]: numpy raises
    ValueError on an empty population unless no sample is taken, and
    then when more indices are asked for than there are. *)
Definition choice_without_replacement (pop k : nat) : M G (list nat) :=
  if ((pop =? 0)%nat && negb (k =? 0)%nat)%bool
  then raise (ValueError
    "a must be a positive integer unless no samples are taken")
  else if (pop <? k)%nat
  then raise (ValueError
    "Cannot take a larger sample than population when replace is False")
  else draw (rng_sample pop k).

(** [Generator.choice(a, k, replace=True)] for a list [a]: numpy raises
    ValueError on an empty [a] unless no sample is taken. *)
Definition choice_with_replacement {A} (a : list A) (k : nat) : M G (list A) :=
  match a with
  | [] =>
      if (k =? 0)%nat then ret []
      else raise (ValueError "a cannot be empty unless no samples are taken")
  | d :: _ =>
      draw (fun g => let (js, g') := rng_integers (length a) k g in
                     (map (fun i => nth i a d) js, g'))
  end.

(** Modelled from the spec: [badgers.core.utils.random_sign] is not among
    the sources; the spec describes it as a helper "producing a random
    sign vector ... given a seeded generator": [size] entries, each
    [+1] or [-1]. *)
Definition random_sign (size : nat) : M G (list R) :=
  draw (fun g => let (bs, g') := rng_bits size g in
                 (map (fun b : bool => if b then (-1)%R else 1%R) bs, g')).

(** Modelled from the spec: [badgers.core.utils.random_spherical_coordinate]
    is not among the sources; the spec describes it as producing "a random
    point on an n-sphere surface given a seeded generator", here the
    sphere of the given radius: a random direction scaled by [radius]. *)
Definition random_spherical_coordinate (size : nat) (radius : R) : M G (list R) :=
  draw (fun g => let (u, g') := rng_direction size g in
                 (map (fun x => (radius * x)%R) u, g')).
End RandomHelpers.

(** A scripted random source, used to run the generators on concrete
    inputs.  Its state is a counter that every draw advances: an
    exponential draw is the counter itself, the signs follow its parity,
    a direction is the first axis, indices with replacement are the
    counter reduced modulo the population, indices without replacement
    are the first ones, and a uniform draw is the lower end of its
    interval in state 0 and the middle of the interval afterwards. *)
Module Scripted.
Definition exponential_draw (n g : nat) : list R * nat :=
  (repeat (INR g) n, S g).
Definition bits_draw (n g : nat) : list bool * nat :=
  (repeat (Nat.odd g) n, S g).
Definition direction_draw (n g : nat) : list R * nat :=
  (match n with O => [] | S m => 1%R :: repeat 0%R m end, S g).
Definition integers_draw (pop k g : nat) : list nat * nat :=
  (repeat (g mod pop) k, S g).
Definition sample_draw (pop k g : nat) : list nat * nat :=
  (seq 0 k, S g).
Definition uniform_draw (low high : R) (g : nat) : R * nat :=
  (match g with O => low | S _ => ((low + high) / 2)%R end, S g).

Lemma exponential_draw_nonneg n g :
  Forall (fun e => (0 <= e)%R) (fst (exponential_draw n g)).
Proof.
  apply Forall_forall; intros e He; simpl in He.
  apply repeat_spec in He; subst e; apply pos_INR.
Qed.

Lemma direction_draw_unit n g :
  (0 < n)%nat ->
  fold_right (fun x acc => (x * x + acc)%R) 0%R (fst (direction_draw n g)) = 1%R.
Proof.
  destruct n as [|m]; [lia|]; intros _; simpl.
  assert (E : fold_right (fun x acc => (x * x + acc)%R) 0%R (repeat 0%R m) = 0%R).
  { induction m as [|m IH]; simpl; [reflexivity | rewrite IH; lra]. }
  rewrite E; lra.
Qed.

Lemma direction_draw_length n g : length (fst (direction_draw n g)) = n.
Proof. destruct n; simpl; [reflexivity | now rewrite repeat_length]. Qed.

Lemma integers_draw_range pop k g :
  (0 < pop)%nat -> Forall (fun i => (i < pop)%nat) (fst (integers_draw pop k g)).
Proof.
  intros Hp; apply Forall_forall; intros i Hi; simpl in Hi.
  apply repeat_spec in Hi; subst i; apply Nat.mod_upper_bound; lia.
Qed.

Lemma sample_draw_range pop k g :
  (k <= pop)%nat -> Forall (fun i => (i < pop)%nat) (fst (sample_draw pop k g)).
Proof.
  intros Hk; apply Forall_forall; intros i Hi; simpl in Hi.
  apply in_seq in Hi; lia.
Qed.

Lemma uniform_draw_range low high g :
  (low <= high)%R -> (low <= fst (uniform_draw low high g) <= high)%R.
Proof. intros Hl; destruct g; simpl; lra. Qed.

#[global] Instance scripted : Generator nat := {
  default_rng := Z.to_nat;
  rng_exponential := exponential_draw;
  rng_exponential_length := fun n g => repeat_length (INR g) n;
  rng_exponential_nonneg := exponential_draw_nonneg;
  rng_bits := bits_draw;
  rng_bits_length := fun n g => repeat_length (Nat.odd g) n;
  rng_direction := direction_draw;
  rng_direction_length := direction_draw_length;
  rng_direction_unit := direction_draw_unit;
  rng_integers := integers_draw;
  rng_integers_length := fun pop k g => repeat_length (g mod pop) k;
  rng_integers_range := integers_draw_range;
  rng_sample := sample_draw;
  rng_sample_length := fun pop k g _ => length_seq k 0;
  rng_sample_range := sample_draw_range;
  rng_sample_NoDup := fun pop k g _ => seq_NoDup k 0;
  rng_uniform := uniform_draw;
  rng_uniform_range := uniform_draw_range
}.
End Scripted.

(* ------------------------------------------------------------------ *)
(** ** Array elements and Python slicing *)

(** A double: NaN, or a finite value idealised as a real. *)
Inductive float : Type :=
| NaN
| Fin (r : R).

Definition fadd (a b : float) : float :=
  match a, b with Fin x, Fin y => Fin (x + y) | _, _ => NaN end.
Definition fsub (a b : float) : float :=
  match a, b with Fin x, Fin y => Fin (x - y) | _, _ => NaN end.
Definition fmul (a b : float) : float :=
  match a, b with Fin x, Fin y => Fin (x * y) | _, _ => NaN end.
Definition fabs (a : float) : float :=
  match a with Fin x => Fin (Rabs x) | NaN => NaN end.
Definition fsqrt (a : float) : float :=
  match a with Fin x => Fin (sqrt x) | NaN => NaN end.

Definition fsum (l : list float) : float := fold_left fadd l (Fin 0).

(** [ndarray.mean()] of a vector: the sum divided by the count.  On an
    empty vector numpy divides 0.0 by 0 and the result is NaN. *)
Definition np_mean (l : list float) : float :=
  match l with
  | [] => NaN
  | _ => fmul (fsum l) (Fin (/ INR (length l)))
  end.

(** [ndarray.std()] of a vector: [sqrt(mean(abs(x - x.mean())**2))]. *)
Definition np_std (l : list float) : float :=
  let m := np_mean l in
  fsqrt (np_mean (map (fun x => let d := fabs (fsub x m) in fmul d d) l)).

(** Python's normalisation of one bound of [a[lo:hi]] on a sequence of
    length [n]: a negative bound counts from the end, and the result is
    clamped to [0, n]. *)
Definition slice_bound (n b : Z) : Z :=
  if (b <? 0)%Z then Z.max 0 (b + n) else Z.min b n.

(** [l[lo:hi]] *)
Definition slice {A} (l : list A) (lo hi : Z) : list A :=
  let n := Z.of_nat (length l) in
  let lo' := slice_bound n lo in
  let hi' := slice_bound n hi in
  firstn (Z.to_nat (hi' - lo')) (skipn (Z.to_nat lo') l).

(** [l[i] = v] *)
Fixpoint set_nth {A} (i : nat) (v : A) (l : list A) : list A :=
  match l, i with
  | [], _ => []
  | _ :: l', O => v :: l'
  | x :: l', S i' => x :: set_nth i' v l'
  end.

(* ------------------------------------------------------------------ *)
(** ** time_series/outliers.py *)

Module time_series.

(** An n-dimensional array seen along its first axis: its shape and the
    list of its items [X[0], X[1], ...], each one flattened in row-major
    order.  For a 2-D array the items are the rows.  A 0-d array has one
    item holding its single value. *)
Record ndarray : Type := Array {
  shape : list nat;
  items : list (list float)
}.

Definition ndim (X : ndarray) : nat := length (shape X).

(** number of values in one item: the product of [X.shape[1:]] *)
Definition item_size (X : ndarray) : nat :=
  fold_right Nat.mul 1%nat (tl (shape X)).

Definition well_formed (X : ndarray) : Prop :=
  length (items X) = hd 1%nat (shape X) /\
  Forall (fun it => length it = item_size X) (items X).

(** [OutliersGenerator]: the attributes set by [__init__]; the random
    generator is held by reference and its state lives in the [world]. *)
Record OutliersGenerator : Type := Build_OutliersGenerator {
  n_outliers : nat;
  outliers_indices_ : list nat
}.

Definition OutliersGenerator_init (n_outliers : nat) : OutliersGenerator :=
  {| n_outliers := n_outliers; outliers_indices_ := [] |}.

Definition RandomZerosGenerator : Type := OutliersGenerator.

Record LocalZScoreGenerator : Type := Build_LocalZScoreGenerator {
  base : OutliersGenerator;
  local_window_size : Z
}.

Definition LocalZScoreGenerator_init (n_outliers : nat) (local_window_size : Z)
  : LocalZScoreGenerator :=
  {| base := OutliersGenerator_init n_outliers;
     local_window_size := local_window_size |}.

Definition expected_2d : string :=
  "Expected 2D array. Reshape your data either using array.reshape(-1, 1) if your data has a single feature or array.reshape(1, -1) if it contains a single sample.".

(** [X[idx, :] = v] for a vector [v] of the item's size; numpy raises
    IndexError when [idx] is out of bounds. *)
Definition setitem {G} (X : ndarray) (idx : nat) (v : list float) : M G ndarray :=
  if (idx <? length (items X))%nat
  then ret (Array (shape X) (set_nth idx v (items X)))
  else raise (IndexError "index is out of bounds for axis 0").

(** [X[idx, :] = c] for a scalar [c], broadcast over the item *)
Definition fill {G} (X : ndarray) (idx : nat) (c : float) : M G ndarray :=
  setitem X idx (map (fun _ => c) (nth idx (items X) [])).

(** entry [j] of every item of a window *)
Definition column (j : nat) (window : list (list float)) : list float :=
  map (fun it => nth j it NaN) window.

(** [window.mean(axis=0)] and [window.std(axis=0)], on items of size [m] *)
Definition mean_axis0 (m : nat) (window : list (list float)) : list float :=
  map (fun j => np_mean (column j window)) (seq 0 m).
Definition std_axis0 (m : nat) (window : list (list float)) : list float :=
  map (fun j => np_std (column j window)) (seq 0 m).

(** [int(local_window_size / 2)]: truncation towards zero *)
Definition half_window (self : LocalZScoreGenerator) : Z :=
  Z.quot (local_window_size self) 2.

(** [X[idx - int(w / 2) : idx + int(w / 2), :]] *)
Definition local_window (self : LocalZScoreGenerator) (X : ndarray) (idx : nat)
  : list (list float) :=
  slice (items X) (Z.of_nat idx - half_window self) (Z.of_nat idx + half_window self).

(** Broadcasting a vector of length [X.shape[1]] against an item of shape
    [X.shape[1:]]: numpy aligns the vector with the item's last axis, so
    the two fit when that axis has the vector's length or the vector has
    length 1.  [broadcast_index] is the vector entry met at flat position
    [j] of the item. *)
Definition last_axis (X : ndarray) : nat := last (shape X) 0%nat.
Definition vector_size (X : ndarray) : nat := nth 1 (shape X) 0%nat.
Definition broadcastable (X : ndarray) : bool :=
  (vector_size X =? last_axis X)%nat || (vector_size X =? 1)%nat.
Definition broadcast_index (X : ndarray) (j : nat) : nat :=
  if (vector_size X =? 1)%nat then 0%nat else (j mod last_axis X)%nat.

(** [local_mean + sign * (3. * local_std + e)], entry by entry *)
Definition outlier_value (X : ndarray) (local_mean local_std : list float)
           (sign e : list R) : list float :=
  map (fun j =>
         let b := broadcast_index X j in
         fadd (nth j local_mean NaN)
              (fmul (Fin (nth b sign 0%R))
                    (fadd (fmul (Fin 3) (nth j local_std NaN))
                          (Fin (nth b e 0%R)))))
      (seq 0 (item_size X)).

Section Generate.
Context {G : Type} `{Generator G} {Y : Type}.

Local Open Scope monad_scope.

(** [RandomZerosGenerator.generate] *)
Definition RandomZeros_generate (self : RandomZerosGenerator)
           (X : ndarray) (y : Y)
  : M G (ndarray * Y * RandomZerosGenerator) :=
  if (ndim X <? 2)%nat then raise (ValueError expected_2d)
  else
    idxs <- choice_without_replacement (hd 0%nat (shape X)) (n_outliers self) ;;
    let self' := {| n_outliers := n_outliers self;
                    outliers_indices_ := idxs |} in
    X' <- foldM (fun X idx => fill X idx (Fin 0)) X idxs ;;
    ret (X', y, self').

(** the right-hand side of the assignment in the loop of
    [LocalZScoreGenerator.generate] *)
Definition LocalZScore_value (self : LocalZScoreGenerator)
           (X : ndarray) (idx : nat) : M G (list float) :=
  let window := local_window self X idx in
  let local_mean := mean_axis0 (item_size X) window in
  let local_std := std_axis0 (item_size X) window in
  sign <- random_sign (vector_size X) ;;
  e <- exponential (vector_size X) ;;
  if broadcastable X
  then ret (outlier_value X local_mean local_std sign e)
  else raise (ValueError "operands could not be broadcast together").

(** one round of that loop *)
Definition LocalZScore_step (self : LocalZScoreGenerator)
           (X : ndarray) (idx : nat) : M G ndarray :=
  value <- LocalZScore_value self X idx ;;
  setitem X idx value.

(** [LocalZScoreGenerator.generate] *)
Definition LocalZScore_generate (self : LocalZScoreGenerator)
           (X : ndarray) (y : Y)
  : M G (ndarray * Y * LocalZScoreGenerator) :=
  if (ndim X <? 2)%nat then raise (ValueError expected_2d)
  else
    idxs <- choice_without_replacement (hd 0%nat (shape X))
                                       (n_outliers (base self)) ;;
    let self' := {| base := {| n_outliers := n_outliers (base self);
                               outliers_indices_ := idxs |};
                    local_window_size := local_window_size self |} in
    X' <- foldM (LocalZScore_step self) X idxs ;;
    ret (X', y, self').
End Generate.

End time_series.

(* ------------------------------------------------------------------ *)
(** ** tabular_data/outliers.py *)

Module tabular_data.

(** A feature matrix: the list of its rows. *)
Definition matrix : Type := list (list R).

(** [X.shape[1]] *)
Definition ncols (X : matrix) : nat :=
  match X with
  | [] => 0%nat
  | row :: _ => length row
  end.

(** a rectangular matrix with at least one row and one column *)
Definition valid (X : matrix) : Prop :=
  X <> [] /\ (0 < ncols X)%nat /\ Forall (fun row => length row = ncols X) X.

Definition col (j : nat) (X : matrix) : list R := map (fun row => nth j row 0%R) X.

Definition Rsum (l : list R) : R := fold_right Rplus 0%R l.
Definition Rmean (l : list R) : R := (Rsum l / INR (length l))%R.
Definition Rvar (l : list R) : R :=
  Rmean (map (fun x => ((x - Rmean l) * (x - Rmean l))%R) l).

(** *** The standardization collaborator ([sklearn]'s StandardScaler)

    Not part of the repository.  It is modelled by its contract: [fit]
    learns a mean and a scale per column, a zero scale being replaced
    by 1; [transform] and [inverse_transform] apply [(x - mean) / scale]
    and [x * scale + mean] to every row.  The input validation of
    sklearn refuses an array with no row or no column with a
    ValueError, in [fit] as in [inverse_transform]; the guard that ends
    [LowDensitySamplingGenerator.generate] ("in the case no outliers
    could be generated") is there for that reason. *)
Record StandardScaler : Type := Build_StandardScaler {
  mean_ : list R;
  scale_ : list R
}.

Definition handle_zeros_in_scale (s : R) : R :=
  if Req_dec_T s 0 then 1%R else s.

Definition fit {G} (X : matrix) : M G StandardScaler :=
  match X with
  | [] => raise (ValueError "Found array with 0 sample(s)")
  | row :: _ =>
      if (length row =? 0)%nat
      then raise (ValueError "Found array with 0 feature(s)")
      else ret {| mean_ := map (fun j => Rmean (col j X)) (seq 0 (length row));
                  scale_ := map (fun j => handle_zeros_in_scale (sqrt (Rvar (col j X))))
                                (seq 0 (length row)) |}
  end.

Definition transform_row (sc : StandardScaler) (row : list R) : list R :=
  map (fun '(x, (m, s)) => ((x - m) / s)%R)
      (combine row (combine (mean_ sc) (scale_ sc))).

Definition inverse_transform_row (sc : StandardScaler) (row : list R) : list R :=
  map (fun '(x, (m, s)) => (x * s + m)%R)
      (combine row (combine (mean_ sc) (scale_ sc))).

Definition transform (sc : StandardScaler) (X : matrix) : matrix :=
  map (transform_row sc) X.

Definition inverse_transform {G} (sc : StandardScaler) (X : matrix) : M G matrix :=
  match X with
  | [] => raise (ValueError "Found array with 0 sample(s)")
  | _ => ret (map (inverse_transform_row sc) X)
  end.

(** *** The other collaborators

    [numpy.histogramdd], [numpy.percentile] and the kernel density
    estimator are external; they are parameters of the model.

    A histogram is the list of its cells in row-major order, each with
    its coordinates (one bin index per dimension) and its count,
    together with the bin edges of every dimension. *)
Definition histogram : Type := list (list nat * nat).

Class Toolkit : Type := {
  (** [np.histogramdd(Xt, density=False, bins=bins)] *)
  histogramdd : matrix -> nat -> histogram * list (list R);
  (** [KernelDensity(bandwidth="scott").fit(Xt).score_samples(x)] for
      one sample [x] *)
  score_samples : matrix -> list R -> R;
  (** [np.percentile(a, q)] *)
  percentile : list R -> R -> R
}.

(** A dimensionality-reduction transformer: [fit_transform] and, when
    the class has one, [inverse_transform], which depends on the data
    the transformer was fitted on. *)
Record Transformer : Type := Build_Transformer {
  dec_fit_transform : matrix -> result matrix;
  dec_inverse_transform : option (matrix -> matrix -> matrix)
}.

(** *** The generators *)

Inductive OutliersGenerator : Type :=
| ZScoreSamplingGenerator (percentage_outliers : Z)
| HypersphereSamplingGenerator (percentage_outliers : Z)
| HistogramSamplingGenerator (percentage_outliers : Z)
                             (threshold_low_density : R) (bins : nat)
| LowDensitySamplingGenerator (percentage_outliers : Z)
                              (density_estimator : option matrix)
| DecompositionAndOutlierGenerator (decomposition_transformer : Transformer)
                                   (outlier_generator : OutliersGenerator).

(** [self.percentage_outliers]; the wrapper takes its delegate's *)
Fixpoint percentage_outliers (self : OutliersGenerator) : Z :=
  match self with
  | ZScoreSamplingGenerator p => p
  | HypersphereSamplingGenerator p => p
  | HistogramSamplingGenerator p _ _ => p
  | LowDensitySamplingGenerator p _ => p
  | DecompositionAndOutlierGenerator _ g => percentage_outliers g
  end.

(** [assert 0 <= percentage_outliers <= 100] of [OutliersGenerator.__init__] *)
Definition assert_percentage (p : Z) : bool := ((0 <=? p) && (p <=? 100))%Z.

Definition ZScoreSamplingGenerator_init (p : Z) : result OutliersGenerator :=
  if assert_percentage p then Ok (ZScoreSamplingGenerator p)
  else Raise (AssertionError "").

Definition HypersphereSamplingGenerator_init (p : Z) : result OutliersGenerator :=
  if assert_percentage p then Ok (HypersphereSamplingGenerator p)
  else Raise (AssertionError "").

Definition HistogramSamplingGenerator_init (p : Z) (threshold : R) (bins : nat)
  : result OutliersGenerator :=
  if Rlt_dec 0 threshold then
    if Rlt_dec threshold 1 then
      if assert_percentage p then Ok (HistogramSamplingGenerator p threshold bins)
      else Raise (AssertionError "")
    else Raise (AssertionError "")
  else Raise (AssertionError "").

Definition LowDensitySamplingGenerator_init (p : Z) : result OutliersGenerator :=
  if assert_percentage p then Ok (LowDensitySamplingGenerator p None)
  else Raise (AssertionError "").

Definition DecompositionAndOutlierGenerator_init
           (dec : Transformer) (g : OutliersGenerator) : result OutliersGenerator :=
  match dec_inverse_transform dec with
  | None => Raise (AssertionError
      "the decomposition transformer class must implement the inverse_transform function.")
  | Some _ =>
      if assert_percentage (percentage_outliers g)
      then Ok (DecompositionAndOutlierGenerator dec g)
      else Raise (AssertionError "")
  end.

(** what the constructors guarantee of the objects they build *)
Fixpoint configured (self : OutliersGenerator) : Prop :=
  match self with
  | ZScoreSamplingGenerator p => (0 <= p <= 100)%Z
  | HypersphereSamplingGenerator p => (0 <= p <= 100)%Z
  | HistogramSamplingGenerator p t _ => (0 <= p <= 100)%Z /\ (0 < t < 1)%R
  | LowDensitySamplingGenerator p _ => (0 <= p <= 100)%Z
  | DecompositionAndOutlierGenerator dec g =>
      dec_inverse_transform dec <> None /\ configured g
  end.

(** a [LowDensitySamplingGenerator], alone or behind wrappers *)
Fixpoint delegates_to_low_density (self : OutliersGenerator) : bool :=
  match self with
  | LowDensitySamplingGenerator _ _ => true
  | DecompositionAndOutlierGenerator _ g => delegates_to_low_density g
  | _ => false
  end.

(** the contract of a dimensionality reduction: one output row per
    input row, in both directions *)
Definition keeps_rows (dec : Transformer) : Prop :=
  (forall X Xt, dec_fit_transform dec X = Ok Xt -> length Xt = length X) /\
  (forall inv Xf Xo, dec_inverse_transform dec = Some inv ->
                     length (inv Xf Xo) = length Xo).

Fixpoint transformers_keep_rows (self : OutliersGenerator) : Prop :=
  match self with
  | DecompositionAndOutlierGenerator dec g =>
      keeps_rows dec /\ transformers_keep_rows g
  | _ => True
  end.

(** [int(Xt.shape[0] * self.percentage_outliers / 100)]: [int] truncates
    towards zero, and [range] of a negative count is empty *)
Definition n_outliers (n : nat) (p : Z) : nat :=
  Z.to_nat (Z.quot (Z.of_nat n * p) 100).

(** the Euclidean norm of a vector *)
Definition sum_of_squares (v : list R) : R :=
  fold_right (fun x acc => (x * x + acc)%R) 0%R v.
Definition l2_norm (v : list R) : R := sqrt (sum_of_squares v).

(** two generator objects that differ at most in what earlier calls left
    behind (the fitted density estimator) *)
Fixpoint same_configuration (a b : OutliersGenerator) : Prop :=
  match a, b with
  | ZScoreSamplingGenerator p, ZScoreSamplingGenerator q => p = q
  | HypersphereSamplingGenerator p, HypersphereSamplingGenerator q => p = q
  | HistogramSamplingGenerator p t n, HistogramSamplingGenerator q u m =>
      p = q /\ t = u /\ n = m
  | LowDensitySamplingGenerator p _, LowDensitySamplingGenerator q _ => p = q
  | DecompositionAndOutlierGenerator d g, DecompositionAndOutlierGenerator e h =>
      d = e /\ same_configuration g h
  | _, _ => False
  end.

(** [np.array(["outliers"] * n)] *)
Definition outlier_labels (n : nat) : list string := repeat "outliers"%string n.

(** [**params]: the keyword arguments of a call *)
Definition params : Type := list (string * nat).

Fixpoint params_get (key : string) (ps : params) : option nat :=
  match ps with
  | [] => None
  | (k, v) :: ps' => if String.eqb k key then Some v else params_get key ps'
  end.

(** *** HistogramSamplingGenerator: the histogram steps *)

Definition count_max (hist : histogram) : nat :=
  fold_right (fun c acc => Nat.max (snd c) acc) 0%nat hist.
Definition count_min (hist : histogram) : nat :=
  match hist with
  | [] => 0%nat
  | c :: hist' => fold_right (fun c acc => Nat.min (snd c) acc) (snd c) hist'
  end.

(** [hist / (np.max(hist) - np.min(hist))] for one count.  When all
    counts are equal the divisor is zero and numpy yields inf or NaN,
    here [None]: such a value is below no threshold. *)
Definition normalize (hist : histogram) (count : nat) : option R :=
  if (count_max hist =? count_min hist)%nat then None
  else Some (INR count / (INR (count_max hist) - INR (count_min hist)))%R.

(** min-max scaling, as the spec words the step:
    [(count - min_count) / (max_count - min_count)] *)
Definition min_max_scaling (hist : histogram) (count : nat) : R :=
  ((INR count - INR (count_min hist))
   / (INR (count_max hist) - INR (count_min hist)))%R.

Definition norm_hist (hist : histogram) : list (list nat * option R) :=
  map (fun c => (fst c, normalize hist (snd c))) hist.

Definition is_low_density (threshold : R) (v : option R) : bool :=
  match v with
  | Some x => if Rle_dec x threshold then true else false
  | None => false
  end.

(** [list(zip( *np.where(norm_hist <= threshold)))] *)
Definition hist_coords_low_density (hist : histogram) (threshold : R)
  : list (list nat) :=
  map fst (filter (fun c => is_low_density threshold (snd c)) (norm_hist hist)).

(** [enumerate(h)] *)
Definition enumerate {A} (l : list A) : list (nat * A) :=
  combine (seq 0 (length l)) l.

(** [np.min(Xt, axis=0)] and [np.max(Xt, axis=0)] *)
Definition Rminimum (l : list R) : R :=
  match l with [] => 0%R | x :: l' => fold_right Rmin x l' end.
Definition Rmaximum (l : list R) : R :=
  match l with [] => 0%R | x :: l' => fold_right Rmax x l' end.
Definition min_axis0 (X : matrix) : list R :=
  map (fun j => Rminimum (col j X)) (seq 0 (ncols X)).
Definition max_axis0 (X : matrix) : list R :=
  map (fun j => Rmaximum (col j X)) (seq 0 (ncols X)).

Definition string_of_nat (n : nat) : string :=
  DecimalString.NilZero.string_of_uint (Nat.to_uint n).

Section Generate.
Context {G : Type} `{Generator G} `{Toolkit}.

Local Open Scope monad_scope.

(** [ZScoreSamplingGenerator.generate] *)
Definition ZScoreSampling_generate (p : Z) (X : matrix) : M G (matrix * list string) :=
  scaler <- fit X ;;
  let Xt := transform scaler X in
  let n := n_outliers (length Xt) p in
  outliers <- replicateM n
    (sign <- random_sign (ncols Xt) ;;
     e <- exponential (ncols Xt) ;;
     ret (map (fun '(s, x) => (s * (3 + x))%R) (combine sign e))) ;;
  let yt := outlier_labels (length outliers) in
  Xo <- inverse_transform scaler outliers ;;
  ret (Xo, yt).

(** [HypersphereSamplingGenerator.generate] *)
Definition HypersphereSampling_generate (p : Z) (X : matrix)
  : M G (matrix * list string) :=
  scaler <- fit X ;;
  let Xt := transform scaler X in
  let n := n_outliers (length Xt) p in
  outliers <- replicateM n
    (e <- exponential1 ;;
     random_spherical_coordinate (ncols Xt) (3 + e)%R) ;;
  let yt := outlier_labels (length outliers) in
  Xo <- inverse_transform scaler outliers ;;
  ret (Xo, yt).

(** [HistogramSamplingGenerator.generate] *)
Definition HistogramSampling_generate (p : Z) (threshold : R) (bins : nat)
           (X : matrix) : M G (matrix * list string) :=
  if (5 <? ncols X)%nat
  then raise (NotImplementedError
    "So far this generator only supports tabular X with at most 5 columns")
  else
    scaler <- fit X ;;
    let Xt := transform scaler X in
    let n := n_outliers (length Xt) p in
    let '(hist, edges) := histogramdd Xt bins in
    let low := hist_coords_low_density hist threshold in
    hist_coords_random <- choice_with_replacement low n ;;
    outliers <- mapM (fun h_coords =>
                   mapM (fun '(i, c) =>
                           uniform (nth c (nth i edges []) 0%R)
                                   (nth (S c) (nth i edges []) 0%R))
                        (enumerate h_coords))
                hist_coords_random ;;
    let yt := outlier_labels (length outliers) in
    Xo <- inverse_transform scaler outliers ;;
    ret (Xo, yt).

(** [LowDensitySamplingGenerator.generate]; the second component of the
    result is the refitted [self.density_estimator] *)
Definition LowDensitySampling_generate (p : Z) (X : matrix) (ps : params)
  : M G (matrix * list string * option matrix) :=
  scaler <- fit X ;;
  let Xt := transform scaler X in
  let density_estimator := Some Xt in
  let low_density_threshold :=
    percentile (map (score_samples Xt) Xt) (1 / 10)%R in
  let n := n_outliers (length Xt) p in
  let max_samples :=
    match params_get "max_samples" ps with
    | Some m => m
    | None => (n * 100)%nat
    end in
  candidates <- replicateM max_samples
    (mapM (fun '(low, high) => uniform low high)
          (combine (min_axis0 Xt) (max_axis0 Xt))) ;;
  let accepted :=
    filter (fun x => if Rle_dec (score_samples Xt x) low_density_threshold
                     then true else false) candidates in
  outliers <-
    (if (length accepted <? n)%nat
     then
       _ <- warn ("LowDensitySamplingGenerator could not generate all "
                    ++ string_of_nat n ++ " outliers. It only generated "
                    ++ string_of_nat (length accepted) ++ ".")%string ;;
       ret accepted
     else ret (firstn n accepted)) ;;
  let yt := outlier_labels (length outliers) in
  if (length outliers =? 0)%nat
  then ret (outliers, yt, density_estimator)
  else
    Xo <- inverse_transform scaler outliers ;;
    ret (Xo, yt, density_estimator).

(** [generate] of every tabular strategy.  The result carries the
    object after the call ([LowDensitySamplingGenerator] refits its
    density estimator).  [DecompositionAndOutlierGenerator] builds the
    pipeline scaler + transformer, lets its delegate generate in the
    reduced space and inverts the pipeline. *)
Fixpoint generate (self : OutliersGenerator) (X : matrix)
         (y : option (list string)) (ps : params)
  : M G (matrix * list string * OutliersGenerator) :=
  match self with
  | ZScoreSamplingGenerator p =>
      '(Xo, yt) <- ZScoreSampling_generate p X ;; ret (Xo, yt, self)
  | HypersphereSamplingGenerator p =>
      '(Xo, yt) <- HypersphereSampling_generate p X ;; ret (Xo, yt, self)
  | HistogramSamplingGenerator p t b =>
      '(Xo, yt) <- HistogramSampling_generate p t b X ;; ret (Xo, yt, self)
  | LowDensitySamplingGenerator p _ =>
      '(Xo, yt, de) <- LowDensitySampling_generate p X ps ;;
      ret (Xo, yt, LowDensitySamplingGenerator p de)
  | DecompositionAndOutlierGenerator dec g =>
      scaler <- fit X ;;
      match dec_fit_transform dec (transform scaler X) with
      | Raise e => raise e
      | Ok Xt =>
          '(Xo, yt, g') <- generate g Xt y [] ;;
          match dec_inverse_transform dec with
          | None => raise (AttributeError "inverse_transform")
          | Some inv =>
              Xo' <- inverse_transform scaler (inv (transform scaler X) Xo) ;;
              ret (Xo', yt, DecompositionAndOutlierGenerator dec g')
          end
      end
  end.
End Generate.

End tabular_data.

(** Stand-ins for the external collaborators, used to run the tabular
    generators on concrete inputs: a histogram with equal-width bins
    between the minimum and the maximum of every column (numpy widens a
    column of equal values by 0.5 on both sides; the last bin is closed
    on the right), the log-density of a standard Gaussian up to an
    additive constant in place of the kernel density estimate, and the
    minimum in place of a low percentile. *)
Module Toy.
Import tabular_data.

Definition linspace (lo hi : R) (bins : nat) : list R :=
  map (fun k => (lo + (hi - lo) * INR k / INR bins)%R) (seq 0 (S bins)).

Definition edges_of (column : list R) (bins : nat) : list R :=
  let lo := Rminimum column in
  let hi := Rmaximum column in
  if Req_dec_T lo hi then linspace (lo - 1 / 2) (hi + 1 / 2) bins
  else linspace lo hi bins.

(** the bin of [x]: the number of inner edges at or below it *)
Definition bin_of (edges : list R) (x : R) : nat :=
  length (filter (fun e => if Rle_dec e x then true else false)
                 (removelast (tl edges))).

Fixpoint cells (d bins : nat) : list (list nat) :=
  match d with
  | O => [[]]
  | S d' => flat_map (fun c => map (cons c) (cells d' bins)) (seq 0 bins)
  end.

Definition histogramdd (Xt : matrix) (bins : nat) : histogram * list (list R) :=
  let edges := map (fun j => edges_of (col j Xt) bins) (seq 0 (ncols Xt)) in
  let coords row := map (fun '(e, x) => bin_of e x) (combine edges row) in
  (map (fun cell =>
          (cell,
           length (filter (fun row =>
                             if list_eq_dec Nat.eq_dec (coords row) cell
                             then true else false) Xt)))
       (cells (ncols Xt) bins),
   edges).

Definition score_samples (Xt : matrix) (x : list R) : R :=
  (- Rsum (map (fun v => v * v) x) / 2)%R.

Definition percentile (a : list R) (q : R) : R := Rminimum a.

#[global] Instance toy : Toolkit := {
  tabular_data.histogramdd := histogramdd;
  tabular_data.score_samples := score_samples;
  tabular_data.percentile := percentile
}.

(** a transformer that reduces nothing *)
Definition identity : Transformer :=
  {| dec_fit_transform := fun X => Ok X;
     dec_inverse_transform := Some (fun _ Xo => Xo) |}.
End Toy.

(* ------------------------------------------------------------------ *)
(** ** Objects and references

    A generator object holds its random source by reference
    ([self.random_generator = random_generator]); the time-series
    strategies write into the array they are given.  The objects of a
    run are kept in a heap: the random sources, the arrays, and the
    warnings emitted so far. *)

Module objects.

Definition ref : Type := nat.

Record heap (G : Type) : Type := Heap {
  sources : list G;
  arrays : list time_series.ndarray;
  emitted : list string
}.

Arguments Heap {G} sources arrays emitted.
Arguments sources {G} h.
Arguments arrays {G} h.
Arguments emitted {G} h.

(** a tabular generator object: the source it refers to and its other
    attributes *)
Record tabular_generator : Type := Build_tabular_generator {
  random_generator : ref;
  attributes : tabular_data.OutliersGenerator
}.

Section Calls.
Context {G : Type} `{Generator G} `{tabular_data.Toolkit} {Y : Type}.

(** [default_rng(seed)]: a new source object *)
Definition new_source (seed : Z) (h : heap G) : ref * heap G :=
  (length (sources h),
   Heap (sources h ++ [default_rng seed]) (arrays h) (emitted h)).

(** a new array object holding [X] *)
Definition new_array (X : time_series.ndarray) (h : heap G) : ref * heap G :=
  (length (arrays h), Heap (sources h) (arrays h ++ [X]) (emitted h)).

(** a method run on the source the object refers to: the draws advance
    that source, the warnings go to the log *)
Definition on_source {A} (r : ref) (m : M G A) (h : heap G) : result (A * heap G) :=
  match nth_error (sources h) r with
  | None => Raise (AttributeError "random_generator")
  | Some g =>
      match m (World g (emitted h)) with
      | Ok (a, w') =>
          Ok (a, Heap (set_nth r (rng w') (sources h)) (arrays h) (warned w'))
      | Raise e => Raise e
      end
  end.

(** [self.generate(X, y, **params)] of a tabular generator object *)
Definition tabular_generate (self : tabular_generator) (X : tabular_data.matrix)
           (y : option (list string)) (ps : tabular_data.params) (h : heap G)
  : result (tabular_data.matrix * list string * tabular_data.OutliersGenerator * heap G) :=
  on_source (random_generator self)
            (tabular_data.generate (attributes self) X y ps) h.

(** a method of a time-series generator run on the array object [a]: the
    array is read, written in place, and returned *)
Definition in_place {S} (r : ref)
           (m : time_series.ndarray -> M G (time_series.ndarray * Y * S))
           (a : ref) (h : heap G) : result (ref * Y * S * heap G) :=
  match nth_error (arrays h) a with
  | None => Raise (IndexError "array")
  | Some X =>
      match on_source r (m X) h with
      | Ok (X', y', self', h') =>
          Ok (a, y', self',
              Heap (sources h') (set_nth a X' (arrays h')) (emitted h'))
      | Raise e => Raise e
      end
  end.

(** [self.generate(X, y)] of a [RandomZerosGenerator] whose source is [r] *)
Definition RandomZeros_call (r : ref) (self : time_series.RandomZerosGenerator)
           (a : ref) (y : Y) (h : heap G) :=
  in_place r (fun X => time_series.RandomZeros_generate self X y) a h.

(** [self.generate(X, y)] of a [LocalZScoreGenerator] whose source is [r] *)
Definition LocalZScore_call (r : ref) (self : time_series.LocalZScoreGenerator)
           (a : ref) (y : Y) (h : heap G) :=
  in_place r (fun X => time_series.LocalZScore_generate self X y) a h.
End Calls.

End objects.

(* ------------------------------------------------------------------ *)
(** * Facts *)

(** ** Lists, slices *)

Lemma set_nth_length {A} (i : nat) (v : A) (l : list A) :
  length (set_nth i v l) = length l.
Proof.
  revert i; induction l as [|x l IH]; intros [|i]; simpl; auto.
Qed.

Lemma set_nth_same {A} (i : nat) (v : A) (l : list A) :
  (i < length l)%nat -> nth_error (set_nth i v l) i = Some v.
Proof.
  revert i; induction l as [|x l IH]; intros [|i] Hi; simpl in *; try lia; auto.
  apply IH; lia.
Qed.

Lemma set_nth_other {A} (i j : nat) (v : A) (l : list A) :
  i <> j -> nth_error (set_nth i v l) j = nth_error l j.
Proof.
  revert i j; induction l as [|x l IH]; intros [|i] [|j] Hij; simpl;
    try congruence; auto.
Qed.

Lemma nth_eq_of_nth_error {A} (l l' : list A) (i : nat) (d : A) :
  nth_error l i = nth_error l' i -> nth i l d = nth i l' d.
Proof.
  intros E; rewrite <- !nth_default_eq; unfold nth_default; rewrite E; reflexivity.
Qed.

Lemma slice_map {A B} (f : A -> B) (l : list A) (lo hi : Z) :
  slice (map f l) lo hi = map f (slice l lo hi).
Proof.
  unfold slice; rewrite length_map, skipn_map, firstn_map; reflexivity.
Qed.

(** A slice whose lower bound is negative starts that many places before
    the end of the list (or at the start when the list is shorter). *)
Lemma slice_negative_lower {A} (l : list A) (lo hi : Z) :
  (lo < 0)%Z -> (0 <= hi)%Z ->
  let n := Z.of_nat (length l) in
  slice l lo hi =
  firstn (Z.to_nat (Z.min hi n - Z.max 0 (lo + n)))
         (skipn (Z.to_nat (Z.max 0 (lo + n))) l).
Proof.
  intros Hlo Hhi n; unfold slice, slice_bound; fold n.
  destruct (Z.ltb_spec lo 0); [|lia].
  destruct (Z.ltb_spec hi 0); [lia|]; reflexivity.
Qed.

Lemma slice_empty {A} (l : list A) (lo hi : Z) :
  (slice_bound (Z.of_nat (length l)) hi <= slice_bound (Z.of_nat (length l)) lo)%Z ->
  slice l lo hi = [].
Proof.
  intros Hb; unfold slice.
  replace (Z.to_nat _) with 0%nat by lia; reflexivity.
Qed.

(** ** The monad *)

Lemma bind_ok {G A B} (m : M G A) (k : A -> M G B) w a w' :
  m w = Ok (a, w') -> bind m k w = k a w'.
Proof. intros E; unfold bind; rewrite E; reflexivity. Qed.

Lemma bind_inv {G A B} (m : M G A) (k : A -> M G B) w r :
  bind m k w = Ok r -> exists a w', m w = Ok (a, w') /\ k a w' = Ok r.
Proof.
  unfold bind; destruct (m w) as [[a w']|e]; [eauto | discriminate].
Qed.

Lemma choice_without_replacement_ok {G} `{Generator G} (pop k : nat) :
  (k <= pop)%nat ->
  choice_without_replacement pop k = draw (rng_sample pop k).
Proof.
  intros Hk; unfold choice_without_replacement.
  destruct (Nat.eqb_spec pop 0), (Nat.eqb_spec k 0), (Nat.ltb_spec pop k);
    simpl; try reflexivity; lia.
Qed.

Lemma foldM_app {G A S} (f : S -> A -> M G S) (s : S) (xs ys : list A) (w : world G) :
  foldM f s (xs ++ ys) w =
  match foldM f s xs w with
  | Ok (s', w') => foldM f s' ys w'
  | Raise e => Raise e
  end.
Proof.
  revert s w; induction xs as [|x xs IH]; intros s w; simpl; [reflexivity|].
  unfold bind; destruct (f s x w) as [[s1 w1]|e]; [apply IH | reflexivity].
Qed.

(** what a computation raises, when it raises *)
Definition raises_only {A} (P : exn -> Prop) (r : result A) : Prop :=
  match r with
  | Ok _ => True
  | Raise e => P e
  end.

Lemma raises_only_bind {G A B} (P : exn -> Prop) (m : M G A) (k : A -> M G B) w :
  raises_only P (m w) ->
  (forall a w', m w = Ok (a, w') -> raises_only P (k a w')) ->
  raises_only P (bind m k w).
Proof.
  intros Hm Hk; unfold bind; destruct (m w) as [[a w']|e]; [apply Hk; reflexivity | exact Hm].
Qed.

Lemma raises_only_foldM {G A S} (P : exn -> Prop) (f : S -> A -> M G S) xs :
  (forall s x w, raises_only P (f s x w)) ->
  forall s w, raises_only P (foldM f s xs w).
Proof.
  intros Hf; induction xs as [|x xs IH]; intros s w; simpl; [exact I|].
  apply raises_only_bind; [apply Hf | intros; apply IH].
Qed.

Lemma raises_only_draw {G A} (P : exn -> Prop) (f : G -> A * G) w :
  raises_only P (draw f w).
Proof. unfold draw; destruct (f (rng w)); exact I. Qed.

(* ------------------------------------------------------------------ *)
(** ** Time series: the shape check *)

Section ShapeCheck.
Import time_series.
Context {G : Type} `{Generator G}.
Variable Y : Type.

Definition other_error (e : exn) : Prop := e <> ValueError expected_2d.

Lemma choice_without_replacement_other pop k (w : world G) :
  raises_only other_error (choice_without_replacement pop k w).
Proof.
  unfold choice_without_replacement.
  destruct (_ && _)%bool; [simpl; unfold other_error, expected_2d; discriminate|].
  destruct (pop <? k)%nat; [|apply raises_only_draw].
  simpl; unfold other_error, expected_2d; discriminate.
Qed.

Lemma setitem_other X idx v (w : world G) :
  raises_only other_error (setitem X idx v w).
Proof.
  unfold setitem; destruct (idx <? _)%nat; simpl; [exact I|].
  unfold other_error; discriminate.
Qed.

Lemma LocalZScore_step_other self X idx (w : world G) :
  raises_only other_error (LocalZScore_step self X idx w).
Proof.
  unfold LocalZScore_step, LocalZScore_value.
  apply raises_only_bind; [|intros; apply setitem_other].
  apply raises_only_bind; [apply raises_only_draw|intros sign w1 _].
  apply raises_only_bind; [apply raises_only_draw|intros e w2 _].
  destruct (broadcastable X); simpl; [exact I|].
  unfold other_error, expected_2d; discriminate.
Qed.

Lemma RandomZeros_generate_other self X (y : Y) (w : world G) :
  (2 <= ndim X)%nat ->
  raises_only other_error (RandomZeros_generate self X y w).
Proof.
  intros Hd; unfold RandomZeros_generate.
  destruct (Nat.ltb_spec (ndim X) 2); [lia|].
  apply raises_only_bind; [apply choice_without_replacement_other|intros idxs w1 _].
  apply raises_only_bind; [|intros; exact I].
  apply raises_only_foldM; intros; apply setitem_other.
Qed.

Lemma LocalZScore_generate_other self X (y : Y) (w : world G) :
  (2 <= ndim X)%nat ->
  raises_only other_error (LocalZScore_generate self X y w).
Proof.
  intros Hd; unfold LocalZScore_generate.
  destruct (Nat.ltb_spec (ndim X) 2); [lia|].
  apply raises_only_bind; [apply choice_without_replacement_other|intros idxs w1 _].
  apply raises_only_bind; [|intros; exact I].
  apply raises_only_foldM; intros; apply LocalZScore_step_other.
Qed.

(** C5, as the code has it: each time-series strategy raises the
    "Expected 2D array" ValueError exactly when the input has fewer than
    two dimensions; an input of three or more dimensions passes the
    check. *)
Theorem shape_error_iff_fewer_than_2_dims
        (rz : RandomZerosGenerator) (lz : LocalZScoreGenerator)
        (X : ndarray) (y : Y) (w : world G) :
  (RandomZeros_generate rz X y w = Raise (ValueError expected_2d)
     <-> (ndim X < 2)%nat) /\
  (LocalZScore_generate lz X y w = Raise (ValueError expected_2d)
     <-> (ndim X < 2)%nat).
Proof.
  split; split.
  - intros E. destruct (Nat.lt_ge_cases (ndim X) 2) as [|Hge]; [assumption|].
    pose proof (RandomZeros_generate_other rz X y w Hge) as Ho.
    rewrite E in Ho; simpl in Ho; exfalso; apply Ho; reflexivity.
  - intros Hlt; unfold RandomZeros_generate.
    destruct (Nat.ltb_spec (ndim X) 2); [reflexivity | lia].
  - intros E. destruct (Nat.lt_ge_cases (ndim X) 2) as [|Hge]; [assumption|].
    pose proof (LocalZScore_generate_other lz X y w Hge) as Ho.
    rewrite E in Ho; simpl in Ho; exfalso; apply Ho; reflexivity.
  - intros Hlt; unfold LocalZScore_generate.
    destruct (Nat.ltb_spec (ndim X) 2); [reflexivity | lia].
Qed.
End ShapeCheck.

(** A 3-D array of shape (2, 1, 1). *)
Definition cube : time_series.ndarray :=
  time_series.Array [2; 1; 1]%nat [[Fin 1]; [Fin 2]].

(** C5, as stated, fails: on a 3-D array [RandomZerosGenerator.generate]
    raises nothing; it zeroes the chosen item and returns. *)
Lemma shape_error_not_raised_on_3d :
  time_series.ndim cube <> 2%nat /\
  time_series.RandomZeros_generate
    (time_series.OutliersGenerator_init 1) cube tt (World 0%nat [])
  = Ok (time_series.Array [2; 1; 1]%nat [[Fin 0]; [Fin 2]], tt,
        time_series.Build_OutliersGenerator 1 [0%nat],
        World 1%nat []).
Proof. split; [discriminate | reflexivity]. Qed.

(* ------------------------------------------------------------------ *)
(** ** Time series: RandomZerosGenerator *)

Section RandomZeros.
Import time_series.
Context {G : Type} `{Generator G}.
Variable Y : Type.

Lemma setitem_ok X idx v (w : world G) :
  (idx < length (items X))%nat ->
  setitem X idx v w = Ok (Array (shape X) (set_nth idx v (items X)), w).
Proof.
  intros Hi; unfold setitem.
  destruct (Nat.ltb_spec idx (length (items X))); [reflexivity | lia].
Qed.

Definition zeros_like (row : list float) : list float := map (fun _ => Fin 0) row.

Lemma zeros_like_idem row : zeros_like (zeros_like row) = zeros_like row.
Proof. unfold zeros_like; rewrite map_map; reflexivity. Qed.

(** the loop [for idx in self.outliers_indices_: X[idx, :] = 0] *)
Lemma zero_loop idxs : forall X (w : world G),
  Forall (fun i => (i < length (items X))%nat) idxs ->
  exists X',
    foldM (fun X idx => fill X idx (Fin 0)) X idxs w = Ok (X', w) /\
    shape X' = shape X /\
    length (items X') = length (items X) /\
    (forall i, In i idxs ->
               nth_error (items X') i = Some (zeros_like (nth i (items X) []))) /\
    (forall i, ~ In i idxs -> nth_error (items X') i = nth_error (items X) i).
Proof.
  induction idxs as [|idx idxs IH]; intros X w Hr; simpl.
  - exists X; repeat split; auto. intros i [].
  - inversion Hr as [|? ? Hidx Hrest]; subst.
    unfold bind, fill; rewrite setitem_ok by assumption.
    set (X1 := Array (shape X) (set_nth idx _ (items X))).
    assert (L1 : length (items X1) = length (items X))
      by (unfold X1; simpl; apply set_nth_length).
    destruct (IH X1 w) as (X' & E & Hs & Hl & Hin & Hout).
    { rewrite L1; assumption. }
    exists X'; repeat split.
    + exact E.
    + rewrite Hs; reflexivity.
    + rewrite Hl; exact L1.
    + intros i Hi.
      destruct (in_dec Nat.eq_dec i idxs) as [Hii|Hni].
      * rewrite (Hin i Hii); f_equal.
        destruct (Nat.eq_dec idx i) as [->|Hne].
        -- unfold X1; simpl.
           rewrite (nth_error_nth _ _ _ (set_nth_same _ _ _ Hidx)).
           apply zeros_like_idem.
        -- unfold X1; simpl; f_equal.
           apply nth_eq_of_nth_error, set_nth_other; assumption.
      * destruct Hi as [->|Hi]; [|contradiction].
        rewrite (Hout i Hni); unfold X1; simpl.
        apply set_nth_same; assumption.
    + intros i Hi.
      rewrite Hout by (intros Hc; apply Hi; right; exact Hc).
      unfold X1; simpl; apply set_nth_other.
      intros ->; apply Hi; left; reflexivity.
Qed.

Lemma shape0_rows X :
  (1 <= ndim X)%nat -> well_formed X -> hd 0%nat (shape X) = length (items X).
Proof.
  unfold ndim, well_formed; intros Hd [Hl _].
  destruct (shape X); simpl in *; [lia | congruence].
Qed.

(** C3: on a 2-D array with at least [n_outliers] rows,
    [RandomZerosGenerator.generate] returns; it has selected
    [n_outliers] distinct row indices and recorded them in
    [outliers_indices_]; every row at a recorded index is the zero
    vector, every other row is the input's, and [y] is returned as it
    came. *)
Theorem RandomZeros_generate_zeroes_selected_rows
        (self : RandomZerosGenerator) (X : ndarray) (y : Y) (w : world G) :
  ndim X = 2%nat -> well_formed X ->
  (n_outliers self <= length (items X))%nat ->
  exists X' self' w',
    RandomZeros_generate self X y w = Ok (X', y, self', w') /\
    length (outliers_indices_ self') = n_outliers self /\
    NoDup (outliers_indices_ self') /\
    shape X' = shape X /\
    length (items X') = length (items X) /\
    (forall i, In i (outliers_indices_ self') ->
       (i < length (items X))%nat /\
       nth_error (items X') i = Some (repeat (Fin 0) (item_size X))) /\
    (forall i, ~ In i (outliers_indices_ self') ->
       nth_error (items X') i = nth_error (items X) i).
Proof.
  intros Hd Hwf Hn.
  unfold RandomZeros_generate.
  destruct (Nat.ltb_spec (ndim X) 2) as [|_]; [lia|].
  rewrite shape0_rows by (assumption || lia).
  rewrite choice_without_replacement_ok by exact Hn.
  unfold bind at 1, draw.
  pose proof (rng_sample_length (length (items X)) (n_outliers self) (rng w) Hn) as Hlen.
  pose proof (rng_sample_range (length (items X)) (n_outliers self) (rng w) Hn) as Hrange.
  pose proof (rng_sample_NoDup (length (items X)) (n_outliers self) (rng w) Hn) as Hnd.
  destruct (rng_sample (length (items X)) (n_outliers self) (rng w)) as [idxs g'].
  simpl in Hlen, Hrange, Hnd.
  destruct (zero_loop idxs X (World g' (warned w)) Hrange)
    as (X' & E & Hs & Hl & Hin & Hout).
  unfold bind; rewrite E; simpl.
  exists X', {| n_outliers := n_outliers self; outliers_indices_ := idxs |},
         (World g' (warned w)).
  simpl; repeat split; auto.
  - rewrite Forall_forall in Hrange; apply Hrange; assumption.
  - rewrite (Hin i) by assumption; f_equal.
    unfold zeros_like; rewrite map_const; f_equal.
    destruct Hwf as [_ Hrows]; rewrite Forall_forall in Hrows.
    apply Hrows, nth_In.
    rewrite Forall_forall in Hrange; apply Hrange; assumption.
Qed.
End RandomZeros.

(** The theorem at work: three rows of two features, two outliers. *)
Definition three_rows : time_series.ndarray :=
  time_series.Array [3; 2]%nat [[Fin 1; Fin 2]; [Fin 3; Fin 4]; [Fin 5; Fin 6]].

Lemma RandomZeros_generate_zeroes_selected_rows_witness :
  exists X' self' w',
    time_series.RandomZeros_generate
      (time_series.OutliersGenerator_init 2) three_rows tt (World 0%nat [])
    = Ok (X', tt, self', w') /\
    length (time_series.outliers_indices_ self') = 2%nat /\
    NoDup (time_series.outliers_indices_ self') /\
    time_series.shape X' = [3; 2]%nat /\
    length (time_series.items X') = 3%nat /\
    (forall i, In i (time_series.outliers_indices_ self') ->
       (i < 3)%nat /\
       nth_error (time_series.items X') i = Some (repeat (Fin 0) 2)) /\
    (forall i, ~ In i (time_series.outliers_indices_ self') ->
       nth_error (time_series.items X') i = nth_error (time_series.items three_rows) i).
Proof.
  apply (RandomZeros_generate_zeroes_selected_rows
           unit (time_series.OutliersGenerator_init 2) three_rows tt (World 0%nat [])).
  - reflexivity.
  - split; [reflexivity | repeat constructor].
  - simpl; lia.
Defined.

(* ------------------------------------------------------------------ *)
(** ** Time series: LocalZScoreGenerator *)

Section LocalZScore.
Import time_series.
Context {G : Type} `{Generator G}.
Variable Y : Type.

Lemma two_dims X :
  ndim X = 2%nat -> exists a b, shape X = [a; b].
Proof.
  unfold ndim; destruct (shape X) as [|a [|b [|c s]]]; try discriminate; eauto.
Qed.

Lemma two_dims_sizes X :
  ndim X = 2%nat ->
  vector_size X = item_size X /\ last_axis X = item_size X.
Proof.
  intros Hd; destruct (two_dims X Hd) as (a & b & E).
  unfold vector_size, last_axis, item_size; rewrite E; simpl; lia.
Qed.

Lemma two_dims_broadcastable X : ndim X = 2%nat -> broadcastable X = true.
Proof.
  intros Hd; destruct (two_dims_sizes X Hd) as [Ev El].
  unfold broadcastable; rewrite Ev, El, Nat.eqb_refl; reflexivity.
Qed.

Lemma two_dims_broadcast_index X j :
  ndim X = 2%nat -> (j < item_size X)%nat ->
  (broadcast_index X j < vector_size X)%nat.
Proof.
  intros Hd Hj; destruct (two_dims_sizes X Hd) as [Ev El].
  unfold broadcast_index; rewrite Ev, El.
  destruct (Nat.eqb_spec (item_size X) 1); [lia|].
  apply Nat.mod_upper_bound; lia.
Qed.

Lemma mean_axis0_empty m : mean_axis0 m [] = repeat NaN m.
Proof.
  unfold mean_axis0; simpl.
  rewrite <- (length_seq m 0) at 2; apply map_const.
Qed.

Lemma std_axis0_empty m : std_axis0 m [] = repeat NaN m.
Proof.
  unfold std_axis0; simpl.
  rewrite <- (length_seq m 0) at 2; apply map_const.
Qed.

Lemma outlier_value_NaN X sign e :
  outlier_value X (repeat NaN (item_size X)) (repeat NaN (item_size X)) sign e
  = repeat NaN (item_size X).
Proof.
  unfold outlier_value.
  transitivity (map (fun _ : nat => NaN) (seq 0 (item_size X))).
  - apply map_ext; intros j; rewrite nth_repeat; reflexivity.
  - rewrite map_const, length_seq; reflexivity.
Qed.

Lemma outlier_value_length X lm ls sign e :
  length (outlier_value X lm ls sign e) = item_size X.
Proof. unfold outlier_value; rewrite length_map, length_seq; reflexivity. Qed.

(** The value assigned in one round: the window statistics combined
    with a sign vector of +-1 and non-negative exponential draws. *)
Lemma LocalZScore_value_ok self X idx (w : world G) :
  ndim X = 2%nat ->
  exists sign e w',
    LocalZScore_value self X idx w
    = Ok (outlier_value X
            (mean_axis0 (item_size X) (local_window self X idx))
            (std_axis0 (item_size X) (local_window self X idx)) sign e, w') /\
    length sign = vector_size X /\
    Forall (fun s => s = 1%R \/ s = (-1)%R) sign /\
    Forall (fun x => (0 <= x)%R) e.
Proof.
  intros Hd; unfold LocalZScore_value, random_sign, exponential, bind, draw.
  pose proof (rng_bits_length (vector_size X) (rng w)) as Hb.
  destruct (rng_bits (vector_size X) (rng w)) as [bs g1]; simpl in Hb |- *.
  pose proof (rng_exponential_nonneg (vector_size X) g1) as He.
  destruct (rng_exponential (vector_size X) g1) as [e g2]; simpl in He |- *.
  rewrite two_dims_broadcastable by assumption.
  eexists _, e, _; split; [reflexivity|].
  split; [rewrite length_map; exact Hb|].
  split; [|exact He].
  apply Forall_forall; intros s Hs.
  apply in_map_iff in Hs as (b & <- & _); destruct b; auto.
Qed.

Lemma LocalZScore_step_ok self X idx (w : world G) :
  ndim X = 2%nat -> (idx < length (items X))%nat ->
  exists value w',
    LocalZScore_value self X idx w = Ok (value, w') /\
    length value = item_size X /\
    LocalZScore_step self X idx w
    = Ok (Array (shape X) (set_nth idx value (items X)), w').
Proof.
  intros Hd Hi.
  destruct (LocalZScore_value_ok self X idx w Hd) as (sign & e & w' & E & _).
  eexists _, w'; split; [exact E|].
  split; [apply outlier_value_length|].
  unfold LocalZScore_step, bind; rewrite E.
  apply setitem_ok; assumption.
Qed.

(** C9, as the code has it: for a selected index smaller than the half
    window the lower slice bound is negative and Python counts it from
    the end of the array, so the window is
    [X[max(0, n + idx - h) : min(n, idx + h)]].  It is empty when the
    array has at least [2 h] rows; when the array has more than [h]
    rows it starts after row [idx].  On an empty window the mean and
    the standard deviation are NaN for every feature and the row
    written at [idx] is all NaN. *)
Theorem negative_lower_bound_counts_from_the_end
        (self : LocalZScoreGenerator) (X : ndarray) (idx : nat) (w : world G) :
  ndim X = 2%nat ->
  (idx < length (items X))%nat ->
  (Z.of_nat idx < half_window self)%Z ->
  (Z.of_nat idx - half_window self < 0)%Z /\
  local_window self X idx
  = firstn (Z.to_nat (Z.min (Z.of_nat idx + half_window self)
                            (Z.of_nat (length (items X)))
                      - Z.max 0 (Z.of_nat idx - half_window self
                                 + Z.of_nat (length (items X)))))
           (skipn (Z.to_nat (Z.max 0 (Z.of_nat idx - half_window self
                                      + Z.of_nat (length (items X)))))
                  (items X)) /\
  ((2 * half_window self <= Z.of_nat (length (items X)))%Z ->
   local_window self X idx = []) /\
  ((half_window self < Z.of_nat (length (items X)))%Z ->
   (Z.of_nat idx < Z.max 0 (Z.of_nat idx - half_window self
                            + Z.of_nat (length (items X))))%Z) /\
  (local_window self X idx = [] ->
   mean_axis0 (item_size X) (local_window self X idx) = repeat NaN (item_size X) /\
   std_axis0 (item_size X) (local_window self X idx) = repeat NaN (item_size X) /\
   exists X' w',
     LocalZScore_step self X idx w = Ok (X', w') /\
     nth_error (items X') idx = Some (repeat NaN (item_size X))).
Proof.
  intros Hd Hi Hh.
  split; [lia|].
  split; [unfold local_window; apply slice_negative_lower; lia|].
  split; [|split].
  - intros Hn; unfold local_window; apply slice_empty.
    unfold slice_bound.
    destruct (Z.ltb_spec (Z.of_nat idx - half_window self) 0); [|lia].
    destruct (Z.ltb_spec (Z.of_nat idx + half_window self) 0); lia.
  - lia.
  - intros He; rewrite He, mean_axis0_empty, std_axis0_empty.
    split; [reflexivity|]; split; [reflexivity|].
    destruct (LocalZScore_value_ok self X idx w Hd) as (sign & e & w' & E & _).
    rewrite He, mean_axis0_empty, std_axis0_empty, outlier_value_NaN in E.
    unfold LocalZScore_step, bind; rewrite E, setitem_ok by assumption.
    eexists _, _; split; [reflexivity|].
    simpl; apply set_nth_same; assumption.
Qed.
End LocalZScore.

(** The theorem at work: window size 2 on three rows, index 0: the window
    [X[-1:1]] is empty and row 0 becomes NaN. *)
Lemma negative_lower_bound_counts_from_the_end_witness :
  time_series.local_window (time_series.LocalZScoreGenerator_init 1 2) three_rows 0 = [] /\
  exists X' w',
    time_series.LocalZScore_step
      (time_series.LocalZScoreGenerator_init 1 2) three_rows 0 (World 0%nat [])
    = Ok (X', w') /\
    nth_error (time_series.items X') 0 = Some [NaN; NaN].
Proof.
  destruct (negative_lower_bound_counts_from_the_end
              (time_series.LocalZScoreGenerator_init 1 2) three_rows 0 (World 0%nat []))
    as (_ & _ & Hempty & _ & Hnan).
  - reflexivity.
  - simpl; lia.
  - reflexivity.
  - assert (He : time_series.local_window
                   (time_series.LocalZScoreGenerator_init 1 2) three_rows 0 = []).
    { apply Hempty; vm_compute; discriminate. }
    split; [exact He|].
    destruct (Hnan He) as (_ & _ & Hstep); exact Hstep.
Defined.

(** C9, as stated, fails on a short array: with a window of 20 on three
    rows, index 0 is smaller than the half window, yet the window
    [X[-10:10]] is neither empty nor away from row 0: the lower bound is
    clamped to 0 and the window is the whole array, row 0 and its
    neighbour included. *)
Lemma wrapped_window_can_hold_the_row_itself :
  (Z.of_nat 0 < time_series.half_window (time_series.LocalZScoreGenerator_init 1 20))%Z /\
  time_series.local_window (time_series.LocalZScoreGenerator_init 1 20) three_rows 0
  = time_series.items three_rows /\
  nth_error (time_series.local_window
               (time_series.LocalZScoreGenerator_init 1 20) three_rows 0) 0
  = nth_error (time_series.items three_rows) 0.
Proof. repeat split. Qed.

Section LocalZScoreLoop.
Import time_series.
Context {G : Type} `{Generator G}.
Variable Y : Type.

(** the loop of [LocalZScoreGenerator.generate] returns, keeps the
    shape and leaves every row it was not asked to replace *)
Lemma LocalZScore_loop_frame self idxs : forall X (w : world G),
  ndim X = 2%nat ->
  Forall (fun i => (i < length (items X))%nat) idxs ->
  exists X' w',
    foldM (LocalZScore_step self) X idxs w = Ok (X', w') /\
    shape X' = shape X /\
    length (items X') = length (items X) /\
    (forall i, ~ In i idxs -> nth_error (items X') i = nth_error (items X) i).
Proof.
  induction idxs as [|idx idxs IH]; intros X w Hd Hr; simpl.
  - exists X, w; repeat split; auto.
  - inversion Hr as [|? ? Hidx Hrest]; subst.
    destruct (LocalZScore_step_ok self X idx w Hd Hidx) as (v & w1 & _ & _ & E).
    unfold bind; rewrite E.
    set (X1 := Array (shape X) (set_nth idx v (items X))).
    assert (L1 : length (items X1) = length (items X))
      by (unfold X1; simpl; apply set_nth_length).
    destruct (IH X1 w1) as (X' & w' & E' & Hs & Hl & Hout).
    { exact Hd. }
    { rewrite L1; assumption. }
    exists X', w'; repeat split.
    + exact E'.
    + rewrite Hs; reflexivity.
    + rewrite Hl; exact L1.
    + intros i Hi.
      rewrite Hout by (intros Hc; apply Hi; right; exact Hc).
      unfold X1; simpl; apply set_nth_other.
      intros ->; apply Hi; left; reflexivity.
Qed.

(** every entry of the assigned value lies at least three local
    standard deviations away from the local mean *)
Lemma outlier_value_magnitude X lm ls sign e j m s :
  ndim X = 2%nat ->
  length sign = vector_size X ->
  Forall (fun s => s = 1%R \/ s = (-1)%R) sign ->
  Forall (fun x => (0 <= x)%R) e ->
  nth_error lm j = Some (Fin m) ->
  nth_error ls j = Some (Fin s) ->
  (j < item_size X)%nat ->
  exists v,
    nth_error (outlier_value X lm ls sign e) j = Some (Fin v) /\
    (3 * s <= Rabs (v - m))%R.
Proof.
  intros Hd Hlen Hsign He Hm Hs Hj.
  unfold outlier_value.
  rewrite nth_error_map, nth_error_seq.
  destruct (Nat.ltb_spec j (item_size X)) as [_|]; [|lia]; simpl.
  rewrite (nth_error_nth _ _ _ Hm), (nth_error_nth _ _ _ Hs); simpl.
  eexists; split; [reflexivity|].
  set (b := broadcast_index X j).
  assert (Hb : (b < length sign)%nat)
    by (rewrite Hlen; apply two_dims_broadcast_index; assumption).
  assert (Hsg : nth b sign 0%R = 1%R \/ nth b sign 0%R = (-1)%R).
  { rewrite Forall_forall in Hsign; apply Hsign, nth_In; exact Hb. }
  assert (Hex : (0 <= nth b e 0)%R).
  { destruct (Nat.lt_ge_cases b (length e)) as [Hlt|Hge].
    - rewrite Forall_forall in He; apply He, nth_In; exact Hlt.
    - rewrite nth_overflow by exact Hge; lra. }
  destruct Hsg as [-> | ->];
    match goal with |- (_ <= Rabs ?x)%R =>
      unfold Rabs; destruct (Rcase_abs x) end; lra.
Qed.

(** C4, as the code has it: on a 2-D array with at least [n_outliers]
    rows, [LocalZScoreGenerator.generate] returns an array that differs
    from the input only at the recorded indices.  The row at a recorded
    index is the value computed when the loop reached that index: for
    every feature whose window mean and standard deviation are finite
    it lies at least three local standard deviations away from the
    local mean (not from the value it replaces). *)
Theorem LocalZScore_generate_replaces_selected_rows
        (self : LocalZScoreGenerator) (X : ndarray) (y : Y) (w : world G) :
  ndim X = 2%nat -> well_formed X ->
  (n_outliers (base self) <= length (items X))%nat ->
  exists X' self' w1 w',
    LocalZScore_generate self X y w = Ok (X', y, self', w') /\
    choice_without_replacement (length (items X)) (n_outliers (base self)) w
    = Ok (outliers_indices_ (base self'), w1) /\
    shape X' = shape X /\
    (forall i, ~ In i (outliers_indices_ (base self')) ->
       nth_error (items X') i = nth_error (items X) i) /\
    (forall pre idx post,
       outliers_indices_ (base self') = pre ++ idx :: post ->
       exists Xp wp value wq,
         foldM (LocalZScore_step self) X pre w1 = Ok (Xp, wp) /\
         LocalZScore_value self Xp idx wp = Ok (value, wq) /\
         nth_error (items X') idx = Some value /\
         forall j m s,
           nth_error (mean_axis0 (item_size Xp) (local_window self Xp idx)) j
           = Some (Fin m) ->
           nth_error (std_axis0 (item_size Xp) (local_window self Xp idx)) j
           = Some (Fin s) ->
           exists v, nth_error value j = Some (Fin v) /\
                     (3 * s <= Rabs (v - m))%R).
Proof.
  intros Hd Hwf Hn.
  unfold LocalZScore_generate.
  destruct (Nat.ltb_spec (ndim X) 2) as [|_]; [lia|].
  rewrite shape0_rows by (assumption || lia).
  rewrite choice_without_replacement_ok by exact Hn.
  unfold bind at 1, draw.
  pose proof (rng_sample_range (length (items X)) (n_outliers (base self)) (rng w) Hn)
    as Hrange.
  pose proof (rng_sample_NoDup (length (items X)) (n_outliers (base self)) (rng w) Hn)
    as Hnd.
  destruct (rng_sample (length (items X)) (n_outliers (base self)) (rng w))
    as [idxs g'].
  simpl in Hrange, Hnd.
  set (w1 := World g' (warned w)).
  destruct (LocalZScore_loop_frame self idxs X w1 Hd Hrange)
    as (X' & w' & E & Hs & Hl & Hout).
  unfold bind; rewrite E; simpl.
  eexists X', _, w1, w'; split; [reflexivity|]; simpl.
  split; [reflexivity|].
  split; [exact Hs|].
  split; [exact Hout|].
  intros pre idx post Hsplit; subst idxs.
  rewrite foldM_app in E.
  apply Forall_app in Hrange as [Hpre Hrest].
  inversion Hrest as [|? ? Hidx Hpost]; subst.
  destruct (LocalZScore_loop_frame self pre X w1 Hd Hpre)
    as (Xp & wp & Ep & Hsp & Hlp & _).
  rewrite Ep in E; simpl in E.
  assert (Hdp : ndim Xp = 2%nat) by (unfold ndim; rewrite Hsp; exact Hd).
  rewrite <- Hlp in Hidx, Hpost.
  destruct (LocalZScore_value_ok self Xp idx wp Hdp)
    as (sign & e & wq & Ev & Hlen & Hsign & He).
  destruct (LocalZScore_step_ok self Xp idx wp Hdp Hidx)
    as (value & wq' & Ev' & _ & Estep).
  rewrite Ev in Ev'; injection Ev' as <- <-.
  unfold bind in E; rewrite Estep in E.
  match type of E with foldM _ ?X1 _ _ = _ =>
    destruct (LocalZScore_loop_frame self post X1 wq Hdp) as (X2 & w2 & E2 & _ & _ & Hout2)
  end.
  { simpl; rewrite set_nth_length; exact Hpost. }
  rewrite E2 in E; injection E as -> ->.
  eexists Xp, wp, _, wq; split; [exact Ep|]; split; [exact Ev|]; split.
  - rewrite Hout2; [simpl; apply set_nth_same; exact Hidx|].
    apply NoDup_remove_2 in Hnd.
    intros Hc; apply Hnd, in_or_app; right; exact Hc.
  - intros j m s Hm Hsd.
    apply outlier_value_magnitude; try assumption.
    assert (Hlt : (j < length (mean_axis0 (item_size Xp) (local_window self Xp idx)))%nat)
      by (apply nth_error_Some; rewrite Hm; discriminate).
    unfold mean_axis0 in Hlt; rewrite length_map, length_seq in Hlt; exact Hlt.
Qed.
End LocalZScoreLoop.

(** Two rows of one feature, and a window of 4 around a single outlier. *)
Definition two_rows : time_series.ndarray :=
  time_series.Array [2; 1]%nat [[Fin 0]; [Fin 8]].

Lemma LocalZScore_generate_replaces_selected_rows_witness :
  exists X' self' w',
    time_series.LocalZScore_generate
      (time_series.LocalZScoreGenerator_init 1 4) two_rows tt (World 0%nat [])
    = Ok (X', tt, self', w') /\
    time_series.shape X' = [2; 1]%nat.
Proof.
  destruct (LocalZScore_generate_replaces_selected_rows
              unit (time_series.LocalZScoreGenerator_init 1 4) two_rows tt (World 0%nat []))
    as (X' & self' & w1 & w' & E & _ & Hs & _).
  - reflexivity.
  - split; [reflexivity | repeat constructor].
  - simpl; lia.
  - exists X', self', w'; split; [exact E | exact Hs].
Defined.

Lemma np_mean_0_8 : np_mean [Fin 0; Fin 8] = Fin 4.
Proof. unfold np_mean, fsum; simpl; f_equal; lra. Qed.

Lemma np_std_0_8 : np_std [Fin 0; Fin 8] = Fin 4.
Proof.
  unfold np_std; rewrite np_mean_0_8; simpl map.
  rewrite (Rabs_left (0 - 4)), (Rabs_right (8 - 4)) by lra.
  unfold np_mean, fsum; simpl; f_equal.
  replace ((0 + - (0 - 4) * - (0 - 4) + (8 - 4) * (8 - 4)) * / (1 + 1))%R
    with (4 * 4)%R by lra.
  apply sqrt_square; lra.
Qed.

Lemma LocalZScore_value_two_rows :
  time_series.LocalZScore_value
    (time_series.LocalZScoreGenerator_init 1 4) two_rows 0 (World 1%nat [])
  = Ok ([Fin (-10)], World 3%nat []).
Proof.
  unfold time_series.LocalZScore_value.
  change (time_series.mean_axis0 (time_series.item_size two_rows)
            (time_series.local_window
               (time_series.LocalZScoreGenerator_init 1 4) two_rows 0))
    with [np_mean [Fin 0; Fin 8]].
  change (time_series.std_axis0 (time_series.item_size two_rows)
            (time_series.local_window
               (time_series.LocalZScoreGenerator_init 1 4) two_rows 0))
    with [np_std [Fin 0; Fin 8]].
  rewrite np_mean_0_8, np_std_0_8.
  unfold bind; simpl.
  unfold ret, time_series.outlier_value; simpl.
  do 4 f_equal; lra.
Qed.

(** C4, as stated, fails: rows 0 and 8 with a window of 4 have local mean
    4 and local standard deviation 4; the outlier written at index 0 is
    [4 - (3 * 4 + 2) = -10], so the value changes by 10, less than
    [3 * local_std = 12]. *)
Lemma LocalZScore_change_below_three_local_std :
  time_series.std_axis0 1
    (time_series.local_window
       (time_series.LocalZScoreGenerator_init 1 4) two_rows 0) = [Fin 4] /\
  (exists self' w',
     time_series.LocalZScore_generate
       (time_series.LocalZScoreGenerator_init 1 4) two_rows tt (World 0%nat [])
     = Ok (time_series.Array [2; 1]%nat [[Fin (-10)]; [Fin 8]], tt, self', w') /\
     time_series.outliers_indices_ (time_series.base self') = [0%nat]) /\
  ~ (3 * 4 < Rabs (-10 - 0))%R.
Proof.
  split; [|split].
  - change (time_series.std_axis0 1 _) with [np_std [Fin 0; Fin 8]].
    rewrite np_std_0_8; reflexivity.
  - eexists _, _.
    unfold time_series.LocalZScore_generate.
    change (time_series.ndim two_rows <? 2)%nat with false; cbv iota.
    unfold bind at 1.
    change (choice_without_replacement _ _ (World 0%nat []))
      with (Ok ([0%nat], World 1%nat [])).
    cbv iota beta; simpl foldM.
    unfold time_series.LocalZScore_step, bind; rewrite LocalZScore_value_two_rows.
    split; reflexivity.
  - rewrite Rabs_left by lra; lra.
Qed.

(* ------------------------------------------------------------------ *)
(** ** Tabular data: how many rows come back *)

Lemma replicateM_length {G A} (m : M G A) n : forall w l w',
  replicateM n m w = Ok (l, w') -> length l = n.
Proof.
  induction n as [|n IH]; intros w l w' E; simpl in E.
  - injection E as <- _; reflexivity.
  - apply bind_inv in E as (a & w1 & _ & E).
    apply bind_inv in E as (l1 & w2 & E1 & E).
    injection E as <- _; simpl; f_equal; eapply IH; eassumption.
Qed.

Lemma replicateM_Forall {G A} (P : A -> Prop) (m : M G A) :
  (forall w a w', m w = Ok (a, w') -> P a) ->
  forall n w l w', replicateM n m w = Ok (l, w') -> Forall P l.
Proof.
  intros Hm; induction n as [|n IH]; intros w l w' E; simpl in E.
  - injection E as <- _; constructor.
  - apply bind_inv in E as (a & w1 & Ea & E).
    apply bind_inv in E as (l1 & w2 & E1 & E).
    injection E as <- _; constructor; [eapply Hm | eapply IH]; eassumption.
Qed.

Lemma replicateM_total {G A} (m : M G A) :
  (forall w, exists a w', m w = Ok (a, w')) ->
  forall n w, exists l w', replicateM n m w = Ok (l, w').
Proof.
  intros Hm; induction n as [|n IH]; intros w; simpl.
  - eexists _, _; reflexivity.
  - destruct (Hm w) as (a & w1 & Ea); destruct (IH w1) as (l & w2 & El).
    unfold bind; rewrite Ea, El; eexists _, _; reflexivity.
Qed.

Lemma mapM_length {G A B} (f : A -> M G B) xs : forall w l w',
  mapM f xs w = Ok (l, w') -> length l = length xs.
Proof.
  induction xs as [|x xs IH]; intros w l w' E; simpl in E.
  - injection E as <- _; reflexivity.
  - apply bind_inv in E as (a & w1 & _ & E).
    apply bind_inv in E as (l1 & w2 & E1 & E).
    injection E as <- _; simpl; f_equal; eapply IH; eassumption.
Qed.

(** a computation that emits no warning *)
Definition silent {G A} (m : M G A) : Prop :=
  forall w a w', m w = Ok (a, w') -> warned w' = warned w.

Lemma silent_ret {G A} (a : A) : silent (@ret G A a).
Proof. intros w b w' E; injection E as _ <-; reflexivity. Qed.

Lemma silent_draw {G A} (f : G -> A * G) : silent (draw f).
Proof.
  intros w a w' E; unfold draw in E; destruct (f (rng w)).
  injection E as _ <-; reflexivity.
Qed.

Lemma silent_raise {G A} (e : exn) : silent (@raise G A e).
Proof. intros w a w' E; discriminate. Qed.

Lemma silent_bind {G A B} (m : M G A) (k : A -> M G B) :
  silent m -> (forall a, silent (k a)) -> silent (bind m k).
Proof.
  intros Hm Hk w b w' E; apply bind_inv in E as (a & w1 & Ea & E).
  rewrite (Hk a _ _ _ E); eapply Hm; eassumption.
Qed.

Lemma silent_replicateM {G A} (m : M G A) n : silent m -> silent (replicateM n m).
Proof.
  intros Hm; induction n as [|n IH]; simpl.
  - apply silent_ret.
  - apply silent_bind; [exact Hm|intros a].
    apply silent_bind; [exact IH|intros l; apply silent_ret].
Qed.

Lemma silent_mapM {G A B} (f : A -> M G B) xs :
  (forall x, silent (f x)) -> silent (mapM f xs).
Proof.
  intros Hf; induction xs as [|x xs IH]; simpl.
  - apply silent_ret.
  - apply silent_bind; [apply Hf|intros a].
    apply silent_bind; [exact IH|intros l; apply silent_ret].
Qed.

Create HintDb silent.
#[local] Hint Resolve silent_ret silent_draw silent_raise : silent.

Lemma n_outliers_floor (n : nat) (p : Z) :
  tabular_data.n_outliers n p = Z.to_nat (Z.of_nat n * p / 100).
Proof.
  unfold tabular_data.n_outliers.
  destruct (Z.le_gt_cases 0 (Z.of_nat n * p)) as [Hp|Hn].
  - rewrite Z.quot_div_nonneg by lia; reflexivity.
  - assert (Z.of_nat n * p / 100 < 0)%Z by (apply Z.div_lt_upper_bound; lia).
    assert (Z.quot (Z.of_nat n * p) 100 <= 0)%Z
      by (apply Z.quot_le_upper_bound; lia).
    lia.
Qed.

Section TabularCounts.
Import tabular_data.
Context {G : Type} `{Generator G} `{Toolkit}.

Lemma fit_inv X (w : world G) sc w' :
  fit X w = Ok (sc, w') ->
  w' = w /\ X <> [] /\ (0 < ncols X)%nat /\
  length (mean_ sc) = ncols X /\
  length (scale_ sc) = ncols X /\
  Forall (fun s => s <> 0%R) (scale_ sc).
Proof.
  unfold fit; destruct X as [|row X']; [discriminate|].
  destruct (Nat.eqb_spec (length row) 0); [discriminate|].
  intros E; injection E as <- <-; simpl.
  rewrite !length_map, !length_seq.
  repeat split; try lia; try discriminate.
  apply Forall_forall; intros s Hs.
  apply in_map_iff in Hs as (j & <- & _).
  unfold handle_zeros_in_scale; destruct (Req_dec_T _ 0); [lra | assumption].
Qed.

Lemma fit_valid X (w : world G) :
  valid X -> exists sc, fit X w = Ok (sc, w).
Proof.
  intros (Hne & Hc & _); unfold fit.
  destruct X as [|row X']; [contradiction|]; simpl in Hc.
  destruct (Nat.eqb_spec (length row) 0); [lia|].
  eexists; reflexivity.
Qed.

Lemma inverse_transform_inv sc X (w : world G) Xo w' :
  inverse_transform sc X w = Ok (Xo, w') ->
  w' = w /\ X <> [] /\ Xo = map (inverse_transform_row sc) X.
Proof.
  unfold inverse_transform; destruct X; [discriminate|].
  intros E; injection E as <- <-; repeat split; discriminate.
Qed.

Lemma silent_fit X : silent (@fit G X).
Proof. intros w sc w' E; apply fit_inv in E as (-> & _); reflexivity. Qed.

Lemma silent_inverse_transform sc X : silent (@inverse_transform G sc X).
Proof.
  intros w Xo w' E; apply inverse_transform_inv in E as (-> & _); reflexivity.
Qed.

Lemma silent_uniform lo hi : silent (uniform lo hi).
Proof. apply silent_draw. Qed.

Lemma ZScoreSampling_count p X (w : world G) Xo yt w' :
  ZScoreSampling_generate p X w = Ok (Xo, yt, w') ->
  length Xo = n_outliers (length X) p /\ warned w' = warned w.
Proof.
  unfold ZScoreSampling_generate; intros E.
  apply bind_inv in E as (sc & w1 & Ef & E).
  apply fit_inv in Ef as (-> & _).
  apply bind_inv in E as (outliers & w2 & Er & E).
  apply bind_inv in E as (Xo' & w3 & Ei & E).
  injection E as <- _ <-.
  apply inverse_transform_inv in Ei as (-> & _ & ->).
  rewrite length_map, (replicateM_length _ _ _ _ _ Er).
  unfold transform; rewrite length_map; split; [reflexivity|].
  revert Er; apply silent_replicateM.
  apply silent_bind; [apply silent_draw|intros sign].
  apply silent_bind; [apply silent_draw|intros e; apply silent_ret].
Qed.

Lemma HypersphereSampling_count p X (w : world G) Xo yt w' :
  HypersphereSampling_generate p X w = Ok (Xo, yt, w') ->
  length Xo = n_outliers (length X) p /\ warned w' = warned w.
Proof.
  unfold HypersphereSampling_generate; intros E.
  apply bind_inv in E as (sc & w1 & Ef & E).
  apply fit_inv in Ef as (-> & _).
  apply bind_inv in E as (outliers & w2 & Er & E).
  apply bind_inv in E as (Xo' & w3 & Ei & E).
  injection E as <- _ <-.
  apply inverse_transform_inv in Ei as (-> & _ & ->).
  rewrite length_map, (replicateM_length _ _ _ _ _ Er).
  unfold transform; rewrite length_map; split; [reflexivity|].
  revert Er; apply silent_replicateM.
  apply silent_bind; [apply silent_draw|intros e; apply silent_draw].
Qed.

Lemma choice_with_replacement_length {A} (a : list A) k (w : world G) l w' :
  choice_with_replacement a k w = Ok (l, w') ->
  length l = k /\ warned w' = warned w.
Proof.
  unfold choice_with_replacement; destruct a as [|d a'].
  - destruct (Nat.eqb_spec k 0); [|discriminate].
    intros E; injection E as <- <-; subst k; split; reflexivity.
  - intros E; split; [|revert E; apply silent_draw].
    unfold draw in E.
    pose proof (rng_integers_length (length (d :: a')) k (rng w)) as Hl.
    destruct (rng_integers (length (d :: a')) k (rng w)) as [js g'].
    injection E as <- _; rewrite length_map; exact Hl.
Qed.

Lemma HistogramSampling_count p t b X (w : world G) Xo yt w' :
  HistogramSampling_generate p t b X w = Ok (Xo, yt, w') ->
  length Xo = n_outliers (length X) p /\ warned w' = warned w.
Proof.
  unfold HistogramSampling_generate; intros E.
  destruct (5 <? ncols X)%nat; [discriminate|].
  apply bind_inv in E as (sc & w1 & Ef & E).
  apply fit_inv in Ef as (-> & _).
  destruct (histogramdd (transform sc X) b) as [hist edges].
  apply bind_inv in E as (coords & w2 & Ec & E).
  apply choice_with_replacement_length in Ec as (Hl & Hw2).
  apply bind_inv in E as (outliers & w3 & Em & E).
  apply bind_inv in E as (Xo' & w4 & Ei & E).
  injection E as <- _ <-.
  apply inverse_transform_inv in Ei as (-> & _ & ->).
  rewrite length_map, (mapM_length _ _ _ _ _ Em), Hl.
  unfold transform; rewrite length_map; split; [reflexivity|].
  rewrite <- Hw2; revert Em; apply silent_mapM; intros h.
  apply silent_mapM; intros [i c]; apply silent_draw.
Qed.

Definition warning_emitted (w w' : world G) : Prop :=
  exists msg, warned w' = warned w ++ [msg].

Lemma no_warning_emitted (w w' : world G) :
  warned w' = warned w -> ~ warning_emitted w w'.
Proof.
  intros E (msg & Em); rewrite E in Em.
  apply (f_equal (@length string)) in Em.
  rewrite length_app in Em; simpl in Em; lia.
Qed.

Lemma LowDensitySampling_count p X ps (w : world G) Xo yt de w' :
  LowDensitySampling_generate p X ps w = Ok (Xo, yt, de, w') ->
  (length Xo <= n_outliers (length X) p)%nat /\
  (warning_emitted w w' <-> (length Xo < n_outliers (length X) p)%nat).
Proof.
  unfold LowDensitySampling_generate; intros E.
  apply bind_inv in E as (sc & w1 & Ef & E).
  apply fit_inv in Ef as (-> & _).
  apply bind_inv in E as (candidates & w2 & Ec & E).
  assert (Hw2 : warned w2 = warned w).
  { revert Ec; apply silent_replicateM, silent_mapM.
    intros [lo hi]; apply silent_draw. }
  clear Ec.
  unfold transform in E; rewrite length_map in E.
  set (n := n_outliers (length X) p) in *.
  set (accepted := filter _ candidates) in E.
  apply bind_inv in E as (outliers & w3 & Eo & E).
  assert (Hlen : length Xo = length outliers /\ w' = w3).
  { destruct (Nat.eqb_spec (length outliers) 0) as [Hzero|Hpos].
    - injection E as <- _ _ <-; split; reflexivity.
    - apply bind_inv in E as (Xo' & w4 & Ei & E).
      injection E as <- _ _ <-.
      apply inverse_transform_inv in Ei as (-> & _ & ->).
      rewrite length_map; split; reflexivity. }
  destruct Hlen as [-> ->]; clear E.
  destruct (Nat.ltb_spec (length accepted) n) as [Hlt|Hge].
  - apply bind_inv in Eo as ([] & w4 & Ew & Eo).
    injection Eo as <- <-.
    unfold warn in Ew; injection Ew as <-; simpl.
    split; [lia|]; split; [intros _; exact Hlt|intros _].
    eexists; simpl; rewrite Hw2; reflexivity.
  - injection Eo as <- <-.
    rewrite length_firstn, Nat.min_l by exact Hge.
    split; [lia|]; split; [|lia].
    intros Hc; exfalso; revert Hc; apply no_warning_emitted; exact Hw2.
Qed.

(** what [LowDensitySamplingGenerator.generate] returns: as many rows as
    candidates were accepted, cut at the number of outliers due *)
Lemma LowDensitySampling_rows p X ps (w : world G) Xo yt de w' :
  LowDensitySampling_generate p X ps w = Ok (Xo, yt, de, w') ->
  exists sc candidates w2,
    fit X w = Ok (sc, w) /\
    replicateM
      match params_get "max_samples" ps with
      | Some m => m
      | None => (n_outliers (length X) p * 100)%nat
      end
      (mapM (fun '(low, high) => uniform low high)
            (combine (min_axis0 (transform sc X)) (max_axis0 (transform sc X)))) w
    = Ok (candidates, w2) /\
    length Xo
    = Nat.min (n_outliers (length X) p)
        (length
           (filter
              (fun x =>
                 if Rle_dec (score_samples (transform sc X) x)
                            (percentile
                               (map (score_samples (transform sc X)) (transform sc X))
                               (1 / 10))
                 then true else false) candidates)) /\
    yt = outlier_labels (length Xo) /\
    de = Some (transform sc X).
Proof.
  unfold LowDensitySampling_generate; intros E.
  apply bind_inv in E as (sc & w1 & Ef & E).
  pose proof (fit_inv X w sc w1 Ef) as (-> & _).
  apply bind_inv in E as (candidates & w2 & Ec & E).
  exists sc, candidates, w2; split; [exact Ef|].
  assert (Hl : length (transform sc X) = length X)
    by (unfold transform; apply length_map).
  rewrite Hl in *.
  split; [exact Ec|].
  set (n := n_outliers (length X) p) in *.
  set (accepted := filter _ candidates) in *.
  apply bind_inv in E as (outliers & w3 & Eo & E).
  assert (Hlen : length outliers = Nat.min n (length accepted)).
  { destruct (Nat.ltb_spec (length accepted) n) as [Hlt|Hge].
    - apply bind_inv in Eo as ([] & w4 & Ew & Eo).
      injection Eo as <- _; lia.
    - injection Eo as <- _; rewrite length_firstn; reflexivity. }
  destruct (Nat.eqb_spec (length outliers) 0) as [Hzero|Hpos].
  - injection E as <- <- <- _; rewrite Hlen; repeat split; reflexivity.
  - apply bind_inv in E as (Xo' & w4 & Ei & E).
    injection E as <- <- <- _.
    apply inverse_transform_inv in Ei as (-> & _ & ->).
    rewrite length_map, Hlen; repeat split; reflexivity.
Qed.

(** a row-preserving wrapper hands its delegate as many rows as it got
    and returns as many rows as the delegate produced *)
Lemma generate_count self : forall X y ps (w : world G) Xo yt self' w',
  transformers_keep_rows self ->
  generate self X y ps w = Ok (Xo, yt, self', w') ->
  (delegates_to_low_density self = false ->
   length Xo = n_outliers (length X) (percentage_outliers self) /\
   warned w' = warned w) /\
  (delegates_to_low_density self = true ->
   (length Xo <= n_outliers (length X) (percentage_outliers self))%nat /\
   (warning_emitted w w' <->
    (length Xo < n_outliers (length X) (percentage_outliers self))%nat)).
Proof.
  induction self as [p|p|p t b|p de|dec g IH];
    intros X y ps w Xo yt self' w' Hk E; simpl in E |- *.
  - apply bind_inv in E as ([Xo' yt'] & w1 & Eg & E); injection E as <- _ _ <-.
    split; [intros _; eapply ZScoreSampling_count; eassumption | discriminate].
  - apply bind_inv in E as ([Xo' yt'] & w1 & Eg & E); injection E as <- _ _ <-.
    split; [intros _; eapply HypersphereSampling_count; eassumption | discriminate].
  - apply bind_inv in E as ([Xo' yt'] & w1 & Eg & E); injection E as <- _ _ <-.
    split; [intros _; eapply HistogramSampling_count; eassumption | discriminate].
  - apply bind_inv in E as ([[Xo' yt'] de'] & w1 & Eg & E); injection E as <- _ _ <-.
    split; [discriminate | intros _; eapply LowDensitySampling_count; eassumption].
  - destruct Hk as [[Hfwd Hinv] Hg].
    apply bind_inv in E as (sc & w1 & Ef & E).
    apply fit_inv in Ef as (-> & _).
    destruct (dec_fit_transform dec (transform sc X)) as [Xt|e] eqn:Ed;
      [|discriminate].
    apply bind_inv in E as ([[Xo1 yt1] g'] & w2 & Eg & E).
    destruct (dec_inverse_transform dec) as [inv|] eqn:Einv; [|discriminate].
    apply bind_inv in E as (Xo2 & w3 & Ei & E); injection E as <- _ _ <-.
    apply inverse_transform_inv in Ei as (-> & _ & ->).
    rewrite length_map, (Hinv inv _ _ eq_refl).
    apply Hfwd in Ed; unfold transform in Ed; rewrite length_map in Ed.
    rewrite <- Ed; eapply IH; eassumption.
Qed.

Lemma inverse_transform_nonempty sc X (w : world G) :
  X <> [] -> inverse_transform sc X w = Ok (map (inverse_transform_row sc) X, w).
Proof. destruct X; [contradiction | reflexivity]. Qed.

Lemma nonempty_of_length {A} (l : list A) : (1 <= length l)%nat -> l <> [].
Proof. destruct l; simpl; [lia | discriminate]. Qed.

Lemma draw_total {A} (f : G -> A * G) (w : world G) :
  exists a w', draw f w = Ok (a, w').
Proof. unfold draw; destruct (f (rng w)); eexists _, _; reflexivity. Qed.

Lemma ZScoreSampling_returns p X (w : world G) :
  valid X -> (1 <= n_outliers (length X) p)%nat ->
  exists Xo yt w', ZScoreSampling_generate p X w = Ok (Xo, yt, w').
Proof.
  intros Hv Hk; destruct (fit_valid X w Hv) as (sc & Ef).
  unfold ZScoreSampling_generate, bind at 1; rewrite Ef; cbv beta iota.
  match goal with |- context [replicateM ?k ?m] =>
    assert (Hm : forall w0 : world G, exists a w', m w0 = Ok (a, w'));
      [|destruct (replicateM_total m Hm k w) as (l & w2 & Er)] end.
  { intros w0; unfold bind.
    destruct (draw_total (fun g => let (bs, g') := rng_bits (ncols (transform sc X)) g in
                (map (fun b : bool => if b then (-1)%R else 1%R) bs, g')) w0)
      as (sign & w1 & E1).
    unfold random_sign; rewrite E1.
    destruct (draw_total (rng_exponential (ncols (transform sc X))) w1) as (e & w2 & E2).
    unfold exponential; rewrite E2; eexists _, _; reflexivity. }
  unfold bind at 1; rewrite Er; cbv beta iota; unfold bind.
  rewrite inverse_transform_nonempty; [eexists _, _, _; reflexivity|].
  apply nonempty_of_length; rewrite (replicateM_length _ _ _ _ _ Er).
  unfold transform; rewrite length_map; exact Hk.
Qed.

Lemma HypersphereSampling_returns p X (w : world G) :
  valid X -> (1 <= n_outliers (length X) p)%nat ->
  exists Xo yt w', HypersphereSampling_generate p X w = Ok (Xo, yt, w').
Proof.
  intros Hv Hk; destruct (fit_valid X w Hv) as (sc & Ef).
  unfold HypersphereSampling_generate, bind at 1; rewrite Ef; cbv beta iota.
  match goal with |- context [replicateM ?k ?m] =>
    assert (Hm : forall w0 : world G, exists a w', m w0 = Ok (a, w'));
      [|destruct (replicateM_total m Hm k w) as (l & w2 & Er)] end.
  { intros w0; unfold bind, exponential1.
    destruct (draw_total (fun g => let (l, g') := rng_exponential 1 g in (hd 0%R l, g')) w0)
      as (e & w1 & E1).
    rewrite E1; unfold random_spherical_coordinate; apply draw_total. }
  unfold bind at 1; rewrite Er; cbv beta iota; unfold bind.
  rewrite inverse_transform_nonempty; [eexists _, _, _; reflexivity|].
  apply nonempty_of_length; rewrite (replicateM_length _ _ _ _ _ Er).
  unfold transform; rewrite length_map; exact Hk.
Qed.

Lemma mapM_total {A B} (f : A -> M G B) :
  (forall x w, exists b w', f x w = Ok (b, w')) ->
  forall xs w, exists l w', mapM f xs w = Ok (l, w').
Proof.
  intros Hf; induction xs as [|x xs IH]; intros w; simpl.
  - eexists _, _; reflexivity.
  - destruct (Hf x w) as (b & w1 & Eb); destruct (IH w1) as (l & w2 & El).
    unfold bind; rewrite Eb, El; eexists _, _; reflexivity.
Qed.

Lemma LowDensitySampling_returns p X ps (w : world G) :
  valid X ->
  exists Xo yt de w', LowDensitySampling_generate p X ps w = Ok (Xo, yt, de, w').
Proof.
  intros Hv; destruct (fit_valid X w Hv) as (sc & Ef).
  unfold LowDensitySampling_generate, bind at 1; rewrite Ef; cbv beta iota.
  match goal with |- context [replicateM ?k ?m] =>
    assert (Hm : forall w0 : world G, exists a w', m w0 = Ok (a, w'));
      [|destruct (replicateM_total m Hm k w) as (l & w2 & Er)] end.
  { apply mapM_total; intros [lo hi] w0; apply draw_total. }
  unfold bind at 1; rewrite Er; cbv beta iota.
  match goal with |- context [filter ?f l] => set (accepted := filter f l) end.
  match goal with |- context [(length accepted <? ?n)%nat] =>
    destruct (length accepted <? n)%nat end.
  - unfold bind, warn; simpl.
    destruct (Nat.eqb_spec (length accepted) 0) as [Hz|Hpos].
    + eexists _, _, _, _; reflexivity.
    + rewrite inverse_transform_nonempty
        by (apply nonempty_of_length; lia).
      eexists _, _, _, _; reflexivity.
  - unfold bind, ret.
    match goal with |- context [firstn ?n accepted] =>
      destruct (Nat.eqb_spec (length (firstn n accepted)) 0) as [Hz|Hpos] end.
    + eexists _, _, _, _; reflexivity.
    + rewrite inverse_transform_nonempty
        by (apply nonempty_of_length; lia).
      eexists _, _, _, _; reflexivity.
Qed.

(** C1, as the code has it.  Whenever [generate] returns, a strategy
    that does not end in a [LowDensitySamplingGenerator] has produced
    exactly [floor(n * p / 100)] rows and no warning; a
    [LowDensitySamplingGenerator], alone or as the delegate of a
    [DecompositionAndOutlierGenerator], has produced at most that many
    rows, and a warning exactly when it produced fewer.
    [ZScoreSamplingGenerator] and [HypersphereSamplingGenerator] do
    return on a valid matrix when at least one outlier is due, and
    [LowDensitySamplingGenerator] returns on every valid matrix. *)
Theorem tabular_generate_row_count :
  (forall self X y ps (w : world G) Xo yt self' w',
     transformers_keep_rows self ->
     generate self X y ps w = Ok (Xo, yt, self', w') ->
     (delegates_to_low_density self = false ->
      length Xo = Z.to_nat (Z.of_nat (length X) * percentage_outliers self / 100) /\
      warned w' = warned w) /\
     (delegates_to_low_density self = true ->
      (length Xo
       <= Z.to_nat (Z.of_nat (length X) * percentage_outliers self / 100))%nat /\
      (warning_emitted w w' <->
       (length Xo
        < Z.to_nat (Z.of_nat (length X) * percentage_outliers self / 100))%nat))) /\
  (forall p X y ps (w : world G),
     valid X -> (1 <= Z.to_nat (Z.of_nat (length X) * p / 100))%nat ->
     (exists out, generate (ZScoreSamplingGenerator p) X y ps w = Ok out) /\
     (exists out, generate (HypersphereSamplingGenerator p) X y ps w = Ok out)) /\
  (forall p de X y ps (w : world G),
     valid X ->
     exists out, generate (LowDensitySamplingGenerator p de) X y ps w = Ok out).
Proof.
  split; [|split].
  - intros self X y ps w Xo yt self' w' Hk E.
    rewrite <- n_outliers_floor; eapply generate_count; eassumption.
  - intros p X y ps w Hv Hk; rewrite <- n_outliers_floor in Hk; split; simpl.
    + destruct (ZScoreSampling_returns p X w Hv Hk) as (Xo & yt & w' & E).
      unfold bind; rewrite E; eexists; reflexivity.
    + destruct (HypersphereSampling_returns p X w Hv Hk) as (Xo & yt & w' & E).
      unfold bind; rewrite E; eexists; reflexivity.
  - intros p de X y ps w Hv; simpl.
    destruct (LowDensitySampling_returns p X ps w Hv) as (Xo & yt & de' & w' & E).
    unfold bind; rewrite E; eexists; reflexivity.
Qed.
End TabularCounts.

(* ------------------------------------------------------------------ *)
(** ** Tabular data: the generators on two points

    The matrix with the two rows 0 and 2 has mean 1 and scale 1; it
    standardizes to the rows -1 and 1. *)

Section TwoPoints.
Import tabular_data.

Definition two_points : matrix := [[0%R]; [2%R]].

Lemma handle_zeros_1 : handle_zeros_in_scale 1 = 1%R.
Proof. unfold handle_zeros_in_scale; destruct (Req_dec_T 1 0); [lra | reflexivity]. Qed.

Lemma fit_two_points (w : world nat) :
  fit two_points w = Ok ({| mean_ := [1%R]; scale_ := [1%R] |}, w).
Proof.
  unfold fit, two_points; simpl.
  assert (Em : Rmean [0%R; 2%R] = 1%R) by (unfold Rmean, Rsum; simpl; lra).
  assert (Ev : Rvar [0%R; 2%R] = 1%R).
  { unfold Rvar; rewrite Em; unfold Rmean, Rsum; simpl; lra. }
  unfold col; simpl; rewrite Em, Ev, sqrt_1, handle_zeros_1; reflexivity.
Qed.

Lemma transform_two_points :
  transform {| mean_ := [1%R]; scale_ := [1%R] |} two_points = [[(-1)%R]; [1%R]].
Proof. unfold transform, transform_row; simpl; repeat f_equal; lra. Qed.

Definition unit_points : matrix := [[(-1)%R]; [1%R]].

Lemma fit_unit_points (w : world nat) :
  fit unit_points w = Ok ({| mean_ := [0%R]; scale_ := [1%R] |}, w).
Proof.
  unfold fit, unit_points; simpl.
  assert (Em : Rmean [(-1)%R; 1%R] = 0%R) by (unfold Rmean, Rsum; simpl; lra).
  assert (Ev : Rvar [(-1)%R; 1%R] = 1%R).
  { unfold Rvar; rewrite Em; unfold Rmean, Rsum; simpl; lra. }
  unfold col; simpl; rewrite Em, Ev, sqrt_1, handle_zeros_1; reflexivity.
Qed.

Lemma transform_unit_points :
  transform {| mean_ := [0%R]; scale_ := [1%R] |} unit_points = unit_points.
Proof. unfold transform, transform_row, unit_points; simpl; repeat f_equal; lra. Qed.

Lemma bounds_unit_points :
  min_axis0 unit_points = [(-1)%R] /\ max_axis0 unit_points = [1%R].
Proof.
  unfold min_axis0, max_axis0, Rminimum, Rmaximum, unit_points; simpl.
  split; f_equal; [unfold Rmin | unfold Rmax]; destruct (Rle_dec _ _); lra.
Qed.

(* candidates *)
Definition candidate : M nat (list R) :=
  mapM (fun '(low, high) => uniform low high) [((-1)%R, 1%R)].

Lemma candidate_first ws : candidate (World 0%nat ws) = Ok ([(-1)%R], World 1%nat ws).
Proof. reflexivity. Qed.

Lemma candidate_next g ws :
  candidate (World (S g) ws) = Ok ([((-1 + 1) / 2)%R], World (S (S g)) ws).
Proof. reflexivity. Qed.

Lemma candidates_next n : forall g ws,
  replicateM n candidate (World (S g) ws)
  = Ok (repeat [((-1 + 1) / 2)%R] n, World (n + S g)%nat ws).
Proof.
  induction n as [|n IH]; intros g ws; [reflexivity|].
  simpl replicateM; unfold bind; rewrite candidate_next, IH.
  replace (n + S (S g))%nat with (S n + S g)%nat by lia; reflexivity.
Qed.

Lemma candidates_all n ws :
  replicateM (S n) candidate (World 0%nat ws)
  = Ok ([(-1)%R] :: repeat [((-1 + 1) / 2)%R] n, World (S n) ws).
Proof.
  simpl replicateM; unfold bind; rewrite candidate_first, candidates_next.
  replace (n + 1)%nat with (S n) by lia; reflexivity.
Qed.

Lemma toy_score_low : Toy.score_samples unit_points [(-1)%R] = (- (1 / 2))%R.
Proof. unfold Toy.score_samples, Rsum; simpl; lra. Qed.
Lemma toy_score_mid : Toy.score_samples unit_points [((-1 + 1) / 2)%R] = 0%R.
Proof. unfold Toy.score_samples, Rsum; simpl; lra. Qed.
Lemma toy_threshold :
  Toy.percentile (map (Toy.score_samples unit_points) unit_points) (1 / 10) = (- (1 / 2))%R.
Proof.
  unfold Toy.percentile, Rminimum, unit_points; simpl.
  unfold Toy.score_samples, Rsum; simpl.
  unfold Rmin; destruct (Rle_dec _ _); lra.
Qed.

Lemma valid_unit_points : valid unit_points.
Proof. repeat split; [discriminate | simpl; lia | repeat constructor]. Qed.

Lemma filter_repeat_false {A} (f : A -> bool) (x : A) (n : nat) :
  f x = false -> filter f (repeat x n) = [].
Proof. intros E; induction n as [|n IH]; simpl; [|rewrite E]; auto. Qed.

Lemma filter_cons_true {A} (f : A -> bool) (x : A) (l : list A) :
  f x = true -> filter f (x :: l) = x :: filter f l.
Proof. intros E; simpl; rewrite E; reflexivity. Qed.

Lemma LowDensity_unit_points :
  exists Xo yt de w',
    LowDensitySampling_generate 100 unit_points [] (World 0%nat [])
    = Ok (Xo, yt, de, w') /\ length Xo = 1%nat.
Proof.
  destruct (LowDensitySampling_returns 100 unit_points [] (World 0%nat []) valid_unit_points)
    as (Xo & yt & de & w' & E).
  exists Xo, yt, de, w'; split; [exact E|].
  apply LowDensitySampling_rows in E as (sc & cands & w2 & Ef & Ec & Hl & _).
  rewrite fit_unit_points in Ef; injection Ef as <-.
  rewrite transform_unit_points in Ec, Hl.
  destruct bounds_unit_points as [Emin Emax]; rewrite Emin, Emax in Ec.
  change (n_outliers (length unit_points) 100) with 2%nat in Ec, Hl.
  cbn [params_get] in Ec.
  change (combine [(-1)%R] [1%R]) with [((-1)%R, 1%R)] in Ec.
  fold candidate in Ec.
  change (2 * 100)%nat with (S 199) in Ec.
  rewrite candidates_all in Ec.
  pose proof (f_equal (fun r => match r with Ok (c, _) => c | Raise _ => [] end) Ec) as Hc.
  cbv beta iota in Hc; rewrite <- Hc in Hl; clear Hc Ec.
  change (@tabular_data.score_samples Toy.toy) with Toy.score_samples in Hl.
  change (@tabular_data.percentile Toy.toy) with Toy.percentile in Hl.
  rewrite toy_threshold in Hl.
  rewrite filter_cons_true in Hl
    by (rewrite toy_score_low; destruct (Rle_dec (- (1 / 2)) (- (1 / 2))); [reflexivity | lra]).
  rewrite filter_repeat_false in Hl
    by (rewrite toy_score_mid; destruct (Rle_dec 0 (- (1 / 2))); [lra | reflexivity]).
  exact Hl.
Qed.

(** C1, as stated, fails for a wrapped [LowDensitySamplingGenerator]: on
    the two points with 100 percent of outliers two rows are due, the
    delegate accepts one candidate out of 200, and the
    [DecompositionAndOutlierGenerator] returns that single row. *)
Lemma wrapped_low_density_returns_fewer_rows :
  exists Xo yt self' w',
    generate (DecompositionAndOutlierGenerator Toy.identity
                (LowDensitySamplingGenerator 100 None))
             two_points None [] (World 0%nat [])
    = Ok (Xo, yt, self', w') /\
    length Xo = 1%nat /\
    Z.to_nat (Z.of_nat (length two_points) * 100 / 100) = 2%nat.
Proof.
  destruct LowDensity_unit_points as (Xo & yt & de & w' & E & Hl).
  cbn [generate]; unfold bind at 1; rewrite fit_two_points; cbv beta iota.
  rewrite transform_two_points; fold unit_points.
  cbn [dec_fit_transform dec_inverse_transform Toy.identity].
  unfold bind at 1 2; rewrite E; cbv beta iota.
  unfold ret at 1; cbv beta iota.
  unfold bind.
  rewrite inverse_transform_nonempty by (apply nonempty_of_length; lia).
  eexists _, _, _, _; split; [reflexivity|].
  split; [rewrite length_map; exact Hl | reflexivity].
Qed.

Lemma valid_two_points : valid two_points.
Proof. repeat split; [discriminate | simpl; lia | repeat constructor]. Qed.

(** The theorem at work: on the two points with 100 percent of outliers
    [ZScoreSamplingGenerator.generate] returns. *)
Lemma tabular_generate_row_count_witness :
  exists out,
    generate (ZScoreSamplingGenerator 100) two_points None [] (World 0%nat [])
    = Ok out.
Proof.
  destruct (proj1 (proj2 tabular_generate_row_count)
              100%Z two_points None [] (World 0%nat []) valid_two_points)
    as [Hz _].
  - simpl; lia.
  - exact Hz.
Defined.
End TwoPoints.

(* ------------------------------------------------------------------ *)
(** ** Tabular data: where the generated points lie *)

Section ThreeSigma.
Import tabular_data.
Context {G : Type} `{Generator G} `{Toolkit}.

(** standardizing undoes [inverse_transform], row by row *)
Lemma transform_inverse_transform_row sc v :
  (length v <= length (mean_ sc))%nat ->
  length (mean_ sc) = length (scale_ sc) ->
  Forall (fun s => s <> 0%R) (scale_ sc) ->
  transform_row sc (inverse_transform_row sc v) = v.
Proof.
  unfold transform_row, inverse_transform_row.
  generalize (mean_ sc) (scale_ sc); intros ms ss.
  revert ms ss; induction v as [|x v IH]; intros [|m ms] [|s ss] Hl Hms Hnz;
    simpl in *; try reflexivity; try lia.
  inversion Hnz as [|? ? Hs Hrest]; subst.
  f_equal; [field; exact Hs | apply IH; [lia | lia | exact Hrest]].
Qed.

Lemma ncols_transform sc X :
  length (mean_ sc) = ncols X -> length (scale_ sc) = ncols X ->
  ncols (transform sc X) = ncols X.
Proof.
  intros Hm Hs; destruct X as [|row X']; [reflexivity|]; simpl in *.
  unfold transform_row; rewrite length_map, !length_combine; lia.
Qed.

Lemma sum_of_squares_scale r u :
  sum_of_squares (map (fun x => (r * x)%R) u) = (r * r * sum_of_squares u)%R.
Proof.
  unfold sum_of_squares; induction u as [|x u IH]; simpl; [lra|].
  rewrite IH; ring.
Qed.

(** one round of the ZScore loop: a row of the input's width, every entry
    of magnitude at least 3 *)
Lemma ZScore_row d (w : world G) row w' :
  (sign <- random_sign d ;;
   e <- exponential d ;;
   ret (map (fun '(s, x) => (s * (3 + x))%R) (combine sign e)))%monad w
  = Ok (row, w') ->
  length row = d /\ Forall (fun z => (3 <= Rabs z)%R) row.
Proof.
  unfold bind, random_sign, exponential, draw.
  pose proof (rng_bits_length d (rng w)) as Hb.
  destruct (rng_bits d (rng w)) as [bs g1]; simpl in Hb |- *.
  pose proof (rng_exponential_length d g1) as Hel.
  pose proof (rng_exponential_nonneg d g1) as Hen.
  destruct (rng_exponential d g1) as [e g2]; simpl in Hel, Hen |- *.
  intros E; injection E as <- _.
  split; [rewrite length_map, length_combine, length_map; lia|].
  apply Forall_forall; intros z Hz.
  apply in_map_iff in Hz as ([s x] & <- & Hin).
  pose proof (in_combine_l _ _ _ _ Hin) as Hs.
  pose proof (in_combine_r _ _ _ _ Hin) as Hx.
  apply in_map_iff in Hs as (b & <- & _).
  rewrite Forall_forall in Hen; specialize (Hen x Hx).
  destruct b; unfold Rabs;
    match goal with |- context [Rcase_abs ?t] => destruct (Rcase_abs t) end; lra.
Qed.

(** one round of the Hypersphere loop: a row of the input's width on a
    sphere of radius at least 3 *)
Lemma Hypersphere_row d (w : world G) row w' :
  (0 < d)%nat ->
  (e <- exponential1 ;; random_spherical_coordinate d (3 + e)%R)%monad w
  = Ok (row, w') ->
  length row = d /\ (3 <= l2_norm row)%R.
Proof.
  intros Hd; unfold bind, exponential1, random_spherical_coordinate, draw.
  pose proof (rng_exponential_length 1 (rng w)) as Hel.
  pose proof (rng_exponential_nonneg 1 (rng w)) as Hen.
  destruct (rng_exponential 1 (rng w)) as [e g1]; simpl in Hel, Hen |- *.
  pose proof (rng_direction_length d g1) as Hul.
  pose proof (rng_direction_unit d g1 Hd) as Hu.
  destruct (rng_direction d g1) as [u g2]; simpl in Hul, Hu |- *.
  intros E; injection E as <- _.
  split; [rewrite length_map; exact Hul|].
  assert (He : (0 <= hd 0 e)%R).
  { destruct e as [|x e']; simpl; [lra|]; inversion Hen; assumption. }
  unfold l2_norm; rewrite sum_of_squares_scale.
  unfold sum_of_squares; rewrite Hu, Rmult_1_r, sqrt_square by lra; lra.
Qed.

(** C2: a point returned by [ZScoreSamplingGenerator.generate],
    standardized again with the scaler fitted on the same input, has
    magnitude at least 3 in every dimension; a point returned by
    [HypersphereSamplingGenerator.generate], standardized again, has
    Euclidean norm at least 3.  Both have the input's width. *)
Theorem generated_points_lie_three_sigma_out :
  (forall p X y ps (w : world G) Xo yt self' w' sc,
     generate (ZScoreSamplingGenerator p) X y ps w = Ok (Xo, yt, self', w') ->
     fit X w = Ok (sc, w) ->
     forall row, In row Xo ->
       length (transform_row sc row) = ncols X /\
       Forall (fun z => (3 <= Rabs z)%R) (transform_row sc row)) /\
  (forall p X y ps (w : world G) Xo yt self' w' sc,
     generate (HypersphereSamplingGenerator p) X y ps w = Ok (Xo, yt, self', w') ->
     fit X w = Ok (sc, w) ->
     forall row, In row Xo ->
       length (transform_row sc row) = ncols X /\
       (3 <= l2_norm (transform_row sc row))%R).
Proof.
  split; intros p X y ps w Xo yt self' w' sc E Ef row Hrow; simpl in E;
    apply bind_inv in E as ([Xo1 yt1] & w1 & E & E'); injection E' as <- _ _ _.
  - unfold ZScoreSampling_generate, bind at 1 in E; rewrite Ef in E.
    pose proof (fit_inv X w sc w Ef) as (_ & _ & Hpos & Hm & Hs & Hnz).
    apply bind_inv in E as (outliers & w2 & Er & E).
    apply bind_inv in E as (Xo2 & w3 & Ei & E); injection E as <- _ _.
    apply inverse_transform_inv in Ei as (_ & _ & ->).
    apply in_map_iff in Hrow as (o & <- & Ho).
    rewrite ncols_transform in Er by assumption.
    pose proof (replicateM_Forall _ _ (ZScore_row (ncols X)) _ _ _ _ Er) as Hall.
    rewrite Forall_forall in Hall; destruct (Hall o Ho) as [Hlen Habs].
    rewrite transform_inverse_transform_row; [auto | lia | lia | exact Hnz].
  - unfold HypersphereSampling_generate, bind at 1 in E; rewrite Ef in E.
    pose proof (fit_inv X w sc w Ef) as (_ & _ & Hpos & Hm & Hs & Hnz).
    apply bind_inv in E as (outliers & w2 & Er & E).
    apply bind_inv in E as (Xo2 & w3 & Ei & E); injection E as <- _ _.
    apply inverse_transform_inv in Ei as (_ & _ & ->).
    apply in_map_iff in Hrow as (o & <- & Ho).
    rewrite ncols_transform in Er by assumption.
    pose proof (replicateM_Forall _ _
                  (fun w0 a w0' => Hypersphere_row (ncols X) w0 a w0' Hpos) _ _ _ _ Er)
      as Hall.
    rewrite Forall_forall in Hall; destruct (Hall o Ho) as [Hlen Hnorm].
    rewrite transform_inverse_transform_row; [auto | lia | lia | exact Hnz].
Qed.
End ThreeSigma.

(** The theorem at work on the two points, all of them replaced. *)
Lemma generated_points_lie_three_sigma_out_witness :
  exists Xo yt self' w',
    tabular_data.generate (tabular_data.ZScoreSamplingGenerator 100)
      two_points None [] (World 0%nat [])
    = Ok (Xo, yt, self', w') /\
    forall row, In row Xo ->
      Forall (fun z => (3 <= Rabs z)%R)
        (tabular_data.transform_row
           {| tabular_data.mean_ := [1%R]; tabular_data.scale_ := [1%R] |} row).
Proof.
  destruct (ZScoreSampling_returns 100 two_points (World 0%nat []) valid_two_points)
    as (Xo & yt & w' & E); [change (1 <= 2)%nat; lia|].
  exists Xo, yt, (tabular_data.ZScoreSamplingGenerator 100), w'.
  assert (Eg : tabular_data.generate (tabular_data.ZScoreSamplingGenerator 100)
                 two_points None [] (World 0%nat [])
               = Ok (Xo, yt, tabular_data.ZScoreSamplingGenerator 100, w')).
  { simpl; unfold bind; rewrite E; reflexivity. }
  split; [exact Eg|].
  intros row Hrow.
  apply (proj1 generated_points_lie_three_sigma_out
           100%Z two_points None [] (World 0%nat []) Xo yt _ w' _ Eg
           (fit_two_points _) row Hrow).
Defined.

(* ------------------------------------------------------------------ *)
(** ** Tabular data: the wrapper and its keyword arguments *)

Section Wrapper.
Import tabular_data.
Context {G : Type} `{Generator G} `{Toolkit}.

(** C10: [DecompositionAndOutlierGenerator.generate] does not hand its
    keyword arguments to its delegate: whatever they are, the call does
    what it does without any. *)
Theorem wrapper_ignores_params dec g X y ps (w : world G) :
  generate (DecompositionAndOutlierGenerator dec g) X y ps w
  = generate (DecompositionAndOutlierGenerator dec g) X y [] w.
Proof. reflexivity. Qed.

(** the bare [LowDensitySamplingGenerator] does read [max_samples]: with
    a budget of no candidate it returns no row *)
Lemma LowDensitySampling_no_budget p X ps (w : world G) Xo yt de w' :
  params_get "max_samples" ps = Some 0%nat ->
  LowDensitySampling_generate p X ps w = Ok (Xo, yt, de, w') ->
  Xo = [].
Proof.
  intros Hp E.
  apply LowDensitySampling_rows in E as (sc & cands & w2 & _ & Ec & Hl & _).
  rewrite Hp in Ec; injection Ec as <- _.
  simpl in Hl; rewrite Nat.min_0_r in Hl.
  destruct Xo; [reflexivity | discriminate].
Qed.

(** two tabular generator objects of the same configuration do the same,
    whatever earlier calls left in them *)
Lemma generate_same_configuration a : forall b X y ps (w : world G),
  same_configuration a b ->
  generate a X y ps w = generate b X y ps w.
Proof.
  induction a as [p|p|p t n|p de|d g IH]; intros [q|q|q u m|q de'|e h] X y ps w Hs;
    simpl in Hs; try contradiction.
  - subst; reflexivity.
  - subst; reflexivity.
  - destruct Hs as (-> & -> & ->); reflexivity.
  - subst; reflexivity.
  - destruct Hs as [-> Hs]; simpl.
    unfold bind; destruct (fit X w) as [[sc w1]|]; [|reflexivity].
    destruct (dec_fit_transform e (transform sc X)); [|reflexivity].
    rewrite (IH h _ y [] w1 Hs); reflexivity.
Qed.
End Wrapper.

(* ------------------------------------------------------------------ *)
(** ** Tabular data: HistogramSamplingGenerator *)

Section Histogram.
Import tabular_data.
Context {G : Type} `{Generator G} `{Toolkit}.

(** C6 fails on the code: the counts are divided by [max - min] without
    [min] being subtracted first.  With 3 points in one bin and 1 in the
    other the code computes 3/2 and 1/2 where min-max scaling gives 1 and
    0: a value lies outside [0, 1], and no bin is at or below a threshold
    of 0.1 although the emptiest bin should be. *)
Theorem normalization_does_not_subtract_the_minimum :
  normalize [([0%nat], 3%nat); ([1%nat], 1%nat)] 3 = Some (3 / 2)%R /\
  normalize [([0%nat], 3%nat); ([1%nat], 1%nat)] 1 = Some (1 / 2)%R /\
  min_max_scaling [([0%nat], 3%nat); ([1%nat], 1%nat)] 3 = 1%R /\
  min_max_scaling [([0%nat], 3%nat); ([1%nat], 1%nat)] 1 = 0%R /\
  hist_coords_low_density [([0%nat], 3%nat); ([1%nat], 1%nat)] (1 / 10) = [].
Proof.
  unfold normalize, min_max_scaling, hist_coords_low_density, norm_hist, normalize,
    is_low_density; simpl.
  repeat split; try (f_equal; lra); try lra.
  repeat match goal with |- context [Rle_dec ?a ?b] =>
    destruct (Rle_dec a b); [exfalso; lra|] end.
  reflexivity.
Qed.

(** with no bin of low density the sampling step fails when a sample is
    due; with none due, the empty batch is refused further down *)
Lemma HistogramSampling_no_low_density p t b X (w : world G) sc :
  (ncols X <= 5)%nat ->
  fit X w = Ok (sc, w) ->
  hist_coords_low_density (fst (histogramdd (transform sc X) b)) t = [] ->
  HistogramSampling_generate p t b X w
  = if (n_outliers (length X) p =? 0)%nat
    then Raise (ValueError "Found array with 0 sample(s)")
    else Raise (ValueError "a cannot be empty unless no samples are taken").
Proof.
  intros Hc Ef Hlow; unfold HistogramSampling_generate.
  destruct (Nat.ltb_spec 5 (ncols X)); [lia|].
  unfold bind at 1; rewrite Ef; cbv beta iota.
  destruct (histogramdd (transform sc X) b) as [hist edges]; simpl in Hlow.
  rewrite Hlow.
  replace (length (transform sc X)) with (length X)
    by (unfold transform; rewrite length_map; reflexivity).
  unfold choice_with_replacement.
  destruct (n_outliers (length X) p =? 0)%nat; reflexivity.
Qed.

(** C7: [HistogramSamplingGenerator.generate] raises NotImplementedError
    on every input of more than 5 columns; on an input of at most 5
    columns whose histogram has no bin at or below the threshold it
    raises a ValueError, which is the one of sampling from an empty list
    as soon as one outlier is due. *)
Theorem histogram_sampling_failures :
  (forall p t b X y ps (w : world G),
     (5 < ncols X)%nat ->
     generate (HistogramSamplingGenerator p t b) X y ps w
     = Raise (NotImplementedError
         "So far this generator only supports tabular X with at most 5 columns")) /\
  (forall p t b X y ps (w : world G) sc,
     (ncols X <= 5)%nat ->
     fit X w = Ok (sc, w) ->
     hist_coords_low_density (fst (histogramdd (transform sc X) b)) t = [] ->
     (exists msg,
        generate (HistogramSamplingGenerator p t b) X y ps w
        = Raise (ValueError msg)) /\
     ((1 <= n_outliers (length X) p)%nat ->
      generate (HistogramSamplingGenerator p t b) X y ps w
      = Raise (ValueError "a cannot be empty unless no samples are taken"))).
Proof.
  split.
  - intros p t b X y ps w Hc; simpl; unfold bind, HistogramSampling_generate.
    destruct (Nat.ltb_spec 5 (ncols X)); [reflexivity | lia].
  - intros p t b X y ps w sc Hc Ef Hlow; simpl; unfold bind.
    rewrite (HistogramSampling_no_low_density p t b X w sc Hc Ef Hlow).
    destruct (Nat.eqb_spec (n_outliers (length X) p) 0) as [Hz|Hnz].
    + split; [eexists; reflexivity | lia].
    + split; [eexists; reflexivity | reflexivity].
Qed.
End Histogram.

(** On the two points with a single bin the only cell holds both points:
    all counts are equal and no bin is of low density. *)
Lemma two_points_one_bin :
  tabular_data.hist_coords_low_density
    (fst (Toy.histogramdd
            (tabular_data.transform
               {| tabular_data.mean_ := [1%R]; tabular_data.scale_ := [1%R] |}
               two_points) 1)) (1 / 10) = [].
Proof.
  rewrite transform_two_points.
  unfold Toy.histogramdd, Toy.edges_of; simpl.
  destruct (Req_dec_T _ _); reflexivity.
Qed.

Lemma histogram_sampling_failures_witness :
  tabular_data.generate (tabular_data.HistogramSamplingGenerator 100 (1 / 10) 1)
    two_points None [] (World 0%nat [])
  = Raise (ValueError "a cannot be empty unless no samples are taken").
Proof.
  apply (proj2 histogram_sampling_failures
           100%Z (1 / 10)%R 1%nat two_points None [] (World 0%nat [])
           {| tabular_data.mean_ := [1%R]; tabular_data.scale_ := [1%R] |}).
  - simpl; lia.
  - apply fit_two_points.
  - exact two_points_one_bin.
  - change (1 <= 2)%nat; lia.
Defined.

(* ------------------------------------------------------------------ *)
(** * Further properties *)

(** ** Tabular data: construction and the number of outliers *)

Section Construction.
Import tabular_data.

(** The number of outliers never exceeds the number of rows: for a
    percentage between 0 and 100 it lies between 0 and n, it is 0 at 0
    percent and n at 100 percent, and it grows with the percentage. *)
Theorem n_outliers_bounds (n : nat) (p q : Z) :
  (0 <= p <= q)%Z -> (q <= 100)%Z ->
  (n_outliers n p <= n_outliers n q)%nat /\
  (n_outliers n q <= n)%nat /\
  n_outliers n 0 = 0%nat /\
  n_outliers n 100 = n.
Proof.
  intros Hp Hq; rewrite !n_outliers_floor.
  repeat split.
  - apply Z2Nat.inj_le.
    + apply Z.div_pos; nia.
    + apply Z.div_pos; nia.
    + apply Z.div_le_mono; nia.
  - assert (Z.of_nat n * q / 100 <= Z.of_nat n)%Z
      by (apply Z.div_le_upper_bound; nia).
    assert (0 <= Z.of_nat n * q / 100)%Z by (apply Z.div_pos; nia).
    lia.
  - rewrite Z.mul_0_r; reflexivity.
  - rewrite Z.div_mul by lia; apply Nat2Z.id.
Qed.

Lemma n_outliers_bounds_witness :
  (n_outliers 50 10 <= n_outliers 50 30)%nat /\
  (n_outliers 50 30 <= 50)%nat /\
  n_outliers 50 0 = 0%nat /\
  n_outliers 50 100 = 50%nat.
Proof. apply (n_outliers_bounds 50 10 30); lia. Defined.

Lemma assert_percentage_spec p :
  assert_percentage p = true <-> (0 <= p <= 100)%Z.
Proof. unfold assert_percentage; rewrite andb_true_iff, !Z.leb_le; tauto. Qed.

Lemma configured_percentage g :
  configured g -> (0 <= percentage_outliers g <= 100)%Z.
Proof.
  induction g as [p|p|p t b|p de|d g IH]; simpl; try tauto.
Qed.

(** The constructors build what they are asked for, and only within the
    asserted ranges: whatever they return satisfies [configured]; the
    wrapper takes over its delegate's percentage. *)
Theorem constructors_build_configured_generators :
  (forall p g, ZScoreSamplingGenerator_init p = Ok g ->
     g = ZScoreSamplingGenerator p /\ configured g) /\
  (forall p g, HypersphereSamplingGenerator_init p = Ok g ->
     g = HypersphereSamplingGenerator p /\ configured g) /\
  (forall p t b g, HistogramSamplingGenerator_init p t b = Ok g ->
     g = HistogramSamplingGenerator p t b /\ configured g) /\
  (forall p g, LowDensitySamplingGenerator_init p = Ok g ->
     g = LowDensitySamplingGenerator p None /\ configured g) /\
  (forall dec d g, configured d ->
     DecompositionAndOutlierGenerator_init dec d = Ok g ->
     g = DecompositionAndOutlierGenerator dec d /\ configured g /\
     percentage_outliers g = percentage_outliers d).
Proof.
  repeat split;
    try (match goal with H : ?f _ = Ok _ |- _ =>
           unfold f in H;
           destruct (assert_percentage _) eqn:Ea in H; [|discriminate];
           injection H as <-; apply assert_percentage_spec in Ea end;
         simpl; (reflexivity || exact Ea)).
  - unfold HistogramSamplingGenerator_init in H.
    destruct (Rlt_dec 0 t); [|discriminate].
    destruct (Rlt_dec t 1); [|discriminate].
    destruct (assert_percentage p); [|discriminate]; injection H as <-; reflexivity.
  - unfold HistogramSamplingGenerator_init in H.
    destruct (Rlt_dec 0 t); [|discriminate].
    destruct (Rlt_dec t 1); [|discriminate].
    destruct (assert_percentage p) eqn:Ea; [|discriminate]; injection H as <-.
    apply assert_percentage_spec in Ea; simpl; tauto.
  - unfold DecompositionAndOutlierGenerator_init in H0.
    destruct (dec_inverse_transform dec); [|discriminate].
    destruct (assert_percentage _); [|discriminate]; injection H0 as <-; reflexivity.
  - unfold DecompositionAndOutlierGenerator_init in H0.
    destruct (dec_inverse_transform dec) eqn:Ei; [|discriminate].
    destruct (assert_percentage _); [|discriminate]; injection H0 as <-.
    simpl; split; [rewrite Ei; discriminate | assumption].
  - unfold DecompositionAndOutlierGenerator_init in H0.
    destruct (dec_inverse_transform dec); [|discriminate].
    destruct (assert_percentage _); [|discriminate]; injection H0 as <-; reflexivity.
Qed.
End Construction.

Lemma constructors_build_configured_generators_witness :
  tabular_data.configured (tabular_data.HistogramSamplingGenerator 10 (1 / 10) 10).
Proof.
  apply (proj1 (proj2 (proj2 constructors_build_configured_generators))
           10%Z (1 / 10)%R 10%nat).
  unfold tabular_data.HistogramSamplingGenerator_init.
  destruct (Rlt_dec 0 (1 / 10)); [|exfalso; lra].
  destruct (Rlt_dec (1 / 10) 1); [|exfalso; lra].
  reflexivity.
Defined.

Section Rejection.
Import tabular_data.

(** The assertions of the constructors: a percentage outside [0, 100], a
    threshold outside (0, 1) and a transformer without
    [inverse_transform] are refused with an AssertionError. *)
Theorem constructors_reject_bad_arguments :
  (forall p, ~ (0 <= p <= 100)%Z ->
     ZScoreSamplingGenerator_init p = Raise (AssertionError "") /\
     HypersphereSamplingGenerator_init p = Raise (AssertionError "") /\
     LowDensitySamplingGenerator_init p = Raise (AssertionError "") /\
     forall t b, HistogramSamplingGenerator_init p t b = Raise (AssertionError "")) /\
  (forall p t b, ~ (0 < t < 1)%R ->
     HistogramSamplingGenerator_init p t b = Raise (AssertionError "")) /\
  (forall dec d, dec_inverse_transform dec = None ->
     exists msg, DecompositionAndOutlierGenerator_init dec d
                 = Raise (AssertionError msg)).
Proof.
  split; [|split].
  - intros p Hp.
    assert (Ea : assert_percentage p = false).
    { destruct (assert_percentage p) eqn:E; [|reflexivity].
      apply assert_percentage_spec in E; contradiction. }
    unfold ZScoreSamplingGenerator_init, HypersphereSamplingGenerator_init,
      LowDensitySamplingGenerator_init, HistogramSamplingGenerator_init.
    rewrite Ea; repeat split; intros.
    destruct (Rlt_dec 0 t); [destruct (Rlt_dec t 1)|]; reflexivity.
  - intros p t b Ht; unfold HistogramSamplingGenerator_init.
    destruct (Rlt_dec 0 t); [destruct (Rlt_dec t 1)|]; try reflexivity.
    exfalso; apply Ht; split; assumption.
  - intros dec d Hd; unfold DecompositionAndOutlierGenerator_init; rewrite Hd.
    eexists; reflexivity.
Qed.
End Rejection.

Lemma constructors_reject_bad_arguments_witness :
  tabular_data.ZScoreSamplingGenerator_init 101 = Raise (AssertionError "").
Proof.
  apply (proj1 constructors_reject_bad_arguments 101%Z); lia.
Defined.

(* ------------------------------------------------------------------ *)
(** ** Tabular data: labels, widths and where the candidates come from *)

Section TabularShape.
Import tabular_data.
Context {G : Type} `{Generator G} `{Toolkit}.

Lemma inverse_transform_row_length sc row :
  (length row <= length (mean_ sc))%nat ->
  length (mean_ sc) = length (scale_ sc) ->
  length (inverse_transform_row sc row) = length row.
Proof.
  intros Hl Hm; unfold inverse_transform_row.
  rewrite length_map, !length_combine; lia.
Qed.

(** what a successful [ZScoreSamplingGenerator.generate] is made of *)
Lemma ZScoreSampling_inv p X (w : world G) Xo yt w' :
  ZScoreSampling_generate p X w = Ok (Xo, yt, w') ->
  exists sc outliers,
    fit X w = Ok (sc, w) /\
    Forall (fun row => length row = ncols X) outliers /\
    Xo = map (inverse_transform_row sc) outliers /\
    yt = outlier_labels (length outliers).
Proof.
  unfold ZScoreSampling_generate; intros E.
  apply bind_inv in E as (sc & w1 & Ef & E).
  pose proof (fit_inv X w sc w1 Ef) as (-> & _ & _ & Hm & Hs & _).
  apply bind_inv in E as (outliers & w2 & Er & E).
  apply bind_inv in E as (Xo' & w3 & Ei & E); injection E as <- <- _.
  apply inverse_transform_inv in Ei as (_ & _ & ->).
  rewrite ncols_transform in Er by assumption.
  exists sc, outliers; repeat split; auto.
  eapply Forall_impl;
    [|exact (replicateM_Forall _ _ (ZScore_row (ncols X)) _ _ _ _ Er)].
  intros row [Hl _]; exact Hl.
Qed.

(** what a successful [HypersphereSamplingGenerator.generate] is made of *)
Lemma HypersphereSampling_inv p X (w : world G) Xo yt w' :
  HypersphereSampling_generate p X w = Ok (Xo, yt, w') ->
  exists sc outliers,
    fit X w = Ok (sc, w) /\
    Forall (fun row => length row = ncols X) outliers /\
    Xo = map (inverse_transform_row sc) outliers /\
    yt = outlier_labels (length outliers).
Proof.
  unfold HypersphereSampling_generate; intros E.
  apply bind_inv in E as (sc & w1 & Ef & E).
  pose proof (fit_inv X w sc w1 Ef) as (-> & _ & Hpos & Hm & Hs & _).
  apply bind_inv in E as (outliers & w2 & Er & E).
  apply bind_inv in E as (Xo' & w3 & Ei & E); injection E as <- <- _.
  apply inverse_transform_inv in Ei as (_ & _ & ->).
  rewrite ncols_transform in Er by assumption.
  exists sc, outliers; repeat split; auto.
  eapply Forall_impl;
    [|exact (replicateM_Forall _ _
               (fun w0 a w0' => Hypersphere_row (ncols X) w0 a w0' Hpos) _ _ _ _ Er)].
  intros row [Hl _]; exact Hl.
Qed.

Lemma HistogramSampling_labels p t b X (w : world G) Xo yt w' :
  HistogramSampling_generate p t b X w = Ok (Xo, yt, w') ->
  yt = outlier_labels (length Xo).
Proof.
  unfold HistogramSampling_generate; intros E.
  destruct (5 <? ncols X)%nat; [discriminate|].
  apply bind_inv in E as (sc & w1 & Ef & E).
  destruct (histogramdd (transform sc X) b) as [hist edges].
  apply bind_inv in E as (coords & w2 & Ec & E).
  apply bind_inv in E as (outliers & w3 & Em & E).
  apply bind_inv in E as (Xo' & w4 & Ei & E); injection E as <- <- _.
  apply inverse_transform_inv in Ei as (_ & _ & ->).
  rewrite length_map; reflexivity.
Qed.

(** The labels of every tabular strategy: one "outliers" per returned
    row, and nothing else, whatever labels the caller passed in. *)
Theorem labels_are_outliers self : forall X y ps (w : world G) Xo yt self' w',
  transformers_keep_rows self ->
  generate self X y ps w = Ok (Xo, yt, self', w') ->
  yt = repeat "outliers"%string (length Xo).
Proof.
  induction self as [p|p|p t b|p de|dec g IH];
    intros X y ps w Xo yt self' w' Hk E; simpl in E.
  - apply bind_inv in E as ([Xo' yt'] & w1 & Eg & E); injection E as <- <- _ _.
    apply ZScoreSampling_inv in Eg as (sc & outliers & _ & _ & -> & ->).
    rewrite length_map; reflexivity.
  - apply bind_inv in E as ([Xo' yt'] & w1 & Eg & E); injection E as <- <- _ _.
    apply HypersphereSampling_inv in Eg as (sc & outliers & _ & _ & -> & ->).
    rewrite length_map; reflexivity.
  - apply bind_inv in E as ([Xo' yt'] & w1 & Eg & E); injection E as <- <- _ _.
    eapply HistogramSampling_labels; eassumption.
  - apply bind_inv in E as ([[Xo' yt'] de'] & w1 & Eg & E); injection E as <- <- _ _.
    apply LowDensitySampling_rows in Eg as (_ & _ & _ & _ & _ & _ & Hy & _).
    exact Hy.
  - destruct Hk as [[Hfwd Hinv] Hg].
    apply bind_inv in E as (sc & w1 & Ef & E).
    destruct (dec_fit_transform dec (transform sc X)) as [Xt|e]; [|discriminate].
    apply bind_inv in E as ([[Xo1 yt1] g'] & w2 & Eg & E).
    destruct (dec_inverse_transform dec) as [inv|] eqn:Einv; [|discriminate].
    apply bind_inv in E as (Xo2 & w3 & Ei & E); injection E as <- <- _ _.
    apply inverse_transform_inv in Ei as (_ & _ & ->).
    rewrite length_map, (Hinv inv _ _ eq_refl).
    eapply IH; eassumption.
Qed.

(** The rows returned by [ZScoreSamplingGenerator] and
    [HypersphereSamplingGenerator] have as many columns as the input. *)
Theorem sampled_rows_have_input_width :
  (forall p X y ps (w : world G) Xo yt self' w',
     generate (ZScoreSamplingGenerator p) X y ps w = Ok (Xo, yt, self', w') ->
     Forall (fun row => length row = ncols X) Xo) /\
  (forall p X y ps (w : world G) Xo yt self' w',
     generate (HypersphereSamplingGenerator p) X y ps w = Ok (Xo, yt, self', w') ->
     Forall (fun row => length row = ncols X) Xo).
Proof.
  split; intros p X y ps w Xo yt self' w' E; simpl in E;
    apply bind_inv in E as ([Xo' yt'] & w1 & Eg & E); injection E as <- _ _ _.
  - apply ZScoreSampling_inv in Eg as (sc & outliers & Ef & Hw & -> & _).
    apply fit_inv in Ef as (_ & _ & _ & Hm & Hs & _).
    apply Forall_map; eapply Forall_impl; [|exact Hw].
    intros row Hr; cbv beta in Hr |- *;
      rewrite inverse_transform_row_length; [exact Hr | rewrite Hm, Hr | rewrite Hm, Hs];
      reflexivity.
  - apply HypersphereSampling_inv in Eg as (sc & outliers & Ef & Hw & -> & _).
    apply fit_inv in Ef as (_ & _ & _ & Hm & Hs & _).
    apply Forall_map; eapply Forall_impl; [|exact Hw].
    intros row Hr; cbv beta in Hr |- *;
      rewrite inverse_transform_row_length; [exact Hr | rewrite Hm, Hr | rewrite Hm, Hs];
      reflexivity.
Qed.
End TabularShape.

Lemma labels_are_outliers_witness :
  exists Xo yt self' w',
    tabular_data.generate (tabular_data.ZScoreSamplingGenerator 100)
      two_points None [] (World 0%nat [])
    = Ok (Xo, yt, self', w') /\
    yt = repeat "outliers"%string (length Xo).
Proof.
  destruct (ZScoreSampling_returns 100 two_points (World 0%nat []) valid_two_points)
    as (Xo & yt & w' & E); [change (1 <= 2)%nat; lia|].
  assert (Eg : tabular_data.generate (tabular_data.ZScoreSamplingGenerator 100)
                 two_points None [] (World 0%nat [])
               = Ok (Xo, yt, tabular_data.ZScoreSamplingGenerator 100, w')).
  { simpl; unfold bind; rewrite E; reflexivity. }
  eexists _, _, _, _; split; [exact Eg|].
  exact (labels_are_outliers (tabular_data.ZScoreSamplingGenerator 100)
           _ _ _ _ _ _ _ _ I Eg).
Defined.

Lemma sampled_rows_have_input_width_witness :
  exists Xo yt self' w',
    tabular_data.generate (tabular_data.HypersphereSamplingGenerator 100)
      two_points None [] (World 0%nat [])
    = Ok (Xo, yt, self', w') /\
    Forall (fun row => length row = 1%nat) Xo.
Proof.
  destruct (HypersphereSampling_returns 100 two_points (World 0%nat []) valid_two_points)
    as (Xo & yt & w' & E); [change (1 <= 2)%nat; lia|].
  assert (Eg : tabular_data.generate (tabular_data.HypersphereSamplingGenerator 100)
                 two_points None [] (World 0%nat [])
               = Ok (Xo, yt, tabular_data.HypersphereSamplingGenerator 100, w')).
  { simpl; unfold bind; rewrite E; reflexivity. }
  eexists _, _, _, _; split; [exact Eg|].
  exact (proj2 sampled_rows_have_input_width _ _ _ _ _ _ _ _ _ Eg).
Defined.

(* ------------------------------------------------------------------ *)
(** ** Tabular data: LowDensitySamplingGenerator *)

Section LowDensity.
Import tabular_data.
Context {G : Type} `{Generator G} `{Toolkit}.

Lemma Rminimum_le_Rmaximum l : (Rminimum l <= Rmaximum l)%R.
Proof.
  destruct l as [|x l]; simpl; [lra|].
  assert (Hmin : (fold_right Rmin x l <= x)%R).
  { induction l as [|a l IH]; simpl; [lra|].
    eapply Rle_trans; [apply Rmin_r | exact IH]. }
  assert (Hmax : (x <= fold_right Rmax x l)%R).
  { clear Hmin; induction l as [|a l IH]; simpl; [lra|].
    eapply Rle_trans; [exact IH | apply Rmax_r]. }
  lra.
Qed.

Definition within (v : R) (bounds : R * R) : Prop :=
  (fst bounds <= v <= snd bounds)%R.

(** the bounding box of a matrix: per column, its minimum and maximum *)
Definition bounding_box (X : matrix) : list (R * R) :=
  combine (min_axis0 X) (max_axis0 X).

Lemma bounding_box_ordered X :
  Forall (fun b => (fst b <= snd b)%R) (bounding_box X).
Proof.
  unfold bounding_box, min_axis0, max_axis0.
  generalize (seq 0 (ncols X)); intros js.
  induction js as [|j js IH]; simpl; constructor; [apply Rminimum_le_Rmaximum | exact IH].
Qed.

Lemma bounding_box_length X : length (bounding_box X) = ncols X.
Proof.
  unfold bounding_box, min_axis0, max_axis0.
  rewrite length_combine, !length_map, length_seq; lia.
Qed.

(** one candidate: one uniform draw per column, inside the column's
    interval *)
Lemma candidate_within box : forall (w : world G) c w',
  Forall (fun b => (fst b <= snd b)%R) box ->
  mapM (fun '(low, high) => uniform low high) box w = Ok (c, w') ->
  Forall2 within c box.
Proof.
  induction box as [|[lo hi] box IH]; intros w c w' Hb E; simpl in E.
  - injection E as <- _; constructor.
  - inversion Hb as [|? ? Hlo Hrest]; subst; simpl in Hlo.
    apply bind_inv in E as (v & w1 & Ev & E).
    apply bind_inv in E as (vs & w2 & Evs & E); injection E as <- _.
    constructor; [|eapply IH; eassumption].
    unfold uniform, draw in Ev.
    pose proof (rng_uniform_range lo hi (rng w) Hlo) as Hr.
    destruct (rng_uniform lo hi (rng w)) as [v0 g']; injection Ev as <- _.
    exact Hr.
Qed.

(** what a successful [LowDensitySamplingGenerator.generate] is made of *)
Lemma LowDensitySampling_inv p X ps (w : world G) Xo yt de w' :
  LowDensitySampling_generate p X ps w = Ok (Xo, yt, de, w') ->
  exists sc outliers,
    fit X w = Ok (sc, w) /\
    Xo = map (inverse_transform_row sc) outliers /\
    Forall (fun c =>
              Forall2 within c (bounding_box (transform sc X)) /\
              (score_samples (transform sc X) c
               <= percentile (map (score_samples (transform sc X)) (transform sc X))
                             (1 / 10))%R) outliers.
Proof.
  unfold LowDensitySampling_generate; intros E.
  apply bind_inv in E as (sc & w1 & Ef & E).
  pose proof (fit_inv X w sc w1 Ef) as (-> & _).
  apply bind_inv in E as (candidates & w2 & Ec & E).
  fold (bounding_box (transform sc X)) in Ec.
  pose proof (replicateM_Forall _ _
                (fun w0 c w0' => candidate_within (bounding_box (transform sc X)) w0 c w0'
                                   (bounding_box_ordered _)) _ _ _ _ Ec) as Hbox.
  set (accept := fun x : list R =>
         if Rle_dec (score_samples (transform sc X) x)
                    (percentile (map (score_samples (transform sc X)) (transform sc X))
                                (1 / 10))
         then true else false) in E.
  assert (Hacc : Forall (fun c =>
              Forall2 within c (bounding_box (transform sc X)) /\
              (score_samples (transform sc X) c
               <= percentile (map (score_samples (transform sc X)) (transform sc X))
                             (1 / 10))%R) (filter accept candidates)).
  { apply Forall_forall; intros c Hc; apply filter_In in Hc as [Hin Ha].
    rewrite Forall_forall in Hbox; split; [apply Hbox; exact Hin|].
    unfold accept in Ha; destruct (Rle_dec _ _); [assumption | discriminate]. }
  apply bind_inv in E as (outliers & w3 & Eo & E).
  assert (Hout : Forall (fun c =>
              Forall2 within c (bounding_box (transform sc X)) /\
              (score_samples (transform sc X) c
               <= percentile (map (score_samples (transform sc X)) (transform sc X))
                             (1 / 10))%R) outliers).
  { destruct (_ <? _)%nat.
    - apply bind_inv in Eo as ([] & w4 & _ & Eo); injection Eo as <- _; exact Hacc.
    - injection Eo as <- _.
      apply Forall_forall; intros c Hc.
      rewrite Forall_forall in Hacc; apply Hacc.
      rewrite <- (firstn_skipn (n_outliers (length (transform sc X)) p)
                    (filter accept candidates)).
      apply in_or_app; left; exact Hc. }
  exists sc, outliers; split; [exact Ef|]; split; [|exact Hout].
  destruct (Nat.eqb_spec (length outliers) 0) as [Hz|Hpos].
  - injection E as <- _ _ _; destruct outliers; [reflexivity | discriminate].
  - apply bind_inv in E as (Xo' & w4 & Ei & E); injection E as <- _ _ _.
    apply inverse_transform_inv in Ei as (_ & _ & ->); reflexivity.
Qed.

(** Every point returned by [LowDensitySamplingGenerator.generate] has
    the input's width; standardized again with the scaler fitted on the
    same input it lies, column by column, between the minimum and the
    maximum of the standardized data, and its estimated density is at or
    below the threshold (the 0.1th percentile of the data's scores). *)
Theorem low_density_points_lie_in_the_box
        p de X y ps (w : world G) Xo yt self' w' sc :
  generate (LowDensitySamplingGenerator p de) X y ps w = Ok (Xo, yt, self', w') ->
  fit X w = Ok (sc, w) ->
  forall row, In row Xo ->
    length row = ncols X /\
    Forall2 within (transform_row sc row) (bounding_box (transform sc X)) /\
    (score_samples (transform sc X) (transform_row sc row)
     <= percentile (map (score_samples (transform sc X)) (transform sc X)) (1 / 10))%R.
Proof.
  intros E Ef row Hrow; simpl in E.
  apply bind_inv in E as ([[Xo' yt'] de'] & w1 & Eg & E); injection E as <- _ _ _.
  apply LowDensitySampling_inv in Eg as (sc' & outliers & Ef' & -> & Hall).
  rewrite Ef in Ef'; injection Ef' as <-.
  pose proof (fit_inv X w sc w Ef) as (_ & _ & _ & Hm & Hs & Hnz).
  apply in_map_iff in Hrow as (o & <- & Ho).
  rewrite Forall_forall in Hall; destruct (Hall o Ho) as [Hbox Hscore].
  assert (Hlen : length o = ncols X).
  { rewrite (Forall2_length Hbox), bounding_box_length.
    apply ncols_transform; assumption. }
  rewrite transform_inverse_transform_row by (assumption || lia).
  split; [|split; assumption].
  rewrite inverse_transform_row_length; [exact Hlen | lia | lia].
Qed.

(** The sampling budget: with [max_samples = m] among the keyword
    arguments, [LowDensitySamplingGenerator.generate] returns at most [m]
    rows; with a budget of 0 it returns none, and warns as soon as one
    outlier is due. *)
Theorem low_density_budget p de X y ps (w : world G) Xo yt self' w' m :
  params_get "max_samples" ps = Some m ->
  generate (LowDensitySamplingGenerator p de) X y ps w = Ok (Xo, yt, self', w') ->
  (length Xo <= m)%nat /\
  (m = 0%nat -> (1 <= n_outliers (length X) p)%nat -> warning_emitted w w').
Proof.
  intros Hp E; simpl in E.
  apply bind_inv in E as ([[Xo' yt'] de'] & w1 & Eg & E); injection E as <- _ _ <-.
  pose proof (LowDensitySampling_count _ _ _ _ _ _ _ _ Eg) as [_ Hw].
  apply LowDensitySampling_rows in Eg as (sc & cands & w2 & _ & Ec & Hl & _).
  rewrite Hp in Ec; apply replicateM_length in Ec.
  assert (Hle : (length Xo' <= m)%nat).
  { rewrite Hl, <- Ec.
    eapply Nat.le_trans; [apply Nat.le_min_r | apply filter_length_le]. }
  split; [exact Hle|].
  intros -> Hn; apply Hw; lia.
Qed.
End LowDensity.

Lemma low_density_points_lie_in_the_box_witness :
  exists Xo yt self' w',
    tabular_data.generate (tabular_data.LowDensitySamplingGenerator 100 None)
      unit_points None [] (World 0%nat [])
    = Ok (Xo, yt, self', w') /\
    forall row, In row Xo -> length row = 1%nat.
Proof.
  destruct LowDensity_unit_points as (Xo & yt & de & w' & E & _).
  assert (Eg : tabular_data.generate (tabular_data.LowDensitySamplingGenerator 100 None)
                 unit_points None [] (World 0%nat [])
               = Ok (Xo, yt, tabular_data.LowDensitySamplingGenerator 100 de, w')).
  { simpl; unfold bind; rewrite E; reflexivity. }
  eexists _, _, _, _; split; [exact Eg|].
  intros row Hrow.
  exact (proj1 (low_density_points_lie_in_the_box _ _ _ _ _ _ _ _ _ _ _ Eg
                  (fit_unit_points _) row Hrow)).
Defined.

Lemma low_density_budget_witness :
  exists Xo yt self' w',
    tabular_data.generate (tabular_data.LowDensitySamplingGenerator 100 None)
      unit_points None [("max_samples"%string, 0%nat)] (World 0%nat [])
    = Ok (Xo, yt, self', w') /\
    (length Xo <= 0)%nat.
Proof.
  destruct (LowDensitySampling_returns 100 unit_points
              [("max_samples"%string, 0%nat)] (World 0%nat []) valid_unit_points)
    as (Xo & yt & de & w' & E).
  assert (Eg : tabular_data.generate (tabular_data.LowDensitySamplingGenerator 100 None)
                 unit_points None [("max_samples"%string, 0%nat)] (World 0%nat [])
               = Ok (Xo, yt, tabular_data.LowDensitySamplingGenerator 100 de, w')).
  { simpl; unfold bind; rewrite E; reflexivity. }
  eexists _, _, _, _; split; [exact Eg|].
  exact (proj1 (low_density_budget 100 None unit_points None
                  [("max_samples"%string, 0%nat)] (World 0%nat [])
                  Xo yt _ w' 0%nat eq_refl Eg)).
Defined.

(* ------------------------------------------------------------------ *)
(** ** Tabular data: the histogram normalisation, and the labels *)

Section HistogramBins.
Import tabular_data.

Lemma count_le_count_max hist c :
  In c (map snd hist) -> (c <= count_max hist)%nat.
Proof.
  unfold count_max; induction hist as [|[k n] hist IH]; simpl; [tauto|].
  intros [<-|Hin]; [lia | specialize (IH Hin); lia].
Qed.

(** When some bin is empty (the smallest count is 0) and some bin is not,
    the code's normalisation is min-max scaling, and every normalised
    count lies between 0 and 1. *)
Theorem normalization_is_min_max_when_a_bin_is_empty hist c :
  count_min hist = 0%nat -> count_max hist <> 0%nat ->
  In c (map snd hist) ->
  normalize hist c = Some (min_max_scaling hist c) /\
  (0 <= min_max_scaling hist c <= 1)%R.
Proof.
  intros Hmin Hmax Hc; unfold normalize, min_max_scaling; rewrite Hmin.
  destruct (Nat.eqb_spec (count_max hist) 0); [contradiction|].
  simpl INR; rewrite !Rminus_0_r; split; [reflexivity|].
  pose proof (count_le_count_max hist c Hc) as Hle.
  assert (Hpos : (0 < INR (count_max hist))%R) by (apply lt_0_INR; lia).
  apply le_INR in Hle; pose proof (pos_INR c).
  split.
  - apply Rmult_le_pos; [assumption | left; apply Rinv_0_lt_compat; exact Hpos].
  - apply Rmult_le_reg_r with (INR (count_max hist)); [exact Hpos|].
    unfold Rdiv; rewrite Rmult_assoc, Rinv_l by lra; lra.
Qed.

Lemma normalization_is_min_max_when_a_bin_is_empty_witness :
  normalize [([0%nat], 4%nat); ([1%nat], 0%nat)] 4
  = Some (min_max_scaling [([0%nat], 4%nat); ([1%nat], 0%nat)] 4).
Proof.
  apply (normalization_is_min_max_when_a_bin_is_empty
           [([0%nat], 4%nat); ([1%nat], 0%nat)] 4).
  - reflexivity.
  - discriminate.
  - simpl; auto.
Defined.

(** Which bins the code takes for low density: when the counts are not
    all equal, exactly those whose count is at most
    [threshold * (max_count - min_count)]. *)
Theorem low_density_bins hist t coords :
  (count_min hist < count_max hist)%nat ->
  In coords (hist_coords_low_density hist t) <->
  exists c, In (coords, c) hist /\
            (INR c <= t * (INR (count_max hist) - INR (count_min hist)))%R.
Proof.
  intros Hlt; unfold hist_coords_low_density, norm_hist.
  assert (Hd : (0 < INR (count_max hist) - INR (count_min hist))%R).
  { apply lt_INR in Hlt; lra. }
  rewrite in_map_iff; split.
  - intros ([k v] & <- & Hin); apply filter_In in Hin as [Hin Hlow].
    apply in_map_iff in Hin as ([k' c] & E & Hin); injection E as -> <-.
    exists c; split; [exact Hin|].
    simpl in Hlow; unfold normalize in Hlow.
    destruct (Nat.eqb_spec (count_max hist) (count_min hist)); [lia|].
    simpl in Hlow; destruct (Rle_dec _ t) as [Hle|]; [|discriminate].
    apply (Rmult_le_compat_r _ _ _ (Rlt_le _ _ Hd)) in Hle.
    unfold Rdiv in Hle; rewrite Rmult_assoc, Rinv_l in Hle by lra; lra.
  - intros (c & Hin & Hle).
    exists (coords, normalize hist c); split; [reflexivity|].
    apply filter_In; split.
    + apply in_map_iff; exists (coords, c); split; [reflexivity | exact Hin].
    + simpl; unfold normalize.
      destruct (Nat.eqb_spec (count_max hist) (count_min hist)); [lia|].
      simpl; destruct (Rle_dec _ t) as [|Hn]; [reflexivity|].
      exfalso; apply Hn.
      apply Rmult_le_reg_r with (INR (count_max hist) - INR (count_min hist))%R;
        [exact Hd|].
      unfold Rdiv; rewrite Rmult_assoc, Rinv_l by lra; lra.
Qed.

Lemma low_density_bins_witness :
  In [1%nat] (hist_coords_low_density [([0%nat], 4%nat); ([1%nat], 0%nat)] (1 / 10)).
Proof.
  apply (low_density_bins [([0%nat], 4%nat); ([1%nat], 0%nat)] (1 / 10) [1%nat]).
  - simpl; lia.
  - exists 0%nat; split; [simpl; auto | simpl; lra].
Defined.

(** When all bins hold the same number of points the divisor is zero and
    no bin is of low density, whatever the threshold. *)
Theorem equal_counts_leave_no_low_density_bin hist t :
  count_max hist = count_min hist ->
  hist_coords_low_density hist t = [].
Proof.
  intros E; unfold hist_coords_low_density, norm_hist.
  assert (Hn : forall c, normalize hist c = None).
  { intros c; unfold normalize; rewrite E, Nat.eqb_refl; reflexivity. }
  generalize hist at 2; intros l; induction l as [|[k c] l IH]; simpl; [reflexivity|].
  rewrite Hn; simpl; exact IH.
Qed.

Lemma equal_counts_leave_no_low_density_bin_witness :
  hist_coords_low_density [([0%nat], 2%nat); ([1%nat], 2%nat)] (9 / 10) = [].
Proof.
  apply (equal_counts_leave_no_low_density_bin
           [([0%nat], 2%nat); ([1%nat], 2%nat)] (9 / 10)); reflexivity.
Defined.
End HistogramBins.

Section Labels.
Import tabular_data.
Context {G : Type} `{Generator G} `{Toolkit}.

(** The tabular strategies never read the labels they are given: whatever
    [y] is, the call does the same. *)
Theorem generate_ignores_labels self : forall X y y' ps (w : world G),
  generate self X y ps w = generate self X y' ps w.
Proof.
  induction self as [p|p|p t b|p de|dec g IH]; intros X y y' ps w;
    try reflexivity.
  simpl; unfold bind.
  destruct (fit X w) as [[sc w1]|]; [|reflexivity].
  destruct (dec_fit_transform dec (transform sc X)); [|reflexivity].
  rewrite (IH _ y y' [] w1); reflexivity.
Qed.
End Labels.

(* ------------------------------------------------------------------ *)
(** ** Time series: edge cases of the two strategies *)

Section TimeSeriesEdges.
Import time_series.
Context {G : Type} `{Generator G}.
Variable Y : Type.

(** Asking for more outliers than the array has rows: the index draw
    without replacement fails, in both strategies, before the array is
    touched; with "Cannot take a larger sample than population when
    replace is False" on an array that has rows, and with "a must be a
    positive integer unless no samples are taken" on an array without
    rows. *)
Theorem more_outliers_than_rows_raises
        (rz : RandomZerosGenerator) (lz : LocalZScoreGenerator)
        (X : ndarray) (y : Y) (w : world G) :
  (2 <= ndim X)%nat ->
  ((0 < hd 0%nat (shape X) < n_outliers rz)%nat ->
   RandomZeros_generate rz X y w
   = Raise (ValueError
       "Cannot take a larger sample than population when replace is False")) /\
  ((0 < hd 0%nat (shape X) < n_outliers (base lz))%nat ->
   LocalZScore_generate lz X y w
   = Raise (ValueError
       "Cannot take a larger sample than population when replace is False")) /\
  (hd 0%nat (shape X) = 0%nat -> (1 <= n_outliers rz)%nat ->
   RandomZeros_generate rz X y w
   = Raise (ValueError
       "a must be a positive integer unless no samples are taken")) /\
  (hd 0%nat (shape X) = 0%nat -> (1 <= n_outliers (base lz))%nat ->
   LocalZScore_generate lz X y w
   = Raise (ValueError
       "a must be a positive integer unless no samples are taken")).
Proof.
  intros Hd; unfold RandomZeros_generate, LocalZScore_generate, bind,
    choice_without_replacement.
  destruct (Nat.ltb_spec (ndim X) 2); [lia|].
  repeat split.
  - intros Hn.
    destruct (Nat.eqb_spec (hd 0%nat (shape X)) 0); [lia|]; simpl.
    destruct (Nat.ltb_spec (hd 0%nat (shape X)) (n_outliers rz)); [reflexivity | lia].
  - intros Hn.
    destruct (Nat.eqb_spec (hd 0%nat (shape X)) 0); [lia|]; simpl.
    destruct (Nat.ltb_spec (hd 0%nat (shape X)) (n_outliers (base lz)));
      [reflexivity | lia].
  - intros Hz Hn; rewrite Hz; simpl.
    destruct (Nat.eqb_spec (n_outliers rz) 0); [lia | reflexivity].
  - intros Hz Hn; rewrite Hz; simpl.
    destruct (Nat.eqb_spec (n_outliers (base lz)) 0); [lia | reflexivity].
Qed.

(** With no outlier to generate both strategies return the array as it
    came and record no index. *)
Theorem no_outliers_no_change
        (rz : RandomZerosGenerator) (lz : LocalZScoreGenerator)
        (X : ndarray) (y : Y) (w : world G) :
  (2 <= ndim X)%nat ->
  (n_outliers rz = 0%nat ->
   exists self' w',
     RandomZeros_generate rz X y w = Ok (X, y, self', w') /\
     outliers_indices_ self' = []) /\
  (n_outliers (base lz) = 0%nat ->
   exists self' w',
     LocalZScore_generate lz X y w = Ok (X, y, self', w') /\
     outliers_indices_ (base self') = []).
Proof.
  intros Hd; split; intros Hn.
  - unfold RandomZeros_generate.
    destruct (Nat.ltb_spec (ndim X) 2); [lia|].
    rewrite Hn, choice_without_replacement_ok by lia; unfold bind, draw; simpl.
    pose proof (rng_sample_length (hd 0%nat (shape X)) 0 (rng w) (Nat.le_0_l _)) as Hl.
    destruct (rng_sample (hd 0%nat (shape X)) 0 (rng w)) as [idxs g']; simpl in Hl.
    destruct idxs; [|discriminate]; simpl.
    eexists _, _; split; reflexivity.
  - unfold LocalZScore_generate.
    destruct (Nat.ltb_spec (ndim X) 2); [lia|].
    rewrite Hn, choice_without_replacement_ok by lia; unfold bind, draw; simpl.
    pose proof (rng_sample_length (hd 0%nat (shape X)) 0 (rng w) (Nat.le_0_l _)) as Hl.
    destruct (rng_sample (hd 0%nat (shape X)) 0 (rng w)) as [idxs g']; simpl in Hl.
    destruct idxs; [|discriminate]; simpl.
    eexists _, _; split; reflexivity.
Qed.
End TimeSeriesEdges.

Lemma more_outliers_than_rows_raises_witness :
  time_series.RandomZeros_generate
    (time_series.OutliersGenerator_init 10) three_rows tt (World 0%nat [])
  = Raise (ValueError
      "Cannot take a larger sample than population when replace is False").
Proof.
  apply (proj1 (more_outliers_than_rows_raises unit
                  (time_series.OutliersGenerator_init 10)
                  (time_series.LocalZScoreGenerator_init 10 10)
                  three_rows tt (World 0%nat []) (Nat.le_refl 2))).
  simpl; lia.
Defined.

Lemma no_outliers_no_change_witness :
  exists self' w',
    time_series.LocalZScore_generate
      (time_series.LocalZScoreGenerator_init 0 10) three_rows tt (World 0%nat [])
    = Ok (three_rows, tt, self', w') /\
    time_series.outliers_indices_ (time_series.base self') = [].
Proof.
  apply (proj2 (no_outliers_no_change unit
                  (time_series.OutliersGenerator_init 0)
                  (time_series.LocalZScoreGenerator_init 0 10)
                  three_rows tt (World 0%nat []) (Nat.le_refl 2))).
  reflexivity.
Defined.

(* ------------------------------------------------------------------ *)
(** ** Time series: the local window away from the start, degenerate
       window sizes, and the shape of the result *)

Section Windows.
Import time_series.
Context {G : Type} `{Generator G}.
Variable Y : Type.

(** For an index at least a half window away from the start the window
    is [X[idx - h : min(n, idx + h)]]: at most [2 h] consecutive rows,
    cut at the end of the array, with row [idx] itself at position [h]. *)
Theorem window_away_from_the_start (self : LocalZScoreGenerator) (X : ndarray) (idx : nat) :
  (1 <= half_window self <= Z.of_nat idx)%Z ->
  (idx < length (items X))%nat ->
  local_window self X idx
  = firstn (Z.to_nat (Z.min (Z.of_nat idx + half_window self)
                            (Z.of_nat (length (items X)))
                      - (Z.of_nat idx - half_window self)))
           (skipn (Z.to_nat (Z.of_nat idx - half_window self)) (items X)) /\
  nth_error (local_window self X idx) (Z.to_nat (half_window self))
  = nth_error (items X) idx /\
  (length (local_window self X idx) <= 2 * Z.to_nat (half_window self))%nat.
Proof.
  intros Hh Hi.
  assert (E : local_window self X idx
              = firstn (Z.to_nat (Z.min (Z.of_nat idx + half_window self)
                                        (Z.of_nat (length (items X)))
                                  - (Z.of_nat idx - half_window self)))
                       (skipn (Z.to_nat (Z.of_nat idx - half_window self)) (items X))).
  { unfold local_window, slice, slice_bound.
    destruct (Z.ltb_spec (Z.of_nat idx - half_window self) 0); [lia|].
    destruct (Z.ltb_spec (Z.of_nat idx + half_window self) 0); [lia|].
    rewrite (Z.min_l (Z.of_nat idx - half_window self)) by lia; reflexivity. }
  split; [exact E|]; rewrite E; split.
  - rewrite nth_error_firstn, nth_error_skipn.
    match goal with |- context [(?a <? ?b)%nat] => destruct (Nat.ltb_spec a b) end;
      [f_equal; lia | lia].
  - rewrite length_firstn; lia.
Qed.

Lemma half_window_small (self : LocalZScoreGenerator) :
  (-2 < local_window_size self < 2)%Z -> half_window self = 0%Z.
Proof.
  intros Hw; unfold half_window.
  assert (Hc : local_window_size self = (-1)%Z \/ local_window_size self = 0%Z
               \/ local_window_size self = 1%Z) by lia.
  destruct Hc as [-> | [-> | ->]]; reflexivity.
Qed.

Lemma empty_window_when_no_half (self : LocalZScoreGenerator) X idx :
  half_window self = 0%Z -> local_window self X idx = [].
Proof.
  intros Hh; unfold local_window; rewrite Hh.
  apply slice_empty; rewrite Z.sub_0_r, Z.add_0_r; lia.
Qed.

(** the loop when every window is empty *)
Lemma nan_loop self idxs : forall X (w : world G),
  half_window self = 0%Z ->
  ndim X = 2%nat ->
  Forall (fun i => (i < length (items X))%nat) idxs ->
  exists X' w',
    foldM (LocalZScore_step self) X idxs w = Ok (X', w') /\
    shape X' = shape X /\
    (forall i, In i idxs ->
               nth_error (items X') i = Some (repeat NaN (item_size X))) /\
    (forall i, ~ In i idxs -> nth_error (items X') i = nth_error (items X) i).
Proof.
  induction idxs as [|idx idxs IH]; intros X w Hh Hd Hr; simpl.
  - exists X, w; repeat split; auto. intros i [].
  - inversion Hr as [|? ? Hidx Hrest]; subst.
    destruct (LocalZScore_value_ok self X idx w Hd) as (sign & e & w1 & E & _).
    rewrite (empty_window_when_no_half self X idx Hh),
      mean_axis0_empty, std_axis0_empty, outlier_value_NaN in E.
    unfold bind at 1, LocalZScore_step, bind at 1; rewrite E.
    rewrite setitem_ok by assumption.
    set (X1 := Array (shape X) (set_nth idx (repeat NaN (item_size X)) (items X))).
    destruct (IH X1 w1 Hh) as (X' & w' & E' & Hs & Hin & Hout).
    { exact Hd. }
    { unfold X1; simpl; rewrite set_nth_length; exact Hrest. }
    exists X', w'; split; [exact E'|]; split; [rewrite Hs; reflexivity|]; split.
    + intros i Hi.
      destruct (in_dec Nat.eq_dec i idxs) as [Hii|Hni]; [apply Hin; exact Hii|].
      destruct Hi as [->|Hi]; [|contradiction].
      rewrite (Hout i Hni); unfold X1; simpl; apply set_nth_same; assumption.
    + intros i Hi.
      rewrite Hout by (intros Hc; apply Hi; right; exact Hc).
      unfold X1; simpl; apply set_nth_other.
      intros ->; apply Hi; left; reflexivity.
Qed.

(** A window size of -1, 0 or 1 has a half window of 0, so every window
    is empty: [LocalZScoreGenerator.generate] turns every selected row
    into NaN, and leaves the other rows alone. *)
Theorem tiny_window_writes_NaN
        (self : LocalZScoreGenerator) (X : ndarray) (y : Y) (w : world G) :
  (-2 < local_window_size self < 2)%Z ->
  ndim X = 2%nat -> well_formed X ->
  (n_outliers (base self) <= length (items X))%nat ->
  exists X' self' w',
    LocalZScore_generate self X y w = Ok (X', y, self', w') /\
    length (outliers_indices_ (base self')) = n_outliers (base self) /\
    (forall i, In i (outliers_indices_ (base self')) ->
               nth_error (items X') i = Some (repeat NaN (item_size X))) /\
    (forall i, ~ In i (outliers_indices_ (base self')) ->
               nth_error (items X') i = nth_error (items X) i).
Proof.
  intros Hw Hd Hwf Hn.
  unfold LocalZScore_generate.
  destruct (Nat.ltb_spec (ndim X) 2) as [|_]; [lia|].
  rewrite shape0_rows by (assumption || lia).
  rewrite choice_without_replacement_ok by exact Hn.
  unfold bind at 1, draw.
  pose proof (rng_sample_length (length (items X)) (n_outliers (base self)) (rng w) Hn)
    as Hlen.
  pose proof (rng_sample_range (length (items X)) (n_outliers (base self)) (rng w) Hn)
    as Hrange.
  destruct (rng_sample (length (items X)) (n_outliers (base self)) (rng w))
    as [idxs g'].
  simpl in Hlen, Hrange.
  destruct (nan_loop self idxs X (World g' (warned w)) (half_window_small self Hw)
              Hd Hrange) as (X' & w' & E & _ & Hin & Hout).
  unfold bind; rewrite E.
  eexists X', _, w'; split; [reflexivity|]; simpl.
  split; [exact Hlen|]; split; assumption.
Qed.
End Windows.

Lemma window_away_from_the_start_witness :
  nth_error (time_series.local_window
               (time_series.LocalZScoreGenerator_init 1 2) three_rows 1) 1
  = nth_error (time_series.items three_rows) 1.
Proof.
  apply (window_away_from_the_start
           (time_series.LocalZScoreGenerator_init 1 2) three_rows 1).
  - split; [vm_compute; discriminate | vm_compute; discriminate].
  - simpl; lia.
Defined.

Lemma tiny_window_writes_NaN_witness :
  exists X' self' w',
    time_series.LocalZScore_generate
      (time_series.LocalZScoreGenerator_init 1 1) three_rows tt (World 0%nat [])
    = Ok (X', tt, self', w') /\
    length (time_series.outliers_indices_ (time_series.base self')) = 1%nat.
Proof.
  destruct (tiny_window_writes_NaN unit
              (time_series.LocalZScoreGenerator_init 1 1) three_rows tt (World 0%nat []))
    as (X' & self' & w' & E & Hl & _).
  - simpl; lia.
  - reflexivity.
  - split; [reflexivity | repeat constructor].
  - simpl; lia.
  - exists X', self', w'; split; [exact E | exact Hl].
Defined.

Section ShapeKept.
Import time_series.
Context {G : Type} `{Generator G}.
Variable Y : Type.

Lemma Forall_set_nth {A} (P : A -> Prop) i v (l : list A) :
  Forall P l -> P v -> Forall P (set_nth i v l).
Proof.
  intros Hl Hv; revert i; induction Hl as [|x l Hx Hl IH]; intros [|i]; simpl;
    constructor; auto.
Qed.

Lemma setitem_inv X idx v (w : world G) X' w' :
  setitem X idx v w = Ok (X', w') ->
  w' = w /\ X' = Array (shape X) (set_nth idx v (items X)).
Proof.
  unfold setitem; destruct (idx <? _)%nat; [|discriminate].
  intros E; injection E as <- <-; split; reflexivity.
Qed.

Lemma LocalZScore_value_length self X idx (w : world G) v w' :
  LocalZScore_value self X idx w = Ok (v, w') -> length v = item_size X.
Proof.
  unfold LocalZScore_value; intros E.
  apply bind_inv in E as (sign & w1 & _ & E).
  apply bind_inv in E as (e & w2 & _ & E).
  destruct (broadcastable X); [|discriminate].
  injection E as <- _; apply outlier_value_length.
Qed.

(** a loop of row assignments of the right width keeps the array
    well formed *)
Lemma row_loop_keeps_shape (step : ndarray -> nat -> M G ndarray) :
  (forall X idx w X' w',
     step X idx w = Ok (X', w') ->
     exists v, X' = Array (shape X) (set_nth idx v (items X)) /\
               (well_formed X -> length v = item_size X)) ->
  forall idxs X w X' w',
    foldM step X idxs w = Ok (X', w') ->
    well_formed X ->
    shape X' = shape X /\ well_formed X'.
Proof.
  intros Hstep; induction idxs as [|idx idxs IH]; intros X w X' w' E Hwf; simpl in E.
  - injection E as <- _; split; [reflexivity | exact Hwf].
  - apply bind_inv in E as (X1 & w1 & E1 & E).
    destruct (Hstep _ _ _ _ _ E1) as (v & -> & Hv).
    specialize (Hv Hwf).
    destruct (IH _ _ _ _ E) as [Hs Hwf'].
    + destruct Hwf as [Hl Hrows]; split; simpl.
      * rewrite set_nth_length; exact Hl.
      * apply Forall_set_nth; assumption.
    + split; assumption.
Qed.

(** Both time-series strategies return an array of the input's shape:
    whenever [generate] returns on a well-formed array, the result has
    the same shape and every row keeps its width. *)
Theorem time_series_generate_keeps_shape :
  (forall (self : RandomZerosGenerator) X (y : Y) (w : world G) X' y' self' w',
     well_formed X ->
     RandomZeros_generate self X y w = Ok (X', y', self', w') ->
     shape X' = shape X /\ well_formed X' /\ y' = y) /\
  (forall (self : LocalZScoreGenerator) X (y : Y) (w : world G) X' y' self' w',
     well_formed X ->
     LocalZScore_generate self X y w = Ok (X', y', self', w') ->
     shape X' = shape X /\ well_formed X' /\ y' = y).
Proof.
  split; intros self X y w X' y' self' w' Hwf E.
  - unfold RandomZeros_generate in E.
    destruct (ndim X <? 2)%nat; [discriminate|].
    apply bind_inv in E as (idxs & w1 & _ & E).
    apply bind_inv in E as (X1 & w2 & El & E); injection E as <- <- _ _.
    enough (Hstep : forall X0 idx w0 X0' w0',
              fill (G := G) X0 idx (Fin 0) w0 = Ok (X0', w0') ->
              exists v, X0' = Array (shape X0) (set_nth idx v (items X0)) /\
                        (well_formed X0 -> length v = item_size X0)).
    { destruct (row_loop_keeps_shape _ Hstep idxs X w1 X1 w2 El Hwf) as [Hs Hw].
      split; [exact Hs | split; [exact Hw | reflexivity]]. }
    intros X0 idx w0 X0' w0' E0; unfold fill, setitem in E0.
    destruct (Nat.ltb_spec idx (length (items X0))) as [Hlt|Hge]; [|discriminate].
    injection E0 as <- _.
    eexists; split; [reflexivity|].
    intros [Hl Hrows]; rewrite length_map.
    rewrite Forall_forall in Hrows; apply Hrows, nth_In; exact Hlt.
  - unfold LocalZScore_generate in E.
    destruct (ndim X <? 2)%nat; [discriminate|].
    apply bind_inv in E as (idxs & w1 & _ & E).
    apply bind_inv in E as (X1 & w2 & El & E); injection E as <- <- _ _.
    enough (Hstep : forall X0 idx w0 X0' w0',
              LocalZScore_step self X0 idx w0 = Ok (X0', w0') ->
              exists v, X0' = Array (shape X0) (set_nth idx v (items X0)) /\
                        (well_formed X0 -> length v = item_size X0)).
    { destruct (row_loop_keeps_shape _ Hstep idxs X w1 X1 w2 El Hwf) as [Hs Hw].
      split; [exact Hs | split; [exact Hw | reflexivity]]. }
    intros X0 idx w0 X0' w0' E0; unfold LocalZScore_step in E0.
    apply bind_inv in E0 as (v & w3 & Ev & E0).
    apply setitem_inv in E0 as (_ & ->).
    exists v; split; [reflexivity|].
    intros _; eapply LocalZScore_value_length; exact Ev.
Qed.
End ShapeKept.

Lemma time_series_generate_keeps_shape_witness :
  exists X' self' w',
    time_series.RandomZeros_generate
      (time_series.OutliersGenerator_init 2) three_rows tt (World 0%nat [])
    = Ok (X', tt, self', w') /\
    time_series.shape X' = [3; 2]%nat /\ time_series.well_formed X'.
Proof.
  assert (E : time_series.RandomZeros_generate
                (time_series.OutliersGenerator_init 2) three_rows tt (World 0%nat [])
              = Ok (time_series.Array [3; 2]%nat
                      [[Fin 0; Fin 0]; [Fin 0; Fin 0]; [Fin 5; Fin 6]], tt,
                    time_series.Build_OutliersGenerator 2 [0; 1]%nat,
                    World 1%nat [])) by reflexivity.
  eexists _, _, _; split; [exact E|].
  assert (Hwf : time_series.well_formed three_rows)
    by (split; [reflexivity | repeat constructor]).
  destruct (proj1 (time_series_generate_keeps_shape unit) _ _ _ _ _ _ _ _ Hwf E)
    as (Hs & Hw & _).
  split; [exact Hs | exact Hw].
Defined.

(* ------------------------------------------------------------------ *)
(** ** Tabular data: where HistogramSamplingGenerator puts its points *)

Section HistogramPoints.
Import tabular_data.
Context {G : Type} `{Generator G} `{Toolkit}.

Lemma mapM_Forall2 {A B} (R : B -> A -> Prop) (f : A -> M G B) xs :
  (forall x w b w', In x xs -> f x w = Ok (b, w') -> R b x) ->
  forall w l w', mapM f xs w = Ok (l, w') -> Forall2 R l xs.
Proof.
  induction xs as [|x xs IH]; intros Hf w l w' E; simpl in E.
  - injection E as <- _; constructor.
  - apply bind_inv in E as (b & w1 & Eb & E).
    apply bind_inv in E as (bs & w2 & Ebs & E); injection E as <- _.
    constructor.
    + eapply Hf; [left; reflexivity | exact Eb].
    + eapply IH; [|exact Ebs].
      intros x0 w0 b0 w0' Hin; apply Hf; right; exact Hin.
Qed.

Lemma Forall2_nth_error_r {A B} (R : A -> B -> Prop) l l' i y :
  Forall2 R l l' -> nth_error l' i = Some y ->
  exists x, nth_error l i = Some x /\ R x y.
Proof.
  intros HF; revert i; induction HF as [|a b l l' Hab HF IH]; intros [|i] E;
    simpl in *; try discriminate.
  - injection E as <-; eauto.
  - apply IH; exact E.
Qed.

Lemma nth_error_combine_seq {A} (l : list A) : forall s i c,
  nth_error l i = Some c ->
  nth_error (combine (seq s (length l)) l) i = Some ((s + i)%nat, c).
Proof.
  induction l as [|a l IH]; intros s [|i] c E; simpl in *; try discriminate.
  - injection E as <-; rewrite Nat.add_0_r; reflexivity.
  - rewrite (IH (S s) i c E); do 2 f_equal; lia.
Qed.

Lemma nth_error_enumerate {A} (l : list A) i c :
  nth_error l i = Some c -> nth_error (enumerate l) i = Some (i, c).
Proof. intros E; apply (nth_error_combine_seq l 0 i c E). Qed.
Lemma In_combine_seq {A} (l : list A) : forall s j c,
  In (j, c) (combine (seq s (length l)) l) ->
  exists i, j = (s + i)%nat /\ nth_error l i = Some c.
Proof.
  induction l as [|a l IH]; intros s j c Hin; simpl in Hin; [contradiction|].
  destruct Hin as [E|Hin].
  - injection E as <- <-; exists 0%nat; split; [lia | reflexivity].
  - destruct (IH (S s) j c Hin) as (i & -> & E).
    exists (S i); split; [lia | exact E].
Qed.

Lemma In_enumerate {A} (l : list A) i c :
  In (i, c) (enumerate l) -> nth_error l i = Some c.
Proof.
  intros Hin; destruct (In_combine_seq l 0 i c Hin) as (k & -> & E); exact E.
Qed.

(** edge [c] of dimension [i] *)
Definition edge (edges : list (list R)) (i c : nat) : R :=
  nth c (nth i edges []) 0%R.

(** what [numpy.histogramdd] guarantees of the cells the generator
    samples from: one coordinate per column, between two consecutive,
    ordered edges *)
Definition ordered_bins (edges : list (list R)) (cells : list (list nat)) (d : nat)
  : Prop :=
  forall coords, In coords cells ->
    length coords = d /\
    forall i c, nth_error coords i = Some c ->
                (edge edges i c <= edge edges i (S c))%R.

(** a point inside the cell of coordinates [coords] *)
Definition in_cell (edges : list (list R)) (coords : list nat) (v : list R) : Prop :=
  length v = length coords /\
  forall i c, nth_error coords i = Some c ->
    exists x, nth_error v i = Some x /\
              (edge edges i c <= x <= edge edges i (S c))%R.

Lemma choice_with_replacement_In {A} (a : list A) k (w : world G) l w' :
  choice_with_replacement a k w = Ok (l, w') -> Forall (fun x => In x a) l.
Proof.
  unfold choice_with_replacement; destruct a as [|d a'].
  - destruct (k =? 0)%nat; [|discriminate].
    intros E; injection E as <- _; constructor.
  - unfold draw; intros E.
    pose proof (rng_integers_range (length (d :: a')) k (rng w)) as Hr.
    destruct (rng_integers (length (d :: a')) k (rng w)) as [js g'].
    injection E as <- _; simpl fst in Hr.
    apply Forall_forall; intros x Hx.
    apply in_map_iff in Hx as (j & <- & Hj).
    change (In (nth j (d :: a') d) (d :: a')).
    apply nth_In.
    rewrite Forall_forall in Hr; apply Hr; [simpl; lia | exact Hj].
Qed.

(** one point: a uniform draw per coordinate, between the edges of the
    chosen bin *)
Lemma histogram_point_in_cell edges coords (w : world G) v w' :
  (forall i c, nth_error coords i = Some c ->
               (edge edges i c <= edge edges i (S c))%R) ->
  mapM (fun '(i, c) => uniform (nth c (nth i edges []) 0%R)
                               (nth (S c) (nth i edges []) 0%R))
       (enumerate coords) w = Ok (v, w') ->
  in_cell edges coords v.
Proof.
  intros Hord E.
  assert (HF : Forall2 (fun x (ic : nat * nat) =>
                          (edge edges (fst ic) (snd ic) <= x
                           <= edge edges (fst ic) (S (snd ic)))%R)
                       v (enumerate coords)).
  { eapply mapM_Forall2; [|exact E].
    intros [i c] w0 x w0' Hin Ex; simpl.
    apply In_enumerate in Hin.
    unfold uniform, draw in Ex.
    pose proof (rng_uniform_range _ _ (rng w0) (Hord i c Hin)) as Hr.
    unfold edge in Hr.
    destruct (rng_uniform _ _ (rng w0)) as [x0 g']; injection Ex as <- _.
    exact Hr. }
  split.
  - rewrite (Forall2_length HF); unfold enumerate.
    rewrite length_combine, length_seq; lia.
  - intros i c Hc.
    destruct (Forall2_nth_error_r _ _ _ i (i, c) HF (nth_error_enumerate _ _ _ Hc))
      as (x & Ex & Hx).
    exists x; split; [exact Ex | exact Hx].
Qed.

(** Every point returned by [HistogramSamplingGenerator.generate],
    standardized again with the scaler fitted on the same input, lies in
    one of the bins taken for low density: coordinate by coordinate
    between the two edges of that bin. *)
Theorem histogram_points_lie_in_low_density_bins
        p t b X y ps (w : world G) Xo yt self' w' sc :
  generate (HistogramSamplingGenerator p t b) X y ps w = Ok (Xo, yt, self', w') ->
  fit X w = Ok (sc, w) ->
  ordered_bins (snd (histogramdd (transform sc X) b))
    (hist_coords_low_density (fst (histogramdd (transform sc X) b)) t) (ncols X) ->
  forall row, In row Xo ->
    exists coords,
      In coords (hist_coords_low_density (fst (histogramdd (transform sc X) b)) t) /\
      in_cell (snd (histogramdd (transform sc X) b)) coords (transform_row sc row).
Proof.
  intros E Ef Hord row Hrow; simpl in E.
  apply bind_inv in E as ([Xo' yt'] & w1 & E & E'); injection E' as <- _ _ _.
  unfold HistogramSampling_generate in E.
  destruct (5 <? ncols X)%nat; [discriminate|].
  unfold bind at 1 in E; rewrite Ef in E.
  pose proof (fit_inv X w sc w Ef) as (_ & _ & _ & Hm & Hs & Hnz).
  destruct (histogramdd (transform sc X) b) as [hist edges]; simpl in Hord |- *.
  apply bind_inv in E as (chosen & w2 & Ec & E).
  apply choice_with_replacement_In in Ec.
  apply bind_inv in E as (outliers & w3 & Em & E).
  apply bind_inv in E as (Xo2 & w4 & Ei & E); injection E as <- _ _.
  apply inverse_transform_inv in Ei as (_ & _ & ->).
  apply in_map_iff in Hrow as (o & <- & Ho).
  assert (HF : Forall2 (fun v coords => in_cell edges coords v) outliers chosen).
  { eapply mapM_Forall2; [|exact Em].
    intros coords w0 v w0' Hin Ev.
    rewrite Forall_forall in Ec.
    eapply histogram_point_in_cell; [|exact Ev].
    apply (Hord coords (Ec coords Hin)). }
  apply In_nth_error in Ho as (k & Ek).
  assert (Hk : exists coords, nth_error chosen k = Some coords /\ in_cell edges coords o).
  { clear - HF Ek; revert k Ek; induction HF as [|v c l l' Hvc HF IH]; intros [|k] Ek;
      simpl in *; try discriminate.
    - injection Ek as <-; eauto.
    - apply IH; exact Ek. }
  destruct Hk as (coords & Ecoords & Hcell).
  apply nth_error_In in Ecoords.
  rewrite Forall_forall in Ec; specialize (Ec coords Ecoords).
  exists coords; split; [exact Ec|].
  rewrite transform_inverse_transform_row; [exact Hcell | | lia | exact Hnz].
  destruct Hcell as [Hl _]; rewrite Hl, (proj1 (Hord coords Ec)); lia.
Qed.
End HistogramPoints.

(** the histogram of the two points with three bins *)
Section ThreeBins.
Import tabular_data.

Lemma edges_unit_points : Toy.edges_of [(-1)%R; 1%R] 3 = Toy.linspace (-1) 1 3.
Proof.
  unfold Toy.edges_of, Rminimum, Rmaximum; simpl fold_right.
  assert (Emin : Rmin 1 (-1) = (-1)%R) by (unfold Rmin; destruct (Rle_dec _ _); lra).
  assert (Emax : Rmax 1 (-1) = 1%R) by (unfold Rmax; destruct (Rle_dec _ _); lra).
  rewrite Emin, Emax.
  destruct (Req_dec_T (-1) 1); [lra | reflexivity].
Qed.

Lemma bin_of_low : Toy.bin_of (Toy.linspace (-1) 1 3) (-1) = 0%nat.
Proof.
  unfold Toy.bin_of, Toy.linspace; simpl.
  repeat match goal with |- context [Rle_dec ?a ?b] =>
    destruct (Rle_dec a b); [exfalso; lra|] end.
  reflexivity.
Qed.

Lemma bin_of_high : Toy.bin_of (Toy.linspace (-1) 1 3) 1 = 2%nat.
Proof.
  unfold Toy.bin_of, Toy.linspace; simpl.
  repeat match goal with |- context [Rle_dec ?a ?b] =>
    destruct (Rle_dec a b); [|exfalso; lra] end.
  reflexivity.
Qed.

Lemma toy_histogram_unit_points :
  Toy.histogramdd unit_points 3
  = ([([0%nat], 1%nat); ([1%nat], 0%nat); ([2%nat], 1%nat)], [Toy.linspace (-1) 1 3]).
Proof.
  unfold Toy.histogramdd.
  change (ncols unit_points) with 1%nat.
  change (map (fun j => Toy.edges_of (col j unit_points) 3) (seq 0 1))
    with [Toy.edges_of [(-1)%R; 1%R] 3].
  rewrite edges_unit_points.
  unfold unit_points; cbn [Toy.cells flat_map seq map app filter combine].
  rewrite bin_of_low, bin_of_high.
  reflexivity.
Qed.
End ThreeBins.

Section HistogramReturns.
Import tabular_data.
Context {G : Type} `{Generator G} `{Toolkit}.
Lemma HistogramSampling_returns p t b X (w : world G) sc :
  (ncols X <= 5)%nat ->
  fit X w = Ok (sc, w) ->
  hist_coords_low_density (fst (histogramdd (transform sc X) b)) t <> [] ->
  (1 <= n_outliers (length X) p)%nat ->
  exists Xo yt w', HistogramSampling_generate p t b X w = Ok (Xo, yt, w').
Proof.
  intros Hc Ef Hlow Hn; unfold HistogramSampling_generate.
  destruct (Nat.ltb_spec 5 (ncols X)); [lia|].
  unfold bind at 1; rewrite Ef; cbv beta iota.
  destruct (histogramdd (transform sc X) b) as [hist edges]; simpl in Hlow.
  replace (length (transform sc X)) with (length X)
    by (unfold transform; rewrite length_map; reflexivity).
  destruct (hist_coords_low_density hist t) as [|c0 low] eqn:El; [contradiction|].
  assert (Ec : exists chosen w1,
             choice_with_replacement (c0 :: low) (n_outliers (length X) p) w
             = Ok (chosen, w1)) by apply draw_total.
  destruct Ec as (chosen & w1 & Ec).
  unfold bind at 1; rewrite Ec; cbv beta iota.
  match goal with |- context [mapM ?f chosen] =>
    destruct (mapM_total f) with (xs := chosen) (w := w1) as (outliers & w2 & Em) end.
  { intros coords w0; apply mapM_total; intros [i c] w3; apply draw_total. }
  unfold bind at 1; rewrite Em; cbv beta iota; unfold bind.
  rewrite inverse_transform_nonempty; [eexists _, _, _; reflexivity|].
  apply nonempty_of_length.
  rewrite (mapM_length _ _ _ _ _ Em).
  apply choice_with_replacement_length in Ec as [-> _]; exact Hn.
Qed.
End HistogramReturns.

Section ThreeBinsWitness.
Import tabular_data.

(** The theorem at work: the two points with three bins; the middle bin
    is empty and every generated point falls into it. *)
Lemma histogram_points_lie_in_low_density_bins_witness :
  exists Xo yt self' w',
    generate (HistogramSamplingGenerator 100 (1 / 10) 3)
      two_points None [] (World 0%nat [])
    = Ok (Xo, yt, self', w') /\
    forall row, In row Xo ->
      exists coords,
        in_cell [Toy.linspace (-1) 1 3] coords
          (transform_row {| mean_ := [1%R]; scale_ := [1%R] |} row).
Proof.
  assert (Elow : hist_coords_low_density
                   [([0%nat], 1%nat); ([1%nat], 0%nat); ([2%nat], 1%nat)] (1 / 10)
                 = [[1%nat]]).
  { unfold hist_coords_low_density, norm_hist, normalize, is_low_density; simpl.
    destruct (Rle_dec (1 / (1 - 0)) (1 / 10)); [exfalso; lra|].
    destruct (Rle_dec (0 / (1 - 0)) (1 / 10)); [|exfalso; lra].
    reflexivity. }
  assert (Eh : histogramdd
                 (transform {| mean_ := [1%R]; scale_ := [1%R] |} two_points) 3
               = ([([0%nat], 1%nat); ([1%nat], 0%nat); ([2%nat], 1%nat)],
                  [Toy.linspace (-1) 1 3])).
  { rewrite transform_two_points; exact toy_histogram_unit_points. }
  destruct (HistogramSampling_returns 100 (1 / 10) 3 two_points (World 0%nat [])
              {| mean_ := [1%R]; scale_ := [1%R] |}) as (Xo & yt & w' & E).
  - simpl; lia.
  - apply fit_two_points.
  - rewrite Eh; simpl fst; rewrite Elow; discriminate.
  - change (1 <= 2)%nat; lia.
  - assert (Eg : generate (HistogramSamplingGenerator 100 (1 / 10) 3)
                   two_points None [] (World 0%nat [])
                 = Ok (Xo, yt, HistogramSamplingGenerator 100 (1 / 10) 3, w')).
    { simpl; unfold bind; rewrite E; reflexivity. }
    eexists _, _, _, _; split; [exact Eg|].
    intros row Hrow.
    destruct (histogram_points_lie_in_low_density_bins
                _ _ _ _ _ _ _ _ _ _ _ _ Eg (fit_two_points _)) with (row := row)
      as (coords & _ & Hcell).
    + rewrite Eh; simpl fst; simpl snd; rewrite Elow.
      intros coords [<-|[]]; split; [reflexivity|].
      intros [|i] c Ec; simpl in Ec; [|destruct i; discriminate].
      injection Ec as <-.
      unfold edge, Toy.linspace; simpl; lra.
    + exact Hrow.
    + rewrite Eh in Hcell; exists coords; exact Hcell.
Defined.
End ThreeBinsWitness.

(* ------------------------------------------------------------------ *)
(** * Reproducibility *)

(** ** The generators never read the warning log *)

(** a computation whose result does not depend on the warnings emitted
    before it: it only appends to them *)
Definition log_blind {G A} (m : M G A) : Prop :=
  forall g ws,
    match m (World g ws) with
    | Ok (a, w') =>
        exists new, warned w' = ws ++ new /\
          forall ws', m (World g ws') = Ok (a, World (rng w') (ws' ++ new))
    | Raise e => forall ws', m (World g ws') = Raise e
    end.

Lemma log_blind_ret {G A} (a : A) : log_blind (@ret G A a).
Proof.
  intros g ws; simpl; exists []; split; [symmetry; apply app_nil_r|].
  intros ws'; unfold ret; rewrite app_nil_r; reflexivity.
Qed.

Lemma log_blind_raise {G A} (e : exn) : log_blind (@raise G A e).
Proof. intros g ws; simpl; reflexivity. Qed.

Lemma log_blind_draw {G A} (f : G -> A * G) : log_blind (draw f).
Proof.
  intros g ws; unfold draw; simpl; destruct (f g) as [a g'].
  exists []; simpl; split; [symmetry; apply app_nil_r|].
  intros ws'; rewrite app_nil_r; reflexivity.
Qed.

Lemma log_blind_warn {G} (msg : string) : log_blind (@warn G msg).
Proof.
  intros g ws; unfold warn; simpl; exists [msg]; split; reflexivity.
Qed.

Lemma log_blind_bind {G A B} (m : M G A) (k : A -> M G B) :
  log_blind m -> (forall a, log_blind (k a)) -> log_blind (bind m k).
Proof.
  intros Hm Hk g ws; unfold bind; specialize (Hm g ws).
  destruct (m (World g ws)) as [[a [g1 ws1]]|e].
  - destruct Hm as (new1 & E1 & Hm); simpl in E1; subst ws1.
    specialize (Hk a g1 (ws ++ new1)).
    destruct (k a (World g1 (ws ++ new1))) as [[b [g2 ws2]]|e].
    + destruct Hk as (new2 & E2 & Hk); simpl in E2; subst ws2.
      exists (new1 ++ new2); simpl; split; [symmetry; apply app_assoc|].
      intros ws'; rewrite Hm, Hk, app_assoc; reflexivity.
    + intros ws'; rewrite Hm; apply Hk.
  - intros ws'; rewrite Hm; reflexivity.
Qed.

Lemma log_blind_replicateM {G A} (m : M G A) n :
  log_blind m -> log_blind (replicateM n m).
Proof.
  intros Hm; induction n as [|n IH]; simpl; [apply log_blind_ret|].
  apply log_blind_bind; [exact Hm|intros a].
  apply log_blind_bind; [exact IH|intros l; apply log_blind_ret].
Qed.

Lemma log_blind_mapM {G A B} (f : A -> M G B) xs :
  (forall x, log_blind (f x)) -> log_blind (mapM f xs).
Proof.
  intros Hf; induction xs as [|x xs IH]; simpl; [apply log_blind_ret|].
  apply log_blind_bind; [apply Hf|intros a].
  apply log_blind_bind; [exact IH|intros l; apply log_blind_ret].
Qed.

Lemma log_blind_foldM {G A S} (f : S -> A -> M G S) xs :
  (forall s x, log_blind (f s x)) -> forall s, log_blind (foldM f s xs).
Proof.
  intros Hf; induction xs as [|x xs IH]; intros s; simpl; [apply log_blind_ret|].
  apply log_blind_bind; [apply Hf | exact IH].
Qed.

Ltac log_blind :=
  repeat first
    [ apply log_blind_ret | apply log_blind_raise | apply log_blind_draw
    | apply log_blind_warn
    | apply log_blind_replicateM | apply log_blind_mapM; intros
    | apply log_blind_foldM; intros
    | apply log_blind_bind; [|intros]
    | match goal with
      | |- log_blind (if ?b then _ else _) => destruct b
      | |- log_blind (match ?x with _ => _ end) => destruct x
      | |- log_blind (let (_, _) := ?x in _) => destruct x
      end ].

Section LogBlind.
Context {G : Type} `{Generator G} `{tabular_data.Toolkit} {Y : Type}.

Lemma log_blind_RandomZeros self X (y : Y) :
  log_blind (time_series.RandomZeros_generate self X y).
Proof.
  unfold time_series.RandomZeros_generate, choice_without_replacement,
    time_series.fill, time_series.setitem; log_blind.
Qed.

Lemma log_blind_LocalZScore self X (y : Y) :
  log_blind (time_series.LocalZScore_generate self X y).
Proof.
  unfold time_series.LocalZScore_generate, choice_without_replacement,
    time_series.LocalZScore_step, time_series.LocalZScore_value,
    time_series.setitem, random_sign, exponential; log_blind.
Qed.

Lemma log_blind_generate self : forall X y ps,
  log_blind (tabular_data.generate self X y ps).
Proof.
  induction self as [p|p|p t b|p de|dec g IH]; intros X y ps; simpl.
  - unfold tabular_data.ZScoreSampling_generate, tabular_data.fit,
      tabular_data.inverse_transform, random_sign, exponential; log_blind.
  - unfold tabular_data.HypersphereSampling_generate, tabular_data.fit,
      tabular_data.inverse_transform, random_spherical_coordinate, exponential1;
      log_blind.
  - unfold tabular_data.HistogramSampling_generate, tabular_data.fit,
      tabular_data.inverse_transform, choice_with_replacement, uniform; log_blind.
  - unfold tabular_data.LowDensitySampling_generate, tabular_data.fit,
      tabular_data.inverse_transform, uniform; log_blind.
  - apply log_blind_bind; [unfold tabular_data.fit; log_blind|intros sc].
    destruct (tabular_data.dec_fit_transform dec _); [|apply log_blind_raise].
    apply log_blind_bind; [apply IH|intros [[Xo yt] g']].
    destruct (tabular_data.dec_inverse_transform dec); [|apply log_blind_raise].
    unfold tabular_data.inverse_transform; log_blind.
Qed.
End LogBlind.

(** ** Two objects, two sources

    Two calls made one after the other in one heap: what the second call
    returns when its generator holds a source of its own. *)

Import objects.

Section Reproducibility.
Context {G : Type} `{Generator G} `{tabular_data.Toolkit} {Y : Type}.

Lemma lookup_ref {A} (l : list A) r x : nth_error l r = Some x -> (r < length l)%nat.
Proof. intros E; apply nth_error_Some; rewrite E; discriminate. Qed.

(** two calls in a row on two separate sources in the same state *)
Lemma on_source_separate {A} (m : M G A) (h : heap G) r1 r2 g :
  log_blind m -> r1 <> r2 ->
  nth_error (sources h) r1 = Some g -> nth_error (sources h) r2 = Some g ->
  match on_source r1 m h with
  | Ok (a, h1) =>
      arrays h1 = arrays h /\
      exists h2,
        on_source r2 m h1 = Ok (a, h2) /\ arrays h2 = arrays h /\
        nth_error (sources h2) r1 = nth_error (sources h2) r2
  | Raise e => on_source r2 m h = Raise e
  end.
Proof.
  intros Hm Hr E1 E2; unfold on_source; rewrite E1.
  specialize (Hm g (emitted h)).
  destruct (m (World g (emitted h))) as [[a [g' ws']]|e].
  - destruct Hm as (new & Ews & Hm); simpl in Ews |- *.
    split; [reflexivity|].
    rewrite set_nth_other, E2, Hm by exact Hr; simpl.
    eexists; split; [reflexivity|]; simpl; split; [reflexivity|].
    rewrite set_nth_other by (intros E; apply Hr; symmetry; exact E).
    rewrite !set_nth_same; [reflexivity | |].
    + rewrite set_nth_length; eapply lookup_ref; exact E2.
    + eapply lookup_ref; exact E1.
  - rewrite E2, Hm; reflexivity.
Qed.

Lemma on_source_arrays {A} (m : M G A) r s arr arr' e :
  on_source r m (Heap s arr' e)
  = match on_source r m (Heap s arr e) with
    | Ok (a, h') => Ok (a, Heap (sources h') arr' (emitted h'))
    | Raise e => Raise e
    end.
Proof.
  unfold on_source; simpl.
  destruct (nth_error s r) as [g|]; [|reflexivity].
  destruct (m (World g e)) as [[a w']|]; reflexivity.
Qed.

Lemma in_place_separate {S} (m : time_series.ndarray -> M G (time_series.ndarray * Y * S))
      (h : heap G) r1 r2 g a1 a2 X :
  (forall X, log_blind (m X)) -> r1 <> r2 -> a1 <> a2 ->
  nth_error (sources h) r1 = Some g -> nth_error (sources h) r2 = Some g ->
  nth_error (arrays h) a1 = Some X -> nth_error (arrays h) a2 = Some X ->
  match in_place r1 m a1 h with
  | Ok (b1, y1, s1, h1) =>
      b1 = a1 /\
      exists h2 X',
        in_place r2 m a2 h1 = Ok (a2, y1, s1, h2) /\
        nth_error (arrays h2) a1 = Some X' /\
        nth_error (arrays h2) a2 = Some X'
  | Raise e => in_place r2 m a2 h = Raise e
  end.
Proof.
  intros Hm Hr Ha E1 E2 Ea1 Ea2; unfold in_place; rewrite Ea1.
  pose proof (on_source_separate (m X) h r1 r2 g (Hm X) Hr E1 E2) as Hs.
  destruct (on_source r1 (m X) h) as [[[[X' y1] s1] h1]|e].
  - destruct Hs as (Harr & h2 & Eh2 & Harr2 & _).
    split; [reflexivity|]; simpl.
    rewrite set_nth_other, Harr, Ea2 by exact Ha.
    destruct h1 as [s1' arr1 e1]; simpl in *; subst arr1.
    rewrite (on_source_arrays (m X) r2 s1' (arrays h)), Eh2; simpl.
    eexists _, X'; split; [reflexivity|]; simpl; split.
    + rewrite set_nth_other by (intros E; apply Ha; symmetry; exact E).
      apply set_nth_same; eapply lookup_ref; exact Ea1.
    + apply set_nth_same; rewrite set_nth_length; eapply lookup_ref; exact Ea2.
  - rewrite Ea2, Hs; reflexivity.
Qed.

Lemma on_source_ext {A} (m1 m2 : M G A) r (h : heap G) :
  (forall w, m1 w = m2 w) -> on_source r m1 h = on_source r m2 h.
Proof.
  intros E; unfold on_source.
  destruct (nth_error (sources h) r) as [g|]; [|reflexivity].
  rewrite E; reflexivity.
Qed.

Lemma in_place_ext {S} (m1 m2 : time_series.ndarray -> M G (time_series.ndarray * Y * S))
      r a (h : heap G) :
  (forall X w, m1 X w = m2 X w) -> in_place r m1 a h = in_place r m2 a h.
Proof.
  intros E; unfold in_place.
  destruct (nth_error (arrays h) a) as [X|]; [|reflexivity].
  rewrite (on_source_ext (m1 X) (m2 X) r h (E X)); reflexivity.
Qed.

(** what a call returns, without the heap it leaves *)
Definition returned {A} (r : result (A * heap G)) : result A :=
  match r with
  | Ok (a, _) => Ok a
  | Raise e => Raise e
  end.

Lemma returned_raise {A} (r : result (A * heap G)) e :
  returned r = Raise e -> r = Raise e.
Proof. destruct r as [[a h]|e']; simpl; [discriminate | congruence]. Qed.

(** what a call returns is settled by the computation and the state of
    the source the object refers to: nothing else of the heap is read *)
Lemma on_source_reads_its_source_only {A} (m : M G A) r r' (h h' : heap G) :
  log_blind m ->
  nth_error (sources h) r = nth_error (sources h') r' ->
  returned (on_source r m h) = returned (on_source r' m h').
Proof.
  intros Hm E; unfold on_source; rewrite <- E.
  destruct (nth_error (sources h) r) as [g|]; [|reflexivity].
  specialize (Hm g (emitted h)).
  destruct (m (World g (emitted h))) as [[a w']|e].
  - destruct Hm as (new & _ & Hm); rewrite Hm; reflexivity.
  - rewrite Hm; reflexivity.
Qed.

(** the output of a tabular strategy is a function of the input, the
    configuration and the state of the random source only *)
Lemma tabular_generate_reads_its_source_only a b X y ps r r' (h h' : heap G) :
  tabular_data.same_configuration a b ->
  nth_error (sources h) r = nth_error (sources h') r' ->
  returned (tabular_generate (Build_tabular_generator r a) X y ps h)
  = returned (tabular_generate (Build_tabular_generator r' b) X y ps h').
Proof.
  intros Hc E; unfold tabular_generate; simpl.
  rewrite (on_source_ext (tabular_data.generate a X y ps)
             (tabular_data.generate b X y ps) r h
             (fun w => generate_same_configuration a b X y ps w Hc)).
  apply on_source_reads_its_source_only; [apply log_blind_generate | exact E].
Qed.

(** what a call on an array object returns: the contents it leaves in
    that array, the labels and the attributes *)
Definition written {S} (r : result (ref * Y * S * heap G))
  : result (option time_series.ndarray * Y * S) :=
  match r with
  | Ok (a, y, s, h) => Ok (nth_error (arrays h) a, y, s)
  | Raise e => Raise e
  end.

Lemma written_raise {S} (r : result (ref * Y * S * heap G)) e :
  written r = Raise e -> r = Raise e.
Proof. destruct r as [[[[a y] s] h]|e']; simpl; [discriminate | congruence]. Qed.

(** the same for the time-series strategies, whose input is the contents
    of the array object they are given *)
Lemma in_place_reads_its_source_and_array_only {S}
      (m : time_series.ndarray -> M G (time_series.ndarray * Y * S))
      r r' a a' (h h' : heap G) :
  (forall X, log_blind (m X)) ->
  nth_error (sources h) r = nth_error (sources h') r' ->
  nth_error (arrays h) a = nth_error (arrays h') a' ->
  written (in_place r m a h) = written (in_place r' m a' h').
Proof.
  intros Hm Es Ea; unfold in_place; rewrite <- Ea.
  destruct (nth_error (arrays h) a) as [X|] eqn:EX; [|reflexivity].
  symmetry in Ea.
  pose proof (on_source_reads_its_source_only (m X) r r' h h' (Hm X) Es) as Hr.
  unfold on_source in *.
  destruct (nth_error (sources h) r) as [g|];
    destruct (nth_error (sources h') r') as [g'|]; try discriminate;
    [|reflexivity].
  destruct (m X (World g (emitted h))) as [[[[X1 y1] s1] w1]|e1];
    destruct (m X (World g' (emitted h'))) as [[[[X2 y2] s2] w2]|e2];
    simpl in Hr; try discriminate.
  - injection Hr as -> -> ->; simpl.
    rewrite !set_nth_same; [reflexivity | |].
    + eapply lookup_ref; exact Ea.
    + eapply lookup_ref; exact EX.
  - injection Hr as ->; reflexivity.
Qed.

Lemma RandomZeros_same_configuration (a b : time_series.RandomZerosGenerator)
      X (y : Y) (w : world G) :
  time_series.n_outliers a = time_series.n_outliers b ->
  time_series.RandomZeros_generate a X y w = time_series.RandomZeros_generate b X y w.
Proof. destruct a, b; simpl; intros ->; reflexivity. Qed.

Lemma LocalZScore_same_configuration (a b : time_series.LocalZScoreGenerator)
      X (y : Y) (w : world G) :
  time_series.n_outliers (time_series.base a)
  = time_series.n_outliers (time_series.base b) ->
  time_series.local_window_size a = time_series.local_window_size b ->
  time_series.LocalZScore_generate a X y w = time_series.LocalZScore_generate b X y w.
Proof.
  destruct a as [[n ia] wa], b as [[m ib] wb]; simpl; intros -> ->; reflexivity.
Qed.

Lemma two_new_sources seed (h : heap G) :
  let r1 := length (sources h) in
  let h2 := snd (new_source seed (snd (new_source seed h))) in
  fst (new_source seed h) = r1 /\
  fst (new_source seed (snd (new_source seed h))) = S r1 /\
  nth_error (sources h2) r1 = Some (default_rng seed) /\
  nth_error (sources h2) (S r1) = Some (default_rng seed) /\
  arrays h2 = arrays h.
Proof.
  unfold new_source; cbn [fst snd sources arrays emitted].
  split; [reflexivity|]; split; [rewrite length_app; simpl; lia|].
  split; [|split; [|reflexivity]].
  - rewrite <- app_assoc, nth_error_app2 by lia.
    rewrite Nat.sub_diag; reflexivity.
  - rewrite nth_error_app2 by (rewrite length_app; simpl; lia).
    rewrite length_app; cbn [length].
    replace (S (length (sources h)) - (length (sources h) + 1))%nat with 0%nat by lia.
    reflexivity.
Qed.

Lemma two_new_arrays X (h : heap G) :
  let a1 := length (arrays h) in
  let h2 := snd (new_array X (snd (new_array X h))) in
  fst (new_array X h) = a1 /\
  fst (new_array X (snd (new_array X h))) = S a1 /\
  nth_error (arrays h2) a1 = Some X /\
  nth_error (arrays h2) (S a1) = Some X /\
  sources h2 = sources h.
Proof.
  unfold new_array; cbn [fst snd sources arrays emitted].
  split; [reflexivity|]; split; [rewrite length_app; simpl; lia|].
  split; [|split; [|reflexivity]].
  - rewrite <- app_assoc, nth_error_app2 by lia.
    rewrite Nat.sub_diag; reflexivity.
  - rewrite nth_error_app2 by (rewrite length_app; simpl; lia).
    rewrite length_app; cbn [length].
    replace (S (length (arrays h)) - (length (arrays h) + 1))%nat with 0%nat by lia.
    reflexivity.
Qed.

Lemma in_place_twice {S}
      (m1 m2 : time_series.ndarray -> M G (time_series.ndarray * Y * S))
      seed X (h : heap G) :
  (forall X, log_blind (m1 X)) -> (forall X w, m1 X w = m2 X w) ->
  let '(r1, h1) := new_source seed h in
  let '(r2, h2) := new_source seed h1 in
  let '(a1, h3) := new_array X h2 in
  let '(a2, h4) := new_array X h3 in
  match in_place r1 m1 a1 h4 with
  | Ok (b1, y1, s1, h5) =>
      b1 = a1 /\
      exists h6 X',
        in_place r2 m2 a2 h5 = Ok (a2, y1, s1, h6) /\
        nth_error (arrays h6) a1 = Some X' /\
        nth_error (arrays h6) a2 = Some X'
  | Raise e =>
      forall h',
        nth_error (sources h') r2 = nth_error (sources h4) r2 ->
        nth_error (arrays h') a2 = nth_error (arrays h4) a2 ->
        in_place r2 m2 a2 h' = Raise e
  end.
Proof.
  intros Hm Hext.
  pose proof (two_new_sources seed h) as Hsrc.
  pose proof (two_new_arrays X (snd (new_source seed (snd (new_source seed h)))))
    as Harr.
  unfold new_source, new_array in Hsrc, Harr |- *.
  cbn [fst snd sources arrays emitted] in Hsrc, Harr |- *.
  destruct Hsrc as (_ & Er2 & Es1 & Es2 & _).
  destruct Harr as (_ & Ea2 & Ea1 & Ea2' & _).
  rewrite Er2, Ea2 in *.
  set (h4 := Heap _ _ _) in *.
  pose proof (in_place_separate m1 h4 _ _ _ _ _ X Hm
                (Nat.neq_succ_diag_r _) (Nat.neq_succ_diag_r _)
                Es1 Es2 Ea1 Ea2') as Hs.
  destruct (in_place (length (sources h)) m1 (length (arrays h)) h4)
    as [[[[b1 y1] s1] h5]|e].
  - destruct Hs as (Hb & h6 & X' & Hc & Hx1 & Hx2).
    split; [exact Hb|]; exists h6, X'.
    rewrite <- (in_place_ext m1 m2 _ _ h5 Hext); auto.
  - intros h' Es' Ea'.
    rewrite <- (in_place_ext m1 m2 _ _ h' Hext).
    apply written_raise.
    rewrite (in_place_reads_its_source_and_array_only m1 _ _ _ _ h' h4 Hm Es' Ea').
    rewrite Hs; reflexivity.
Qed.

Lemma on_source_twice {A} (m1 m2 : M G A) seed (h : heap G) :
  log_blind m1 -> (forall w, m1 w = m2 w) ->
  let '(r1, h1) := new_source seed h in
  let '(r2, h2) := new_source seed h1 in
  match on_source r1 m1 h2 with
  | Ok (a, h3) => exists h4, on_source r2 m2 h3 = Ok (a, h4)
  | Raise e =>
      forall h',
        nth_error (sources h') r2 = nth_error (sources h2) r2 ->
        on_source r2 m2 h' = Raise e
  end.
Proof.
  intros Hm Hext.
  pose proof (two_new_sources seed h) as Hsrc.
  unfold new_source in Hsrc |- *.
  cbn [fst snd sources arrays emitted] in Hsrc |- *.
  destruct Hsrc as (_ & Er2 & Es1 & Es2 & _).
  rewrite Er2 in *.
  set (h2 := Heap _ _ _) in *.
  pose proof (on_source_separate m1 h2 _ _ _ Hm (Nat.neq_succ_diag_r _) Es1 Es2)
    as Hs.
  destruct (on_source (length (sources h)) m1 h2) as [[a h3]|e].
  - destruct Hs as (_ & h4 & Hc & _); exists h4.
    rewrite <- (on_source_ext m1 m2 _ h3 Hext); exact Hc.
  - intros h' Es'.
    rewrite <- (on_source_ext m1 m2 _ h' Hext).
    apply returned_raise.
    rewrite (on_source_reads_its_source_only m1 _ _ h' h2 Hm Es').
    rewrite Hs; reflexivity.
Qed.

(** C8: two generator objects of the same configuration, each holding a
    random source of its own created with the same seed, return the same
    outputs on the same input, whatever the heap held before and whatever
    earlier calls left in the objects.  The second call is made after the
    first, in the heap the first one left: the first source has advanced,
    the warnings of the first call are in the log, and (for time series)
    the first array has been overwritten.  Every tabular strategy returns
    the same points, labels and attributes, or raises the same exception;
    [RandomZerosGenerator] and [LocalZScoreGenerator], given two arrays of
    the same contents, return the same labels and attributes and leave the
    same contents in both arrays, or raise the same exception.  When the
    first call raises, the second raises the same exception in every heap
    that holds its source, and its array, as they were: whatever the
    failed call left behind.  The decomposition transformer of
    [DecompositionAndOutlierGenerator] is a [Transformer], a function of
    the data it is given; a transformer that draws from a random source
    of its own is not covered. *)
Theorem separately_seeded_sources_reproduce :
  (forall (h : heap G) seed a b X y ps,
     tabular_data.same_configuration a b ->
     let '(r1, h1) := new_source seed h in
     let '(r2, h2) := new_source seed h1 in
     match tabular_generate (Build_tabular_generator r1 a) X y ps h2 with
     | Ok (out, h3) =>
         exists h4,
           tabular_generate (Build_tabular_generator r2 b) X y ps h3 = Ok (out, h4)
     | Raise e =>
         forall h',
           nth_error (sources h') r2 = nth_error (sources h2) r2 ->
           tabular_generate (Build_tabular_generator r2 b) X y ps h' = Raise e
     end) /\
  (forall (h : heap G) seed (a b : time_series.RandomZerosGenerator) X (y : Y),
     time_series.n_outliers a = time_series.n_outliers b ->
     let '(r1, h1) := new_source seed h in
     let '(r2, h2) := new_source seed h1 in
     let '(a1, h3) := new_array X h2 in
     let '(a2, h4) := new_array X h3 in
     match RandomZeros_call r1 a a1 y h4 with
     | Ok (b1, y1, self1, h5) =>
         b1 = a1 /\
         exists h6 X',
           RandomZeros_call r2 b a2 y h5 = Ok (a2, y1, self1, h6) /\
           nth_error (arrays h6) a1 = Some X' /\
           nth_error (arrays h6) a2 = Some X'
     | Raise e =>
         forall h',
           nth_error (sources h') r2 = nth_error (sources h4) r2 ->
           nth_error (arrays h') a2 = nth_error (arrays h4) a2 ->
           RandomZeros_call r2 b a2 y h' = Raise e
     end) /\
  (forall (h : heap G) seed (a b : time_series.LocalZScoreGenerator) X (y : Y),
     time_series.n_outliers (time_series.base a)
     = time_series.n_outliers (time_series.base b) ->
     time_series.local_window_size a = time_series.local_window_size b ->
     let '(r1, h1) := new_source seed h in
     let '(r2, h2) := new_source seed h1 in
     let '(a1, h3) := new_array X h2 in
     let '(a2, h4) := new_array X h3 in
     match LocalZScore_call r1 a a1 y h4 with
     | Ok (b1, y1, self1, h5) =>
         b1 = a1 /\
         exists h6 X',
           LocalZScore_call r2 b a2 y h5 = Ok (a2, y1, self1, h6) /\
           nth_error (arrays h6) a1 = Some X' /\
           nth_error (arrays h6) a2 = Some X'
     | Raise e =>
         forall h',
           nth_error (sources h') r2 = nth_error (sources h4) r2 ->
           nth_error (arrays h') a2 = nth_error (arrays h4) a2 ->
           LocalZScore_call r2 b a2 y h' = Raise e
     end).
Proof.
  split; [|split].
  - intros h seed a b X y ps Hc.
    apply (on_source_twice (tabular_data.generate a X y ps)
             (tabular_data.generate b X y ps) seed h).
    + apply log_blind_generate.
    + intros w; apply generate_same_configuration; exact Hc.
  - intros h seed a b X y Hn.
    apply (in_place_twice
             (fun X => time_series.RandomZeros_generate a X y)
             (fun X => time_series.RandomZeros_generate b X y) seed X h).
    + intros X0; apply log_blind_RandomZeros.
    + intros X0 w; apply RandomZeros_same_configuration; exact Hn.
  - intros h seed a b X y Hn Hw.
    apply (in_place_twice
             (fun X => time_series.LocalZScore_generate a X y)
             (fun X => time_series.LocalZScore_generate b X y) seed X h).
    + intros X0; apply log_blind_LocalZScore.
    + intros X0 w; apply LocalZScore_same_configuration; assumption.
Qed.
End Reproducibility.


(** The theorem at work: a fresh [LowDensitySamplingGenerator] and one
    that has already been fitted on other data, each with a source of its
    own seeded with 0. *)
Lemma separately_seeded_sources_reproduce_witness :
  tabular_data.same_configuration
    (tabular_data.LowDensitySamplingGenerator 100 None)
    (tabular_data.LowDensitySamplingGenerator 100 (Some unit_points)) /\
  let '(r1, h1) := new_source 0 (Heap (G := nat) [] [] []) in
  let '(r2, h2) := new_source 0 h1 in
  match tabular_generate
          (Build_tabular_generator r1
             (tabular_data.LowDensitySamplingGenerator 100 None))
          two_points None [] h2 with
  | Ok (out, h3) =>
      exists h4,
        tabular_generate
          (Build_tabular_generator r2
             (tabular_data.LowDensitySamplingGenerator 100 (Some unit_points)))
          two_points None [] h3
        = Ok (out, h4)
  | Raise e =>
      forall h',
        nth_error (sources h') r2 = nth_error (sources h2) r2 ->
        tabular_generate
          (Build_tabular_generator r2
             (tabular_data.LowDensitySamplingGenerator 100 (Some unit_points)))
          two_points None [] h'
        = Raise e
  end.
Proof.
  split; [reflexivity|].
  apply (proj1 (separately_seeded_sources_reproduce (G := nat) (Y := unit))
           (Heap [] [] []) 0%Z
           (tabular_data.LowDensitySamplingGenerator 100 None)
           (tabular_data.LowDensitySamplingGenerator 100 (Some unit_points))
           two_points None []).
  reflexivity.
Defined.

(** [LocalZScoreGenerator] on [two_rows], from the scripted source in
    its states 0 and 3 *)
Lemma LocalZScore_value_two_rows_later :
  time_series.LocalZScore_value
    (time_series.LocalZScoreGenerator_init 1 4) two_rows 0 (World 4%nat [])
  = Ok ([Fin 21], World 6%nat []).
Proof.
  unfold time_series.LocalZScore_value.
  change (time_series.mean_axis0 (time_series.item_size two_rows)
            (time_series.local_window
               (time_series.LocalZScoreGenerator_init 1 4) two_rows 0))
    with [np_mean [Fin 0; Fin 8]].
  change (time_series.std_axis0 (time_series.item_size two_rows)
            (time_series.local_window
               (time_series.LocalZScoreGenerator_init 1 4) two_rows 0))
    with [np_std [Fin 0; Fin 8]].
  rewrite np_mean_0_8, np_std_0_8.
  unfold bind; simpl.
  unfold ret, time_series.outlier_value; simpl.
  do 4 f_equal; lra.
Qed.

Definition after_one_call : time_series.LocalZScoreGenerator :=
  {| time_series.base := {| time_series.n_outliers := 1;
                            time_series.outliers_indices_ := [0%nat] |};
     time_series.local_window_size := 4 |}.

Lemma LocalZScore_two_rows_first :
  time_series.LocalZScore_generate
    (time_series.LocalZScoreGenerator_init 1 4) two_rows tt (World 0%nat [])
  = Ok (time_series.Array [2; 1]%nat [[Fin (-10)]; [Fin 8]], tt, after_one_call,
        World 3%nat []).
Proof.
  unfold time_series.LocalZScore_generate.
  change (time_series.ndim two_rows <? 2)%nat with false; cbv iota.
  unfold bind at 1.
  change (choice_without_replacement _ _ (World 0%nat []))
    with (Ok ([0%nat], World 1%nat [])).
  cbv iota beta; simpl foldM.
  unfold time_series.LocalZScore_step, bind; rewrite LocalZScore_value_two_rows.
  reflexivity.
Qed.

Lemma LocalZScore_two_rows_second :
  time_series.LocalZScore_generate
    (time_series.LocalZScoreGenerator_init 1 4) two_rows tt (World 3%nat [])
  = Ok (time_series.Array [2; 1]%nat [[Fin 21]; [Fin 8]], tt, after_one_call,
        World 6%nat []).
Proof.
  unfold time_series.LocalZScore_generate.
  change (time_series.ndim two_rows <? 2)%nat with false; cbv iota.
  unfold bind at 1.
  change (choice_without_replacement _ _ (World 3%nat []))
    with (Ok ([0%nat], World 4%nat [])).
  cbv iota beta; simpl foldM.
  unfold time_series.LocalZScore_step, bind; rewrite LocalZScore_value_two_rows_later.
  reflexivity.
Qed.

(** The two sources must be two objects.  Generators built with the
    default argument [random_generator=default_rng(seed=0)] share the one
    source made when the class was defined: the second call then starts
    where the first one stopped.  On two copies of [two_rows], the first
    call writes [-10] at index 0 and the second writes [21]. *)
Lemma one_shared_source_does_not_reproduce :
  let '(r, h1) := new_source 0 (Heap (G := nat) [] [] []) in
  let '(a1, h2) := new_array two_rows h1 in
  let '(a2, h3) := new_array two_rows h2 in
  exists h4 h5,
    LocalZScore_call r (time_series.LocalZScoreGenerator_init 1 4) a1 tt h3
    = Ok (a1, tt, after_one_call, h4) /\
    LocalZScore_call r (time_series.LocalZScoreGenerator_init 1 4) a2 tt h4
    = Ok (a2, tt, after_one_call, h5) /\
    nth_error (arrays h5) a1
    = Some (time_series.Array [2; 1]%nat [[Fin (-10)]; [Fin 8]]) /\
    nth_error (arrays h5) a2
    = Some (time_series.Array [2; 1]%nat [[Fin 21]; [Fin 8]]) /\
    nth_error (arrays h5) a1 <> nth_error (arrays h5) a2.
Proof.
  unfold new_source, new_array; cbn [sources arrays emitted length app].
  change (default_rng 0) with 0%nat.
  unfold LocalZScore_call, in_place, on_source.
  cbn [sources arrays emitted nth_error].
  rewrite LocalZScore_two_rows_first.
  cbn [sources arrays emitted nth_error set_nth rng warned].
  eexists _, _; split; [reflexivity|].
  cbn [sources arrays emitted nth_error set_nth rng warned].
  rewrite LocalZScore_two_rows_second.
  cbn [sources arrays emitted nth_error set_nth rng warned].
  split; [reflexivity|]; split; [reflexivity|]; split; [reflexivity|].
  intros E; injection E as E; lra.
Qed.
